(** * GDC RNA-seq preprocessing pipeline: model of [preprocess.py]

    The development follows the script top-down:

    - [Py]        : Python completions (return / raise), the output trace,
                    and the small monad the embedded functions are written in;
    - [Text]      : byte and string helpers ([str.startswith], [str.lower],
                    substring search, UTF-8 validation);
    - [Csv]       : the table reader called at lines 25 and 27
                    ([pd.read_csv(..., sep='\t', comment='#')]) as a
                    character-level tokenizer followed by frame construction;
    - [Frames]    : the data-frame operations the script uses ([df[col]],
                    [.str.startswith], [~], boolean indexing, [tolist],
                    [rename], [pd.concat(axis=1)], [DataFrame.insert]);
    - [Sample]    : [process_file] (lines 15-46);
    - [Executor]  : the worker pool and [as_completed] (lines 120-128);
    - [Cohort]    : the collecting loop, matrix assembly and the run of a
                    group and of a site's table (lines 104-167), once as
                    the collecting loop sees it and once with the worker
                    threads;
    - [Metadata]  : [get_rna_seq_metadata] (lines 48-95) and the loop over
                    the sites of [generate_expression_csvs] (lines 97-103);
    - [Reference] : concrete endpoints, tables and a codec to run the
                    model on;
    - [Vocabulary]: the predicates and line-level descriptions the
                    statements are written with.

    Theorems come after the definitions. *)

From Stdlib Require Import List String Ascii Strings.Byte Bool Arith PeanoNat Lia
  Permutation Sorted.
Import ListNotations.

Set Implicit Arguments.

Local Open Scope string_scope.
Local Open Scope list_scope.
Local Open Scope nat_scope.

(* ================================================================== *)
(** ** Python completions, traces and the monad of the embedding       *)
(* ================================================================== *)

Module Py.

(** The exception classes that the modelled calls raise.  All of them
    derive from [Exception], which is what line 44 catches.  [OtherError]
    stands for any further [Exception] subclass the network layer or the
    decompressor may raise. *)
Inductive exn : Type :=
| RequestException (msg : string)   (* requests.get / raise_for_status *)
| BadGzipFile (msg : string)        (* gzip.GzipFile read *)
| UnicodeDecodeError                (* strict UTF-8 decoding in read_csv *)
| EmptyDataError                    (* read_csv: no columns to parse *)
| ParserError (msg : string)        (* read_csv: tokenizing error *)
| KeyError (key : string)           (* df[col] with an absent column *)
| AttributeError (msg : string)     (* .str on a non-string column *)
| TypeError (msg : string)          (* ~ on an object column holding NaN *)
| ValueError (msg : string)         (* concat / insert *)
| OtherError (msg : string).

Inductive completion (A : Type) : Type :=
| Returns (a : A)
| Raises (e : exn).
Arguments Returns {A} a.
Arguments Raises {A} e.

(** What the script prints, requests and writes, in program order. *)
Inductive diag : Type :=
| SkippingMissingColumns (file_id : string)                (* line 33 *)
| ProcessedFile (file_name sample_id : string)             (* line 42 *)
| ErrorProcessing (file_id : string) (e : exn)             (* line 45 *)
| ProcessingSite (site : string)                           (* line 102 *)
| NoMetadata (site : string)                               (* line 105 *)
| Found (n : nat)                                          (* line 110 *)
| NoSamplesFound (label : string)                          (* line 113 *)
| Downloading (label : string)                             (* line 116 *)
| NoValidData (label : string)                             (* line 139 *)
| SavedCsvs (label : string)                               (* line 167 *)
| ApiRequestFailed (e : exn).                              (* line 74 *)

Section Monad.
(** The events are left abstract here; [Cohort] fixes them. *)
Variable event : Type.

(** A computation logs events and either returns or raises.  Events
    logged before a raise are kept. *)
Definition M (A : Type) : Type := (completion A * list event)%type.

Definition ret {A} (a : A) : M A := (Returns a, []).
Definition raise {A} (e : exn) : M A := (Raises e, []).
Definition emit (ev : event) : M unit := (Returns tt, [ev]).
Definition lift {A} (c : completion A) : M A := (c, []).

Definition bind {A B} (m : M A) (k : A -> M B) : M B :=
  match m with
  | (Returns a, t) => let (r, t') := k a in (r, t ++ t')
  | (Raises e, t) => (Raises e, t)
  end.

(** [try: body / except Exception as e: handler e]. *)
Definition try_except {A} (body : M A) (handler : exn -> M A) : M A :=
  match body with
  | (Returns a, t) => (Returns a, t)
  | (Raises e, t) => let (r, t') := handler e in (r, t ++ t')
  end.
End Monad.

Arguments ret {event A} a.
Arguments raise {event A} e.
Arguments emit {event} ev.
Arguments lift {event A} c.

(** Pure fallible code (no events) uses [completion] directly. *)
Definition cbind {A B} (c : completion A) (k : A -> completion B) : completion B :=
  match c with
  | Returns a => k a
  | Raises e => Raises e
  end.

End Py.
Import Py.

Declare Scope py_scope.
Delimit Scope py_scope with py.
Notation "x <- m ;; k" := (bind m (fun x => k))
  (at level 61, m at next level, right associativity) : py_scope.
Notation "m ;;; k" := (bind m (fun _ => k))
  (at level 61, right associativity) : py_scope.
Notation "x <~ c ;; k" := (cbind c (fun x => k))
  (at level 61, c at next level, right associativity) : py_scope.
Local Open Scope py_scope.

(* ================================================================== *)
(** ** Bytes and text                                                  *)
(* ================================================================== *)

Module Text.

Definition TAB : ascii := ascii_of_nat 9.
Definition LF : ascii := ascii_of_nat 10.
Definition CR : ascii := ascii_of_nat 13.
Definition SPACE : ascii := ascii_of_nat 32.
Definition QUOTE : ascii := ascii_of_nat 34.
Definition HASH : ascii := ascii_of_nat 35.

Definition snoc (s : string) (c : ascii) : string :=
  String.append s (String c "").

(** [s.startswith(p)] *)
Definition startswith (p s : string) : bool := String.prefix p s.

(** [p in s] / [re.search(p, s)] for a pattern without metacharacters. *)
Fixpoint contains (p s : string) : bool :=
  startswith p s ||
  match s with
  | EmptyString => false
  | String _ s' => contains p s'
  end.

(** [str.lower] on the ASCII range.  Bytes of multi-byte characters are
    left alone; the two non-ASCII characters whose lower case contains an
    ASCII letter yield [k] and [i], which occur in neither group word. *)
Definition lower_char (c : ascii) : ascii :=
  let n := nat_of_ascii c in
  if (65 <=? n) && (n <=? 90) then ascii_of_nat (n + 32) else c.

Fixpoint lower (s : string) : string :=
  match s with
  | EmptyString => EmptyString
  | String c s' => String (lower_char c) (lower s')
  end.

(** [b'...'.startswith(b'\x1f\x8b')] *)
Definition starts_with_magic (payload : list byte) : bool :=
  match payload with
  | x1f :: x8b :: _ => true
  | _ => false
  end.

(** Strict UTF-8 well-formedness (the codec's default error mode). *)
Definition is_cont (n : nat) : bool := (128 <=? n) && (n <=? 191).

Definition second_ok (lead n1 : nat) : bool :=
  if lead =? 224 then (160 <=? n1) && (n1 <=? 191)
  else if lead =? 237 then (128 <=? n1) && (n1 <=? 159)
  else if lead =? 240 then (144 <=? n1) && (n1 <=? 191)
  else if lead =? 244 then (128 <=? n1) && (n1 <=? 143)
  else is_cont n1.

Fixpoint utf8_valid (bs : list byte) : bool :=
  match bs with
  | [] => true
  | b0 :: r0 =>
    let n0 := Byte.to_nat b0 in
    if n0 <? 128 then utf8_valid r0
    else
      match r0 with
      | [] => false
      | b1 :: r1 =>
        let n1 := Byte.to_nat b1 in
        if (194 <=? n0) && (n0 <=? 223) then is_cont n1 && utf8_valid r1
        else
          match r1 with
          | [] => false
          | b2 :: r2 =>
            let n2 := Byte.to_nat b2 in
            if (224 <=? n0) && (n0 <=? 239)
            then second_ok n0 n1 && is_cont n2 && utf8_valid r2
            else
              match r2 with
              | [] => false
              | b3 :: r3 =>
                let n3 := Byte.to_nat b3 in
                if (240 <=? n0) && (n0 <=? 244)
                then second_ok n0 n1 && is_cont n2 && is_cont n3
                     && utf8_valid r3
                else false
              end
          end
      end
  end.

Definition decode_utf8 (bs : list byte) : completion string :=
  if utf8_valid bs then Returns (string_of_list_byte bs)
  else Raises UnicodeDecodeError.

(** Assembling test tables: fields joined by tabs, lines ended by LF. *)
Definition tsv (fields : list string) : string :=
  String.concat (String TAB "") fields.

Fixpoint unlines (ls : list string) : string :=
  match ls with
  | [] => ""
  | l :: ls' => String.append l (String LF (unlines ls'))
  end.

End Text.
Import Text.

(* ================================================================== *)
(** ** The table reader: [pd.read_csv(f, sep='\t', comment='#')]       *)
(* ================================================================== *)

Module Csv.

(** The reader is the library's C tokenizer under the options the script
    passes (tab delimiter, [#] comment character) and the defaults for the
    rest: double-quote quoting with doubled quotes, no escape character,
    blank lines skipped, LF / CR / CRLF line ends, the first parsed line
    is the header, over-long lines are an error.  State names are the
    tokenizer's own. *)
Inductive pstate : Type :=
| START_RECORD | START_FIELD | IN_FIELD
| IN_QUOTED_FIELD | QUOTE_IN_QUOTED_FIELD
| EAT_CRNL | EAT_CRNL_NOP
| EAT_COMMENT | EAT_LINE_COMMENT
| WHITESPACE_LINE.

Record tokenizer : Type := mkTok {
  state : pstate;
  word : string;                 (* characters of the field being read *)
  fields : list string;          (* finished fields of the current line *)
  lines : list (list string);    (* finished lines *)
  blanks : string                (* leading spaces of a so-far-blank line *)
}.

Definition init : tokenizer := mkTok START_RECORD "" [] [] "".

Definition set_state (s : pstate) (p : tokenizer) : tokenizer :=
  mkTok s (word p) (fields p) (lines p) (blanks p).

Definition push_char (c : ascii) (p : tokenizer) : tokenizer :=
  mkTok (state p) (snoc (word p) c) (fields p) (lines p) (blanks p).

Definition end_field (p : tokenizer) : tokenizer :=
  mkTok (state p) "" (fields p ++ [word p]) (lines p) (blanks p).

Definition pad_to (n : nat) (row : list string) : list string :=
  row ++ repeat "" (n - List.length row).

(** One finished line against the lines before it.  The header (line 0)
    and the first data line are taken as they are, except that a short
    first data line is padded to the header's width; from the second data
    line on a line longer than its predecessor is an error and a shorter
    one is padded with empty fields. *)
Definition close_line (done : list (list string)) (row : list string)
  : completion (list (list string)) :=
  let nl := List.length done in
  let ex := List.length (last done []) in
  if (2 <=? nl) && (ex <? List.length row)
  then Raises (ParserError "Expected fewer fields in line")
  else Returns (done ++ [if 1 <=? nl then pad_to ex row else row]).

Definition end_line (p : tokenizer) : completion tokenizer :=
  ls <~ close_line (lines p) (fields p);;
  Returns (mkTok START_RECORD "" [] ls "").

Definition in_field (c : ascii) (p : tokenizer) : completion tokenizer :=
  if Ascii.eqb c LF then end_line (end_field p)
  else if Ascii.eqb c CR then Returns (set_state EAT_CRNL (end_field p))
  else if Ascii.eqb c TAB then Returns (set_state START_FIELD (end_field p))
  else if Ascii.eqb c HASH then Returns (set_state EAT_COMMENT (end_field p))
  else Returns (set_state IN_FIELD (push_char c p)).

Definition start_field (c : ascii) (p : tokenizer) : completion tokenizer :=
  if Ascii.eqb c QUOTE then Returns (set_state IN_QUOTED_FIELD p)
  else in_field c p.

Definition start_record (c : ascii) (p : tokenizer) : completion tokenizer :=
  if Ascii.eqb c LF then Returns (set_state START_RECORD p)
  else if Ascii.eqb c CR then Returns (set_state EAT_CRNL_NOP p)
  else if Ascii.eqb c HASH then Returns (set_state EAT_LINE_COMMENT p)
  else if Ascii.eqb c SPACE
  then Returns (mkTok WHITESPACE_LINE (word p) (fields p) (lines p)
                      (String c ""))
  else start_field c p.

(** A line that began with spaces and turns out not to be blank is read
    again from its start: the spaces become the beginning of its first
    field. *)
Definition whitespace_line (c : ascii) (p : tokenizer) : completion tokenizer :=
  if Ascii.eqb c LF
  then Returns (mkTok START_RECORD (word p) (fields p) (lines p) "")
  else if Ascii.eqb c CR
  then Returns (mkTok EAT_CRNL_NOP (word p) (fields p) (lines p) "")
  else if Ascii.eqb c SPACE
  then Returns (mkTok WHITESPACE_LINE (word p) (fields p) (lines p)
                      (snoc (blanks p) c))
  else in_field c (mkTok IN_FIELD (blanks p) (fields p) (lines p) "").

Definition step (c : ascii) (p : tokenizer) : completion tokenizer :=
  match state p with
  | START_RECORD => start_record c p
  | START_FIELD => start_field c p
  | IN_FIELD => in_field c p
  | IN_QUOTED_FIELD =>
      if Ascii.eqb c QUOTE then Returns (set_state QUOTE_IN_QUOTED_FIELD p)
      else Returns (push_char c p)
  | QUOTE_IN_QUOTED_FIELD =>
      (* after a closing quote only a quote, the delimiter and the line
         ends are special; any other character, [#] included, goes on
         with the field *)
      if Ascii.eqb c QUOTE
      then Returns (set_state IN_QUOTED_FIELD (push_char c p))
      else if Ascii.eqb c TAB
      then Returns (set_state START_FIELD (end_field p))
      else if Ascii.eqb c LF then end_line (end_field p)
      else if Ascii.eqb c CR then Returns (set_state EAT_CRNL (end_field p))
      else Returns (set_state IN_FIELD (push_char c p))
  | EAT_CRNL =>
      if Ascii.eqb c LF then end_line p
      else if Ascii.eqb c TAB
      then p' <~ end_line p;; Returns (set_state START_FIELD (end_field p'))
      else p' <~ end_line p;; start_record c p'
  | EAT_CRNL_NOP =>
      if Ascii.eqb c LF || Ascii.eqb c TAB
      then Returns (set_state START_RECORD p)
      else start_record c (set_state START_RECORD p)
  | EAT_COMMENT =>
      if Ascii.eqb c LF then end_line p
      else if Ascii.eqb c CR then Returns (set_state EAT_CRNL p)
      else Returns p
  | EAT_LINE_COMMENT =>
      if Ascii.eqb c LF then Returns (set_state START_RECORD p)
      else if Ascii.eqb c CR then Returns (set_state EAT_CRNL_NOP p)
      else Returns p
  | WHITESPACE_LINE => whitespace_line c p
  end.

Fixpoint feed (s : string) (p : tokenizer) : completion tokenizer :=
  match s with
  | EmptyString => Returns p
  | String c s' => p' <~ step c p;; feed s' p'
  end.

Definition handle_eof (p : tokenizer) : completion tokenizer :=
  match state p with
  | START_RECORD | WHITESPACE_LINE | EAT_CRNL_NOP | EAT_LINE_COMMENT =>
      Returns p
  | IN_QUOTED_FIELD => Raises (ParserError "EOF inside string")
  | IN_FIELD | START_FIELD | QUOTE_IN_QUOTED_FIELD => end_line (end_field p)
  | EAT_CRNL | EAT_COMMENT => end_line p
  end.

(** A leading byte-order mark is not part of the first field. *)
Definition strip_bom (s : string) : string :=
  match s with
  | String a (String b (String c rest)) =>
      if (nat_of_ascii a =? 239) && (nat_of_ascii b =? 187)
         && (nat_of_ascii c =? 191)
      then rest else s
  | _ => s
  end.

Definition tokenize (text : string) : completion (list (list string)) :=
  p <~ feed (strip_bom text) init;;
  p' <~ handle_eof p;;
  Returns (lines p').

(** Row labels: positions [0, 1, ...] by default; when the data lines are
    wider than the header the surplus leading fields label the row.  A
    single column of such labels that are all whole numbers written in
    digits is read as those numbers, which then meet the positions of
    other tables; any other label is kept as the text of its fields.  The
    library reads signed and fractional labels as numbers too, which is
    not followed here, so that what is stated about the meeting of labels
    of different tables is stated for whole numbers. *)
Inductive label : Type :=
| Pos (i : nat)
| Key (k : list string).

Definition is_digit (c : ascii) : bool :=
  let n := nat_of_ascii c in (48 <=? n) && (n <=? 57).

Fixpoint digits_value (acc : nat) (s : string) : option nat :=
  match s with
  | EmptyString => Some acc
  | String c s' =>
    if is_digit c then digits_value (10 * acc + (nat_of_ascii c - 48)) s'
    else None
  end.

Definition whole_number (s : string) : option nat :=
  match s with
  | EmptyString => None
  | _ => digits_value 0 s
  end.

Fixpoint whole_labels (cells : list string) : option (list label) :=
  match cells with
  | [] => Some []
  | c :: cells' =>
    match whole_number c, whole_labels cells' with
    | Some n, Some ls => Some (Pos n :: ls)
    | _, _ => None
    end
  end.

(** A frame is held by column, as the library does.  Cells keep the text of
    their field: the number, NaN or string the library reads from a field
    is a function of that text (see [Frames.Lexicon]).  Column names are
    the header fields; the script only looks up names without a numeric
    suffix, for which the first header field of that name is the column
    the library finds. *)
Record DataFrame : Type := mkDF {
  columns : list string;
  index : list label;
  data : list (list string)
}.

Definition leading_cols (header : list string) (body : list (list string)) : nat :=
  match body with
  | [] => 0
  | r :: _ => List.length r - List.length header
  end.

Definition build_frame (header : list string) (body : list (list string))
  : DataFrame :=
  let lead := leading_cols header body in
  mkDF header
       (if lead =? 0 then map Pos (seq 0 (List.length body))
        else
          match (if lead =? 1 then whole_labels (map (hd "") body)
                 else None) with
          | Some ls => ls
          | None => map (fun r => Key (firstn lead r)) body
          end)
       (map (fun j => map (fun r => nth (lead + j) r "") body)
            (seq 0 (List.length header))).

Definition read_csv (payload : list byte) : completion DataFrame :=
  text <~ decode_utf8 payload;;
  rows <~ tokenize text;;
  match rows with
  | [] => Raises EmptyDataError
  | header :: body => Returns (build_frame header body)
  end.

End Csv.
Import Csv.

(* ================================================================== *)
(** ** Data-frame operations used by the script                        *)
(* ================================================================== *)

Module Frames.

(** How the library reads the text of a field: as a missing value, as a
    number, as a boolean, or else as a string.  The three recognisers are
    the library's, not the script's, so the model takes them as given.
    So is the answer of a [.str] test on a missing cell, which differs
    between versions of the library: [False] where strings are read into
    a type of their own, NaN where they are read as objects.  No spelling
    of a missing value begins with [N_]. *)
Record Lexicon : Type := mkLex {
  is_na : string -> bool;
  is_number : string -> bool;
  is_bool : string -> bool;
  na_is_false : bool;
  na_spelling : forall v, is_na v = true -> startswith "N_" v = false
}.

(** The type a column gets: numeric when every present field is a number,
    boolean when every present field is a boolean, otherwise strings
    (with NaN where the field is missing).  A column of no rows is an
    empty string column. *)
Inductive dtype : Type := DtObject | DtNumber | DtBoolean.

Definition infer_dtype (L : Lexicon) (vals : list string) : dtype :=
  match vals with
  | [] => DtObject
  | _ =>
    let present := filter (fun v => negb (is_na L v)) vals in
    if forallb (is_number L) present then DtNumber
    else if forallb (is_bool L) present then DtBoolean
    else DtObject
  end.

Record Series : Type := mkSeries {
  s_name : string;
  s_index : list label;
  s_values : list string
}.

Fixpoint find_column (col : string) (names : list string) : option nat :=
  match names with
  | [] => None
  | n :: ns =>
    if String.eqb n col then Some 0
    else option_map S (find_column col ns)
  end.

(** [col in df.columns] *)
Definition has_column (col : string) (df : DataFrame) : bool :=
  match find_column col (columns df) with
  | Some _ => true
  | None => false
  end.

(** [df[col]] *)
Definition getitem (df : DataFrame) (col : string) : completion Series :=
  match find_column col (columns df) with
  | Some j => Returns (mkSeries col (index df) (nth j (data df) []))
  | None => Raises (KeyError col)
  end.

(** [s.str.startswith(prefix)]: available on string columns only; a
    missing cell gives [False] or NaN, as the library version has it. *)
Definition str_startswith (L : Lexicon) (prefix : string) (s : Series)
  : completion (list (option bool)) :=
  match infer_dtype L (s_values s) with
  | DtObject =>
      Returns (map (fun v => if is_na L v
                             then (if na_is_false L then Some false else None)
                             else Some (startswith prefix v))
                   (s_values s))
  | _ => Raises (AttributeError "Can only use .str accessor with string values")
  end.

(** [~mask]: defined on booleans, a type error on a NaN entry. *)
Fixpoint invert (mask : list (option bool)) : completion (list bool) :=
  match mask with
  | [] => Returns []
  | Some b :: m => rest <~ invert m;; Returns (negb b :: rest)
  | None :: _ => Raises (TypeError "bad operand type for unary ~: 'float'")
  end.

(** Boolean indexing keeps the entries whose mask bit is set, in order. *)
Fixpoint select {A} (mask : list bool) (l : list A) : list A :=
  match mask, l with
  | b :: m, x :: l' => if b then x :: select m l' else select m l'
  | _, _ => []
  end.

(** [df[mask]] *)
Definition mask_rows (mask : list bool) (df : DataFrame) : DataFrame :=
  mkDF (columns df) (select mask (index df)) (map (select mask) (data df)).

(** [s.tolist()] and [s.rename(name)] *)
Definition tolist (s : Series) : list string := s_values s.
Definition rename (name : string) (s : Series) : Series :=
  mkSeries name (s_index s) (s_values s).

(** *** Matrices: [pd.concat(series, axis=1)] and [DataFrame.insert] *)

(** A matrix cell is the text of a field, or nothing where alignment or a
    [None] value left a hole. *)
Record Frame : Type := mkFrame {
  fr_index : list label;
  fr_columns : list (string * list (option string))
}.

Definition label_eqb (a b : label) : bool :=
  match a, b with
  | Pos i, Pos j => i =? j
  | Key k, Key k' => if list_eq_dec string_dec k k' then true else false
  | _, _ => false
  end.

Fixpoint index_eqb (a b : list label) : bool :=
  match a, b with
  | [], [] => true
  | x :: a', y :: b' => label_eqb x y && index_eqb a' b'
  | _, _ => false
  end.

Fixpoint has_duplicates (ix : list label) : bool :=
  match ix with
  | [] => false
  | x :: ix' => existsb (label_eqb x) ix' || has_duplicates ix'
  end.

(** Union of row labels in order of first appearance. *)
Fixpoint union_index (acc : list label) (ix : list label) : list label :=
  match ix with
  | [] => acc
  | x :: ix' =>
    if existsb (label_eqb x) acc then union_index acc ix'
    else union_index (acc ++ [x]) ix'
  end.

Fixpoint lookup_label (l : label) (ix : list label) (vals : list string)
  : option string :=
  match ix, vals with
  | x :: ix', v :: vals' =>
    if label_eqb l x then Some v else lookup_label l ix' vals'
  | _, _ => None
  end.

(** [pd.concat(objs, axis=1)].  [None] entries are dropped; if nothing is
    left the call fails.  Series with one and the same index are laid side
    by side; otherwise they are aligned on the union of their indexes,
    which needs every index to be duplicate-free. *)
Definition concat (objs : list (option Series)) : completion Frame :=
  let ss := flat_map (fun o => match o with Some s => [s] | None => [] end) objs in
  match ss with
  | [] => Raises (ValueError "All objects passed were None")
  | s0 :: _ =>
    if forallb (fun s => index_eqb (s_index s0) (s_index s)) ss
    then Returns (mkFrame (s_index s0)
                   (map (fun s => (s_name s, map (@Some string) (s_values s))) ss))
    else if existsb (fun s => has_duplicates (s_index s)) ss
    then Raises (ValueError "cannot reindex on an axis with duplicate labels")
    else
      let ix := fold_left union_index (map s_index ss) [] in
      Returns (mkFrame ix
                 (map (fun s => (s_name s,
                                 map (fun l => lookup_label l (s_index s) (s_values s)) ix))
                      ss))
  end.

(** [m.insert(0, name, value)]: the name must be new and a list value must
    have one entry per row; [None] fills the column with holes. *)
Definition insert0 (name : string) (value : option (list string)) (m : Frame)
  : completion Frame :=
  if existsb (fun c => String.eqb (fst c) name) (fr_columns m)
  then Raises (ValueError "cannot insert column, already exists")
  else
    match value with
    | Some vs =>
      if List.length vs =? List.length (fr_index m)
      then Returns (mkFrame (fr_index m) ((name, map (@Some string) vs) :: fr_columns m))
      else Raises (ValueError "Length of values does not match length of index")
    | None =>
      Returns (mkFrame (fr_index m)
                 ((name, repeat None (List.length (fr_index m))) :: fr_columns m))
    end.

End Frames.
Import Frames.
(* ================================================================== *)
(** ** [process_file] (lines 15-46)                                    *)
(* ================================================================== *)

Module Sample.

Inductive event : Type :=
| Get (url : string)                       (* requests.get, line 17 *)
| Post (url primary_site : string)         (* requests.post, line 70 *)
| Print (d : diag)
| MakeDirs (path : string)                 (* os.makedirs, line 101 *)
| ToCsv (path : string) (m : Frame).       (* to_csv, lines 162-164 *)

(** What lies outside the script: the data endpoint ([requests.get]
    followed by [raise_for_status] and [.content]), the gzip reader, and
    the library's reading of field text. *)
Record Env : Type := mkEnv {
  fetch : string -> completion (list byte);
  gunzip : list byte -> completion (list byte);
  lexicon : Lexicon
}.

(** The 5-tuple returned at lines 34, 43 and 46. *)
Record Result : Type := mkResult {
  r_tpm : option Series;
  r_fpkm : option Series;
  r_fpkm_uq : option Series;
  r_gene_ids : option (list string);
  r_gene_names : option (list string)
}.

Definition none_result : Result := mkResult None None None None None.

Definition required_columns : list string :=
  ["gene_id"; "gene_name"; "tpm_unstranded"; "fpkm_unstranded";
   "fpkm_uq_unstranded"].

(** Lines 20-27: sniff the first four bytes, then read the table through
    the gzip reader or directly. *)
Definition frame_decode (env : Env) (content : list byte)
  : completion (list byte) :=
  let is_gzipped := starts_with_magic (firstn 4 content) in
  if is_gzipped then gunzip env content else Returns content.

(** Lines 29-43, from the table on. *)
Definition extract (L : Lexicon) (file_id sample_id file_name : string)
  (df : DataFrame) : M event Result :=
  gene_col <- lift (getitem df "gene_id");;
  starts <- lift (str_startswith L "N_" gene_col);;
  keep <- lift (invert starts);;
  let df := mask_rows keep df in
  if negb (forallb (fun col => has_column col df) required_columns)
  then
    emit (Print (SkippingMissingColumns file_id));;;
    ret none_result
  else
    gene_ids <- lift (s <~ getitem df "gene_id";; Returns (tolist s));;
    gene_names <- lift (s <~ getitem df "gene_name";; Returns (tolist s));;
    tpm_series <- lift (s <~ getitem df "tpm_unstranded";;
                        Returns (rename sample_id s));;
    fpkm_series <- lift (s <~ getitem df "fpkm_unstranded";;
                         Returns (rename sample_id s));;
    fpkm_uq_series <- lift (s <~ getitem df "fpkm_uq_unstranded";;
                            Returns (rename sample_id s));;
    emit (Print (ProcessedFile file_name sample_id));;;
    ret (mkResult (Some tpm_series) (Some fpkm_series) (Some fpkm_uq_series)
                  (Some gene_ids) (Some gene_names)).

(** Lines 20-43: what becomes of the downloaded bytes. *)
Definition parse_payload (env : Env)
  (file_id sample_id file_name : string) (content : list byte)
  : M event Result :=
  df <- lift (raw <~ frame_decode env content;; read_csv raw);;
  extract (lexicon env) file_id sample_id file_name df.

(** Line 17: the request address [f"{data_endpoint}/{file_id}"]. *)
Definition data_url (data_endpoint file_id : string) : string :=
  String.append data_endpoint (String.append "/" file_id).

(** Lines 17-43: the body of the [try]. *)
Definition process_file_body (env : Env)
  (file_id sample_id file_name data_endpoint : string) : M event Result :=
  let url := data_url data_endpoint file_id in
  emit (Get url);;;
  content <- lift (fetch env url);;
  parse_payload env file_id sample_id file_name content.

(** Lines 44-46: the handler. *)
Definition on_exception (file_id : string) (e : exn) : M event Result :=
  emit (Print (ErrorProcessing file_id e));;;
  ret none_result.

Definition process_file (env : Env)
  (file_id sample_id file_name data_endpoint : string) : M event Result :=
  try_except
    (process_file_body env file_id sample_id file_name data_endpoint)
    (on_exception file_id).

(** What the script relies on from the gzip format: a compressed stream
    begins with the two identification bytes, and reading it back gives
    the original bytes. *)
Record GzipCodec (gzip : list byte -> list byte)
                 (gunzip : list byte -> completion (list byte)) : Prop := {
  gzip_magic : forall p, starts_with_magic (gzip p) = true;
  gunzip_gzip : forall p, gunzip (gzip p) = Returns p
}.

End Sample.
Import Sample.
(* ================================================================== *)
(** ** The worker pool and [as_completed] (lines 120-129)              *)
(* ================================================================== *)

Module Executor.

Section Executor.
Variables T R E : Type.

(** The callable a future carries ([executor.submit(fn)]): the events it
    produces, in order, and the way it completes. *)
Variable call : T -> M E R.
Variable max_workers : nat.

(** A call in the hands of a worker thread, with what it has still to
    do. *)
Record worker : Type := mkWorker {
  job : T;
  todo : list E
}.

(** All calls are submitted before the first result is asked for (the
    dictionary comprehension of lines 121-126).  Workers take them from the
    queue in submission order, at most [max_workers] run at a time, and
    the events of running calls interleave.  A call that has finished
    leaves its outcome, a value or an exception, in its future. *)
Record pool : Type := mkPool {
  queued : list T;
  running : list worker;
  finished : list (T * completion R);
  log : list E
}.

(** The scheduler's choices: a free worker takes the next queued call, or
    the [i]-th running call does its next event, finishing when none is
    left.  A choice that cannot be made changes nothing. *)
Inductive move : Type :=
| StartNext
| Advance (i : nat).

Definition submit_all (tasks : list T) : pool := mkPool tasks [] [] [].

Definition start_next (p : pool) : pool :=
  match queued p with
  | t :: q =>
    if List.length (running p) <? max_workers
    then mkPool q (running p ++ [mkWorker t (snd (call t))]) (finished p) (log p)
    else p
  | [] => p
  end.

Definition settle (t : T) : T * completion R := (t, fst (call t)).

Fixpoint advance (i : nat) (ws : list worker)
  : list worker * list E * list (T * completion R) :=
  match ws with
  | [] => ([], [], [])
  | w :: ws' =>
    match i with
    | 0 =>
      match todo w with
      | ev :: rest => (mkWorker (job w) rest :: ws', [ev], [])
      | [] => (ws', [], [settle (job w)])
      end
    | S i' =>
      let '(ws'', evs, dn) := advance i' ws' in (w :: ws'', evs, dn)
    end
  end.

Definition step (m : move) (p : pool) : pool :=
  match m with
  | StartNext => start_next p
  | Advance i =>
    let '(ws, evs, dn) := advance i (running p) in
    mkPool (queued p) ws (finished p ++ dn) (log p ++ evs)
  end.

Definition run_moves (moves : list move) (p : pool) : pool :=
  fold_left (fun p m => step m p) moves p.

(** Leaving the [with] block waits for every call: what is running runs
    to its end, then what is queued. *)
Definition drain (p : pool) : pool :=
  mkPool [] []
    (finished p ++ map (fun w => settle (job w)) (running p)
                ++ map settle (queued p))
    (log p ++ flat_map todo (running p)
           ++ flat_map (fun t => snd (call t)) (queued p)).

Definition run (moves : list move) (tasks : list T) : pool :=
  drain (run_moves moves (submit_all tasks)).

(** The calls a pool holds, and its events, past and still to come. *)
Definition jobs (p : pool) : list T :=
  map fst (finished p) ++ map job (running p) ++ queued p.

Definition agenda (p : pool) : list E :=
  log p ++ flat_map todo (running p)
        ++ flat_map (fun t => snd (call t)) (queued p).

End Executor.

(** [as_completed(fs)] hands over every future once, those that are done
    in an order of its own: [picks] names, turn by turn, which of the
    futures not yet handed over comes next. *)
Fixpoint yield_from {A} (n : nat) (picks : list nat) (fs : list A) : list A :=
  match n with
  | 0 => []
  | S n' =>
    match fs with
    | [] => []
    | f0 :: _ =>
      let k := hd 0 picks mod List.length fs in
      nth k fs f0 :: yield_from n' (tl picks) (firstn k fs ++ skipn (S k) fs)
    end
  end.

Definition as_completed {A} (picks : list nat) (fs : list A) : list A :=
  yield_from (List.length fs) picks fs.

End Executor.

(* ================================================================== *)
(** ** [generate_expression_csvs] (lines 97-167)                       *)
(* ================================================================== *)

Module Cohort.

Definition DATA_ENDPOINT : string := "https://api.gdc.cancer.gov/data".

(** One row of the metadata table (lines 87-93). *)
Record SampleRecord : Type := mkSample {
  sample_barcode : string;
  sample_type : string;
  tcga_code : string;
  file_id : string;
  file_name : string
}.

(** Lines 108-109: [sample_type.str.lower().str.contains(word)]. *)
Definition in_group (word : string) (row : SampleRecord) : bool :=
  contains word (lower (sample_type row)).

Definition tumor_sample_df (sample_df : list SampleRecord) : list SampleRecord :=
  filter (in_group "tumor") sample_df.
Definition normal_sample_df (sample_df : list SampleRecord) : list SampleRecord :=
  filter (in_group "normal") sample_df.

(** Lines 122-124: the call each future carries. *)
Definition submit (env : Env) (row : SampleRecord) : M event Result :=
  process_file env (file_id row) (sample_barcode row) (file_name row)
               DATA_ENDPOINT.

(** Lines 117-118: the accumulators of one group. *)
Record acc : Type := mkAcc {
  tpm_data : list Series;
  fpkm_data : list (option Series);
  fpkm_uq_data : list (option Series);
  new_gene_ids : option (list string);
  new_gene_names : option (list string)
}.

Definition fresh : acc := mkAcc [] [] [] None None.

(** Lines 129-136: one turn of the collecting loop. *)
Definition collect_step (a : acc) (r : Result) : acc :=
  match r_tpm r with
  | Some tpm_series =>
    let first_axis :=
      match new_gene_ids a, r_gene_ids r with
      | None, Some _ => true
      | _, _ => false
      end in
    mkAcc (tpm_data a ++ [tpm_series])
          (fpkm_data a ++ [r_fpkm r])
          (fpkm_uq_data a ++ [r_fpkm_uq r])
          (if first_axis then r_gene_ids r else new_gene_ids a)
          (if first_axis then r_gene_names r else new_gene_names a)
  | None => a
  end.

Definition aggregate (results : list Result) : acc :=
  fold_left collect_step results fresh.

(** Lines 138-154.  [None] is the [continue] of line 140. *)
Definition build_matrices (a : acc)
  : completion (option (Frame * Frame * Frame)) :=
  match tpm_data a with
  | [] => Returns None
  | _ =>
    tpm_matrix <~ concat (map (@Some Series) (tpm_data a));;
    fpkm_matrix <~ concat (fpkm_data a);;
    fpkm_uq_matrix <~ concat (fpkm_uq_data a);;
    tpm_matrix <~ insert0 "gene_name" (new_gene_names a) tpm_matrix;;
    tpm_matrix <~ insert0 "gene_id" (new_gene_ids a) tpm_matrix;;
    fpkm_matrix <~ insert0 "gene_name" (new_gene_names a) fpkm_matrix;;
    fpkm_matrix <~ insert0 "gene_id" (new_gene_ids a) fpkm_matrix;;
    fpkm_uq_matrix <~ insert0 "gene_name" (new_gene_names a) fpkm_uq_matrix;;
    fpkm_uq_matrix <~ insert0 "gene_id" (new_gene_ids a) fpkm_uq_matrix;;
    Returns (Some (tpm_matrix, fpkm_matrix, fpkm_uq_matrix))
  end.

(** *** The run as the collecting loop sees it

    Lines 128-136 over the rows in the order their futures are handed
    over, each call told in one piece at the turn that takes its result; a
    future's [result()] re-raises whatever its call raised.  This view
    keeps the results, the accumulators and the events of a group's run
    and leaves out how the calls interleave; the run with its worker
    threads follows further down, and the two are related in the
    properties. *)
Fixpoint collect (env : Env) (done : list SampleRecord) (a : acc)
  : M event acc :=
  match done with
  | [] => ret a
  | row :: rest =>
    r <- submit env row;;
    collect env rest (collect_step a r)
  end.

Definition output_dir (cancer_site : string) : string :=
  String.append "tcga_csvs/" cancer_site.

Definition csv_path (dir label measure : string) : string :=
  String.append dir
    (String.append "/" (String.append label (String.append "_" (String.append measure ".csv")))).

(** The order in which a group's futures are handed over is the
    scheduler's choice: some rearrangement of the submitted rows. *)
Definition schedule : Type := list SampleRecord -> list SampleRecord.

(** Lines 112-167: the body of the loop over the two groups. *)
Definition run_group (env : Env) (order : schedule) (cancer_site label : string)
  (group_df : list SampleRecord) : M event unit :=
  match group_df with
  | [] => emit (Print (NoSamplesFound label))
  | _ =>
    emit (Print (Downloading label));;;
    a <- collect env (order group_df) fresh;;
    built <- lift (build_matrices a);;
    match built with
    | None => emit (Print (NoValidData label))
    | Some (tpm_matrix, fpkm_matrix, fpkm_uq_matrix) =>
      let dir := output_dir cancer_site in
      emit (ToCsv (csv_path dir label "tpm") tpm_matrix);;;
      emit (ToCsv (csv_path dir label "fpkm") fpkm_matrix);;;
      emit (ToCsv (csv_path dir label "fpkm_uq") fpkm_uq_matrix);;;
      emit (Print (SavedCsvs label))
    end
  end.

(** Lines 99-167 for one site, given the metadata table the resolver
    returned for it. *)
Definition run_site (env : Env) (order : schedule) (cancer_site : string)
  (sample_df : list SampleRecord) : M event unit :=
  emit (MakeDirs (output_dir cancer_site));;;
  emit (Print (ProcessingSite cancer_site));;;
  match sample_df with
  | [] => emit (Print (NoMetadata cancer_site))
  | _ =>
    let tumor := tumor_sample_df sample_df in
    let normal := normal_sample_df sample_df in
    emit (Print (Found (List.length sample_df)));;;
    run_group env order cancer_site "tumor" tumor;;;
    run_group env order cancer_site "normal" normal
  end.

(** *** The run with its worker threads *)

Definition MAX_WORKERS : nat := 25.

(** What the script leaves to the thread scheduler in one group's run: how
    the workers interleave, and the order in which [as_completed] hands
    the futures over. *)
Record timing : Type := mkTiming {
  moves : list Executor.move;
  picks : list nat
}.

(** [ThreadPoolExecutor(max_workers=n)] *)
Definition thread_pool_executor (max_workers : nat) : completion unit :=
  if max_workers =? 0
  then Raises (ValueError "max_workers must be greater than 0")
  else Returns tt.

(** Lines 128-136: the loop over the futures [as_completed] hands over.
    A future is held with the row it was submitted for; [future.result()]
    gives the call's value or raises what the call raised. *)
Fixpoint collect_results (futures : list (SampleRecord * completion Result))
  (a : acc) : completion acc :=
  match futures with
  | [] => Returns a
  | (_, Returns r) :: rest => collect_results rest (collect_step a r)
  | (_, Raises e) :: _ => Raises e
  end.

(** Lines 120-136: the pool is created, every row's call is submitted,
    and the results are collected as they complete; the block is left
    when all calls are done. *)
Definition download_group (env : Env) (max_workers : nat) (tm : timing)
  (group_df : list SampleRecord) : M event acc :=
  lift (thread_pool_executor max_workers);;;
  let p := Executor.run (submit env) max_workers (moves tm) group_df in
  (collect_results (Executor.as_completed (picks tm) (Executor.finished p))
                   fresh,
   Executor.log p).

(** Lines 138-167. *)
Definition save_group (cancer_site label : string) (a : acc) : M event unit :=
  built <- lift (build_matrices a);;
  match built with
  | None => emit (Print (NoValidData label))
  | Some (tpm_matrix, fpkm_matrix, fpkm_uq_matrix) =>
    let dir := output_dir cancer_site in
    emit (ToCsv (csv_path dir label "tpm") tpm_matrix);;;
    emit (ToCsv (csv_path dir label "fpkm") fpkm_matrix);;;
    emit (ToCsv (csv_path dir label "fpkm_uq") fpkm_uq_matrix);;;
    emit (Print (SavedCsvs label))
  end.

(** Lines 112-167: the body of the loop over the two groups. *)
Definition process_group (env : Env) (max_workers : nat) (tm : timing)
  (cancer_site label : string) (group_df : list SampleRecord) : M event unit :=
  match group_df with
  | [] => emit (Print (NoSamplesFound label))
  | _ =>
    emit (Print (Downloading label));;;
    a <- download_group env max_workers tm group_df;;
    save_group cancer_site label a
  end.

(** Lines 104-167: a site, from its metadata table on.  [sched] gives the
    timing of each group's run. *)
Definition process_table (env : Env) (sched : string -> timing)
  (cancer_site : string) (sample_df : list SampleRecord) : M event unit :=
  match sample_df with
  | [] => emit (Print (NoMetadata cancer_site))
  | _ =>
    let tumor := tumor_sample_df sample_df in
    let normal := normal_sample_df sample_df in
    emit (Print (Found (List.length sample_df)));;;
    process_group env MAX_WORKERS (sched "tumor") cancer_site "tumor" tumor;;;
    process_group env MAX_WORKERS (sched "normal") cancer_site "normal" normal
  end.

End Cohort.
Import Cohort.
(* ================================================================== *)
(** ** [get_rna_seq_metadata] (lines 48-95) and the loop over the sites *)
(* ================================================================== *)

Module Metadata.

(** The body of the files endpoint's answer for the fields asked for at
    line 64.  A key is either absent ([None]) or holds a value of the
    kind the endpoint documents for it. *)
Record sample_json : Type := mkSampleJson {
  submitter_id : option string;
  sample_type_json : option string
}.

Record project_json : Type := mkProjectJson {
  project_id : option string
}.

Record case_json : Type := mkCaseJson {
  project : option project_json;
  samples : option (list sample_json)
}.

Record hit_json : Type := mkHitJson {
  hit_file_id : option string;
  hit_file_name : option string;
  cases : option (list case_json)
}.

Record data_json : Type := mkDataJson {
  hits : option (list hit_json)
}.

Record response_json : Type := mkResponseJson {
  resp_data : option data_json
}.

(** One dictionary of [sample_data] (lines 87-93).  The first two values
    passed the test of line 86; the others are whatever [.get] gave. *)
Record meta_row : Type := mkMetaRow {
  m_sample_barcode : string;
  m_sample_type : string;
  m_tcga_code : option string;
  m_file_id : option string;
  m_file_name : option string
}.

(** [d.get(key, default)] on an absent key. *)
Definition get_or {A} (default : A) (o : option A) : A :=
  match o with
  | Some a => a
  | None => default
  end.

(** Truth value of what [.get] returns for a string-valued key. *)
Definition truthy (o : option string) : bool :=
  match o with
  | Some s => negb (String.eqb s "")
  | None => false
  end.

(** Lines 84-93. *)
Definition rows_of_sample (file_id file_name project_id : option string)
  (sample : sample_json) : list meta_row :=
  let sample_id := submitter_id sample in
  let sample_type := sample_type_json sample in
  if truthy sample_id && truthy sample_type
  then [mkMetaRow (get_or "" sample_id) (get_or "" sample_type)
                  project_id file_id file_name]
  else [].

(** Lines 82-93. *)
Definition rows_of_case (file_id file_name : option string) (case : case_json)
  : list meta_row :=
  let project_id :=
    match project case with
    | Some p => project_id p
    | None => None                   (* {}.get("project_id") *)
    end in
  flat_map (rows_of_sample file_id file_name project_id)
           (get_or [] (samples case)).

(** Lines 79-93. *)
Definition rows_of_hit (hit : hit_json) : list meta_row :=
  flat_map (rows_of_case (hit_file_id hit) (hit_file_name hit))
           (get_or [] (cases hit)).

(** Lines 77-93. *)
Definition sample_data (hits : list hit_json) : list meta_row :=
  flat_map rows_of_hit hits.

Definition FILES_ENDPOINT : string := "https://api.gdc.cancer.gov/files".

(** What lies outside the script on this side: the files endpoint
    ([requests.post] followed by [raise_for_status] and [.json()], for the
    query of a primary site), and the text the table library gives for an
    absent value when a row is read back, which depends on the column the
    value stands in. *)
Record Files : Type := mkFiles {
  post_files : string -> completion response_json;
  missing : list (option string) -> string
}.

(** Lines 69-95.  Only a [RequestException] is handled; a missing ["data"]
    or ["hits"] key, like any other exception, leaves the function. *)
Definition get_rna_seq_metadata (files : Files) (primary_site : string)
  : M event (list meta_row) :=
  hits <-
    try_except
      (emit (Post FILES_ENDPOINT primary_site);;;
       response <- lift (post_files files primary_site);;
       d <- lift (match resp_data response with
                  | Some d => Returns d
                  | None => Raises (KeyError "data")
                  end);;
       lift (match hits d with
             | Some hs => Returns (Some hs)
             | None => Raises (KeyError "hits")
             end))
      (fun e =>
         match e with
         | RequestException _ =>
           emit (Print (ApiRequestFailed e));;; ret None  (* return pd.DataFrame() *)
         | _ => raise e
         end);;
  match hits with
  | Some hs => ret (sample_data hs)
  | None => ret []
  end.

(** A cell of the table as [generate_expression_csvs] reads it from a row
    (lines 123 and 108-109). *)
Definition cell (files : Files) (column : list (option string))
  (o : option string) : string :=
  match o with
  | Some s => s
  | None => missing files column
  end.

Definition as_samples (files : Files) (sample_df : list meta_row)
  : list SampleRecord :=
  map (fun row =>
         mkSample (m_sample_barcode row) (m_sample_type row)
                  (cell files (map m_tcga_code sample_df) (m_tcga_code row))
                  (cell files (map m_file_id sample_df) (m_file_id row))
                  (cell files (map m_file_name sample_df) (m_file_name row)))
      sample_df.

(** Lines 99-167: one turn of the loop over the sites. *)
Definition process_site (files : Files) (env : Env) (sched : string -> timing)
  (cancer_site : string) : M event unit :=
  emit (MakeDirs (output_dir cancer_site));;;
  emit (Print (ProcessingSite cancer_site));;;
  sample_df <- get_rna_seq_metadata files cancer_site;;
  process_table env sched cancer_site (as_samples files sample_df).

(** Line 98: the loop over the sites, [i] being the number of sites
    already done.  [sched] gives, for each site of the list and each
    group, the timing of that group's run. *)
Fixpoint sites_from (files : Files) (env : Env)
  (sched : nat -> string -> timing) (i : nat) (cancer_sites : list string)
  : M event unit :=
  match cancer_sites with
  | [] => ret tt
  | cancer_site :: rest =>
    process_site files env (sched i) cancer_site;;;
    sites_from files env sched (S i) rest
  end.

Definition generate_expression_csvs (files : Files) (env : Env)
  (sched : nat -> string -> timing) (cancer_sites : list string)
  : M event unit :=
  sites_from files env sched 0 cancer_sites.

End Metadata.

(* ================================================================== *)
(** ** Reference instances of the outside world                        *)
(* ================================================================== *)

Module Reference.

(** The library's default missing-value spellings. *)
Definition na_values : list string :=
  [""; "#N/A"; "#N/A N/A"; "#NA"; "-1.#IND"; "-1.#QNAN"; "-NaN"; "-nan";
   "1.#IND"; "1.#QNAN"; "<NA>"; "N/A"; "NA"; "NULL"; "NaN"; "None";
   "n/a"; "nan"; "null"].

Definition mem (s : string) (l : list string) : bool :=
  existsb (String.eqb s) l.

Definition is_digit (c : ascii) : bool :=
  let n := nat_of_ascii c in (48 <=? n) && (n <=? 57).

Fixpoint drop_digits (s : string) : string :=
  match s with
  | String c s' => if is_digit c then drop_digits s' else s
  | EmptyString => s
  end.

Definition drop_sign (s : string) : string :=
  match s with
  | String c s' =>
    if Ascii.eqb c "+"%char || Ascii.eqb c "-"%char then s' else s
  | EmptyString => s
  end.

Definition starts_digit (s : string) : bool :=
  match s with
  | String c _ => is_digit c
  | EmptyString => false
  end.

Definition is_space (c : ascii) : bool :=
  let n := nat_of_ascii c in (n =? 32) || ((9 <=? n) && (n <=? 13)).

Fixpoint drop_spaces (s : string) : string :=
  match s with
  | String c s' => if is_space c then drop_spaces s' else s
  | EmptyString => s
  end.

(** What follows an exponent, or the string itself when it does not begin
    with a complete one. *)
Definition drop_exponent (s : string) : string :=
  match s with
  | String e r =>
    if (Ascii.eqb e "e"%char || Ascii.eqb e "E"%char)
       && starts_digit (drop_sign r)
    then drop_digits (drop_sign r) else s
  | EmptyString => s
  end.

(** Decimal notation as the library's number conversion takes it: spaces
    around it are skipped; a sign; digits with an optional fraction, at
    least one digit in all; an optional exponent. *)
Definition decimal (s : string) : bool :=
  let s1 := drop_sign (drop_spaces s) in
  let s2 := drop_digits s1 in
  let frac :=
    match s2 with
    | String c r => if Ascii.eqb c "."%char then (starts_digit r, drop_digits r)
                    else (false, s2)
    | EmptyString => (false, s2)
    end in
  (starts_digit s1 || fst frac) &&
  String.eqb (drop_spaces (drop_exponent (snd frac))) "".

(** The spellings of infinity, compared without regard to case. *)
Definition infinity (s : string) : bool :=
  mem (lower s)
      ["inf"; "+inf"; "-inf"; "infinity"; "+infinity"; "-infinity"].

(** The library's defaults: the missing-value spellings above, decimal
    numbers and infinities, and the two truth values in any mix of upper
    and lower case; strings are read into a type of their own. *)
Definition pandas_lexicon : Lexicon :=
  mkLex (fun s => mem s na_values)
        (fun s => decimal s || infinity s)
        (fun s => mem (lower s) ["true"; "false"])
        true
        ltac:(intros v H; unfold mem, na_values in H; cbn [existsb] in H;
              repeat (apply orb_prop in H; destruct H as [H|H]);
              first [ discriminate H
                    | apply String.eqb_eq in H; subst v; reflexivity ]).

(** The same under the reading of string columns as objects. *)
Definition object_lexicon : Lexicon :=
  mkLex (is_na pandas_lexicon) (is_number pandas_lexicon)
        (is_bool pandas_lexicon) false (na_spelling pandas_lexicon).

(** The smallest codec with the two properties of [GzipCodec]: the
    identification bytes followed by the data.  It only serves to run the
    model; the theorems hold for every codec with those properties. *)
Definition frame_gzip (p : list byte) : list byte := x1f :: x8b :: p.

Definition frame_gunzip (p : list byte) : completion (list byte) :=
  match p with
  | x1f :: x8b :: rest => Returns rest
  | _ => Raises (BadGzipFile "Not a gzipped file")
  end.

(** An endpoint serving one payload under every identifier. *)
Definition serve (payload : list byte) : Env :=
  mkEnv (fun _ => Returns payload) frame_gunzip pandas_lexicon.

(** An endpoint serving a payload per file identifier. *)
Definition serve_files (files : list (string * list byte)) : Env :=
  mkEnv (fun url =>
           match find (fun f => String.eqb url (data_url DATA_ENDPOINT (fst f)))
                      files with
           | Some f => Returns (snd f)
           | None => Raises (RequestException "404 Client Error")
           end)
        frame_gunzip pandas_lexicon.

Definition table (rows : list (list string)) : list byte :=
  list_byte_of_string (unlines (map tsv rows)).

Definition header5 : list string :=
  ["gene_id"; "gene_name"; "tpm_unstranded"; "fpkm_unstranded";
   "fpkm_uq_unstranded"].

(** A two-row table: one gene and one summary counter. *)
Definition small_table : list byte :=
  table [header5;
         ["ENSG1"; "A"; "1.0"; "2.0"; "3.0"];
         ["N_ambiguous"; ""; "0"; "0"; "0"]].

(** The same table without its [gene_id] column, and without its
    [fpkm_uq_unstranded] column. *)
Definition table_without_gene_id : list byte :=
  table [["gene_name"; "tpm_unstranded"; "fpkm_unstranded";
          "fpkm_uq_unstranded"];
         ["A"; "1.0"; "2.0"; "3.0"]].

Definition table_without_fpkm_uq : list byte :=
  table [["gene_id"; "gene_name"; "tpm_unstranded"; "fpkm_unstranded"];
         ["ENSG1"; "A"; "1.0"; "2.0"]].

(** A one-gene table, and a site whose tumor group holds a sample of one
    gene and a sample of two, the latter typed as both tumor and normal. *)
Definition one_gene_table : list byte :=
  table [header5; ["ENSG1"; "A"; "1.0"; "2.0"; "3.0"]].

Definition two_gene_table : list byte :=
  table [header5;
         ["ENSG1"; "A"; "1.0"; "2.0"; "3.0"];
         ["ENSG2"; "B"; "4.0"; "5.0"; "6.0"]].

Definition mixed_site : list SampleRecord :=
  [mkSample "S1" "Primary Tumor" "TCGA-X" "f1" "f1.tsv";
   mkSample "S2" "Tumor Adjacent Normal" "TCGA-X" "f2" "f2.tsv"].

Definition mixed_files : Env :=
  serve_files [("f1", one_gene_table); ("f2", two_gene_table)].

(** Results come out in the order of submission. *)
Definition in_order : schedule := fun rows => rows.

(** What [process_file] returns for [small_table] under a given sample
    id. *)
Definition small_result (sample_id : string) : Result :=
  match fst (process_file (serve small_table) "f1" sample_id "f1.tsv"
                          DATA_ENDPOINT) with
  | Returns r => r
  | Raises _ => none_result
  end.

(** The endpoint is down. *)
Definition unreachable : Env :=
  mkEnv (fun _ => Raises (RequestException "Read timed out"))
        frame_gunzip pandas_lexicon.

(** A site whose tumor group cannot be assembled, a one-gene sample next
    to a two-gene sample, and which has a normal sample besides. *)
Definition uneven_site : list SampleRecord :=
  [mkSample "S1" "Primary Tumor" "TCGA-X" "f1" "f1.tsv";
   mkSample "S2" "Recurrent Tumor" "TCGA-X" "f2" "f2.tsv";
   mkSample "S3" "Solid Tissue Normal" "TCGA-X" "f3" "f3.tsv"].

Definition uneven_files : Env :=
  serve_files [("f1", one_gene_table); ("f2", two_gene_table);
               ("f3", one_gene_table)].

(** A batch of three, the last of which points at a file that is not
    there. *)
Definition batch_of_three : list SampleRecord :=
  [mkSample "S1" "Primary Tumor" "TCGA-X" "f1" "f1.tsv";
   mkSample "S2" "Primary Tumor" "TCGA-X" "f2" "f2.tsv";
   mkSample "S9" "Primary Tumor" "TCGA-X" "f9" "f9.tsv"].

(** Two timings of a group's run: every call run to its end in submission
    order and handed over in that order; and two workers whose calls
    overlap, the futures handed over last first. *)
Definition in_turn : timing := mkTiming [] [].

Definition overlapping : timing :=
  mkTiming [Executor.StartNext; Executor.StartNext; Executor.Advance 1;
            Executor.Advance 0; Executor.Advance 1; Executor.Advance 1;
            Executor.StartNext; Executor.Advance 1]
           [2; 1; 0].

(** The text of an absent value: a column of nothing but absent values
    keeps them as they are, in any other column they are read as
    not-a-number. *)
Definition pandas_missing (column : list (option string)) : string :=
  if forallb (fun o => match o with None => true | Some _ => false end) column
  then "None" else "nan".

(** A files endpoint that answers as listed and refuses every other
    query. *)
Definition answer (hits : list Metadata.hit_json) : Metadata.response_json :=
  Metadata.mkResponseJson (Some (Metadata.mkDataJson (Some hits))).

Definition files_answering
  (answers : list (string * completion Metadata.response_json))
  : Metadata.Files :=
  Metadata.mkFiles
    (fun site =>
       match find (fun a => String.eqb site (fst a)) answers with
       | Some a => snd a
       | None => Raises (RequestException "400 Client Error")
       end)
    pandas_missing.

Definition one_sample_hit (file_id sample_id sample_type : string)
  : Metadata.hit_json :=
  Metadata.mkHitJson (Some file_id) (Some (String.append file_id ".tsv"))
    (Some [Metadata.mkCaseJson
             (Some (Metadata.mkProjectJson (Some "TCGA-X")))
             (Some [Metadata.mkSampleJson (Some sample_id) (Some sample_type)])]).

(** Three sites: one with a tumor sample, one whose answer lacks the
    ["data"] key, one with a normal sample; every other site is
    refused. *)
Definition three_sites : Metadata.Files :=
  files_answering
    [("Lung", Returns (answer [one_sample_hit "f1" "S1" "Primary Tumor"]));
     ("Skin", Returns (Metadata.mkResponseJson None));
     ("Liver", Returns (answer [one_sample_hit "f2" "S2" "Solid Tissue Normal"]))].

End Reference.
Import Reference.
(* ================================================================== *)
(** ** Vocabulary of the statements                                    *)
(* ================================================================== *)

Module Vocabulary.

Definition count_true (mask : list bool) : nat :=
  List.length (filter (fun b => b) mask).

(** Every column of a frame has one cell per row label. *)
Definition rectangular (df : DataFrame) : Prop :=
  List.length (data df) = List.length (columns df) /\
  Forall (fun col => List.length col = List.length (index df)) (data df).

(** The two exits of [extract] that return. *)
Definition extracted (L : Lexicon) (sample_id : string) (df : DataFrame)
  (keep : list bool) (r : Result) : Prop :=
  exists g n tc fc uc starts,
    getitem df "gene_id" = Returns g /\
    getitem df "gene_name" = Returns n /\
    getitem df "tpm_unstranded" = Returns tc /\
    getitem df "fpkm_unstranded" = Returns fc /\
    getitem df "fpkm_uq_unstranded" = Returns uc /\
    str_startswith L "N_" g = Returns starts /\
    invert starts = Returns keep /\
    r = mkResult
          (Some (mkSeries sample_id (select keep (index df)) (select keep (s_values tc))))
          (Some (mkSeries sample_id (select keep (index df)) (select keep (s_values fc))))
          (Some (mkSeries sample_id (select keep (index df)) (select keep (s_values uc))))
          (Some (select keep (s_values g)))
          (Some (select keep (s_values n))).

(** Positions of the set bits of a mask, counted from [i]. *)
Fixpoint positions_from (i : nat) (mask : list bool) : list nat :=
  match mask with
  | [] => []
  | b :: m =>
    if b then i :: positions_from (S i) m else positions_from (S i) m
  end.

Definition take_rows {A} (d : A) (rows : list nat) (col : list A) : list A :=
  map (fun j => nth j col d) rows.

(** A result [process_file] can return. *)
Definition parsed (r : Result) : Prop :=
  exists env fid sid fn ep t,
    process_file env fid sid fn ep = (Returns r, t).

(** Line 130: a result is kept when its first component is not [None]. *)
Definition is_success (r : Result) : bool :=
  match r_tpm r with
  | Some _ => true
  | None => false
  end.

(** The same for what a future holds. *)
Definition succeeded (o : M event Result) : bool :=
  match fst o with
  | Returns r => is_success r
  | Raises _ => false
  end.

(** The claim's wording for the grouping test: some stretch of [s] spells
    [word] when the case of ASCII letters is ignored.  [word] is given in
    lower case. *)
Definition contains_ignoring_case (word s : string) : Prop :=
  exists pre mid post,
    s = String.append pre (String.append mid post) /\ lower mid = word.

(** The shape of a result of [process_file]: all five components absent,
    or all five present, the three series under one name and one index,
    with as many row labels as gene ids and gene names. *)
Definition well_formed (r : Result) : Prop :=
  r = none_result \/
  exists tpm fpkm uq ids names,
    r = mkResult (Some tpm) (Some fpkm) (Some uq) (Some ids) (Some names) /\
    s_name fpkm = s_name tpm /\ s_name uq = s_name tpm /\
    s_index fpkm = s_index tpm /\ s_index uq = s_index tpm /\
    List.length (s_index tpm) = List.length ids /\
    List.length names = List.length ids.

(** The entries of a list of optional values that are present. *)
Definition present {A} (l : list (option A)) : list A :=
  flat_map (fun o => match o with Some x => [x] | None => [] end) l.

(** The labels of a matrix's columns, and those after the two leading
    ones. *)
Definition column_labels (m : Frame) : list string := map fst (fr_columns m).
Definition sample_columns (m : Frame) : list string := skipn 2 (column_labels m).

(** The sample ids of the successes of a result stream, in stream order. *)
Definition success_labels (results : list Result) : list string :=
  map s_name (present (map r_tpm results)).

(** How often an address is requested in a trace, and how many rows of a
    group point at it. *)
Definition is_get (url : string) (ev : event) : bool :=
  match ev with
  | Get u => String.eqb u url
  | _ => false
  end.

Definition fetches (url : string) (trace : list event) : nat :=
  List.length (filter (is_get url) trace).

Definition row_url (row : SampleRecord) : string :=
  data_url DATA_ENDPOINT (file_id row).

Definition requests (url : string) (group : list SampleRecord) : nat :=
  List.length (filter (fun row => String.eqb (row_url row) url) group).

(** *** The table reader described line by line *)

(** A line of the stream: no line end inside it, and no quote character
    (a quote opens a field that may run over tabs, comment marks and line
    ends). *)
Fixpoint plain_line (l : string) : bool :=
  match l with
  | EmptyString => true
  | String c l' =>
    negb (Ascii.eqb c LF) && negb (Ascii.eqb c CR) && negb (Ascii.eqb c QUOTE)
    && plain_line l'
  end.

Fixpoint all_spaces (l : string) : bool :=
  match l with
  | EmptyString => true
  | String c l' => Ascii.eqb c SPACE && all_spaces l'
  end.

(** The part of a line before its first [#]. *)
Fixpoint cut_comment (l : string) : string :=
  match l with
  | EmptyString => EmptyString
  | String c l' => if Ascii.eqb c HASH then EmptyString
                   else String c (cut_comment l')
  end.

(** The fields of a line: the stretches between tabs, [cur] being the part
    of the first field already seen. *)
Fixpoint split_tabs_from (cur : string) (l : string) : list string :=
  match l with
  | EmptyString => [cur]
  | String c l' =>
    if Ascii.eqb c TAB then cur :: split_tabs_from "" l'
    else split_tabs_from (snoc cur c) l'
  end.

Definition split_tabs (l : string) : list string := split_tabs_from "" l.

(** The claim's reading: a line is dropped when it begins with [#], and
    kept whole otherwise. *)
Definition rows_as_claimed (ls : list string) : list (list string) :=
  map split_tabs (filter (fun l => negb (startswith "#" l)) ls).

(** What the reader does: a line is dropped when it begins with [#] or is
    blank, and kept up to its first [#] otherwise. *)
Definition ignored (l : string) : bool := startswith "#" l || all_spaces l.

Definition rows_as_read (ls : list string) : list (list string) :=
  map (fun l => split_tabs (cut_comment l))
      (filter (fun l => negb (ignored l)) ls).

(** The rows one after the other through the width check of
    [close_line]. *)
Fixpoint close_all (done : list (list string)) (rows : list (list string))
  : completion (list (list string)) :=
  match rows with
  | [] => Returns done
  | r :: rs => done' <~ close_line done r;; close_all done' rs
  end.

(** The tokenizer at the start of a line, [done] being the lines read so
    far. *)
Definition at_line_start (done : list (list string)) : tokenizer :=
  mkTok START_RECORD "" [] done "".

Definition strip_bom_first (ls : list string) : list string :=
  match ls with
  | [] => []
  | l :: ls' => strip_bom l :: ls'
  end.

(** What a future's [result()] hands to the collecting loop. *)
Definition result_of (o : M event Result) : Result :=
  match fst o with
  | Returns r => r
  | Raises _ => none_result
  end.

(** The results of a group's rows, in the order the rows completed. *)
Definition results_of (env : Env) (done : list SampleRecord) : list Result :=
  map (fun row => result_of (submit env row)) done.

(** The matrix lines 143-154 build from aligned series: the two axis
    columns, then one column per series. *)
Definition matrix_of (idx : list label) (ids names : list string)
  (ss : list Series) : Frame :=
  mkFrame idx
    (("gene_id", map (@Some string) ids) ::
     ("gene_name", map (@Some string) names) ::
     map (fun s => (s_name s, map (@Some string) (s_values s))) ss).

(** The files a trace writes, in order. *)
Definition written (trace : list event) : list string :=
  flat_map (fun ev => match ev with ToCsv path _ => [path] | _ => [] end) trace.

(** The requests of a trace, whatever their address. *)
Definition requested (trace : list event) : list string :=
  flat_map (fun ev => match ev with Get url => [url] | _ => [] end) trace.

(** The rows line 29 keeps: the positions of the gene ids that do not
    begin with [N_], in increasing order. *)
Definition filtered_rows (gene_ids : list string) : list nat :=
  positions_from 0 (map (fun v => negb (startswith "N_" v)) gene_ids).

(** *** Lines with their endings *)

(** How a line of the stream ends: with a line feed, with a carriage
    return and a line feed, or with the stream itself. *)
Inductive line_end : Type := EndLF | EndCRLF | EndOfFile.

Definition end_text (e : line_end) : string :=
  match e with
  | EndLF => String LF ""
  | EndCRLF => String CR (String LF "")
  | EndOfFile => ""
  end.

(** The stream a list of lines spells. *)
Fixpoint stream_of (ls : list (string * line_end)) : string :=
  match ls with
  | [] => ""
  | (l, e) :: ls' =>
    String.append l (String.append (end_text e) (stream_of ls'))
  end.

(** Only the last line can do without a line end. *)
Fixpoint well_ended (ls : list (string * line_end)) : bool :=
  match ls with
  | [] => true
  | (_, e) :: ls' =>
    match ls' with
    | [] => true
    | _ :: _ =>
      match e with EndOfFile => false | _ => true end && well_ended ls'
    end
  end.

(** The row a line contributes to the table, if any. *)
Definition row_of_line (l : string) : option (list string) :=
  if ignored l then None else Some (split_tabs (cut_comment l)).

Definition close_row (done : list (list string)) (row : option (list string))
  : completion (list (list string)) :=
  match row with
  | None => Returns done
  | Some r => close_line done r
  end.

(** The tokenizer [p] has read the body of a line that contributes [row]:
    each of the three line ends closes that row and nothing else. *)
Definition line_closed (p : tokenizer) (done : list (list string))
  (row : option (list string)) : Prop :=
  step LF p = (d <~ close_row done row;; Returns (at_line_start d)) /\
  (p' <~ step CR p;; step LF p')
    = (d <~ close_row done row;; Returns (at_line_start d)) /\
  (p' <~ handle_eof p;; Returns (lines p')) = close_row done row.

(** The table [read_csv] builds from the rows the tokenizer hands over. *)
Definition frame_of_rows (rows : completion (list (list string)))
  : completion DataFrame :=
  rows <~ rows;;
  match rows with
  | [] => Raises EmptyDataError
  | header :: body => Returns (build_frame header body)
  end.

(** The cells of column [j] of a table, one per data row and in the order
    of the rows. *)
Definition column_cells (header : list string) (body : list (list string))
  (j : nat) : list string :=
  map (fun r => nth (leading_cols header body + j) r "") body.

(** *** The run with its worker threads *)

(** The pool of a group's run when the block of lines 120-136 is left,
    and its futures in the order the loop of line 128 receives them. *)
Definition pool_of (env : Env) (max_workers : nat) (tm : timing)
  (group : list SampleRecord) : Executor.pool SampleRecord Result event :=
  Executor.run (submit env) max_workers (moves tm) group.

Definition handed_over (env : Env) (max_workers : nat) (tm : timing)
  (group : list SampleRecord) : list (SampleRecord * completion Result) :=
  Executor.as_completed (picks tm)
    (Executor.finished (pool_of env max_workers tm group)).

(** The rows of a group in the order their futures are handed over. *)
Definition yield_order (env : Env) (max_workers : nat) (tm : timing)
  : schedule :=
  fun group => map fst (handed_over env max_workers tm group).

(** Line 130 on a future: its call returned, and the first component of
    what it returned is not [None]. *)
Definition future_succeeded (f : SampleRecord * completion Result) : bool :=
  match snd f with
  | Returns r => is_success r
  | Raises _ => false
  end.

(** The events of a list of calls run one after the other. *)
Definition calls_in_sequence (env : Env) (rows : list SampleRecord)
  : list event :=
  flat_map (fun row => snd (submit env row)) rows.

(** *** The loop over the sites *)

(** The runs of the sites of a list, [i] being the position of the first
    of them in the list given to [generate_expression_csvs]. *)
Fixpoint site_runs (files : Metadata.Files) (env : Env)
  (sched : nat -> string -> timing) (i : nat) (cancer_sites : list string)
  : list (M event unit) :=
  match cancer_sites with
  | [] => []
  | cancer_site :: rest =>
    Metadata.process_site files env (sched i) cancer_site
    :: site_runs files env sched (S i) rest
  end.

(** The exceptions line 73 catches. *)
Definition is_request_exception (e : exn) : bool :=
  match e with
  | RequestException _ => true
  | _ => false
  end.

(** What a site's run does before it has its metadata. *)
Definition site_opening (cancer_site : string) : list event :=
  [MakeDirs (output_dir cancer_site);
   Print (ProcessingSite cancer_site);
   Post Metadata.FILES_ENDPOINT cancer_site].

(** *** The metadata table *)

(** The samples an answer lists: hit by hit, case by case, sample by
    sample, each with the case and the hit it stands in. *)
Definition listed_samples (hits : list Metadata.hit_json)
  : list (Metadata.hit_json * Metadata.case_json * Metadata.sample_json) :=
  flat_map
    (fun h =>
       flat_map
         (fun c => map (fun s => (h, c, s))
                       (Metadata.get_or [] (Metadata.samples c)))
         (Metadata.get_or [] (Metadata.cases h)))
    hits.

(** A sample with a submitter id and a sample type, neither empty. *)
Definition identified
  (x : Metadata.hit_json * Metadata.case_json * Metadata.sample_json) : bool :=
  Metadata.truthy (Metadata.submitter_id (snd x)) &&
  Metadata.truthy (Metadata.sample_type_json (snd x)).

(** The row of a listed sample. *)
Definition row_of_listed
  (x : Metadata.hit_json * Metadata.case_json * Metadata.sample_json)
  : Metadata.meta_row :=
  Metadata.mkMetaRow
    (Metadata.get_or "" (Metadata.submitter_id (snd x)))
    (Metadata.get_or "" (Metadata.sample_type_json (snd x)))
    (match Metadata.project (snd (fst x)) with
     | Some p => Metadata.project_id p
     | None => None
     end)
    (Metadata.hit_file_id (fst (fst x)))
    (Metadata.hit_file_name (fst (fst x))).

(** Row labels that are whole numbers, no two the same: what a table
    without surplus leading fields gives, its labels being the positions
    of its rows. *)
Definition positional (ix : list label) : Prop :=
  Forall (fun l => exists i, l = Pos i) ix /\ NoDup ix.

(** Whether [~] fails on the answer of [.str.startswith] for a column of
    strings: a cell is missing and missing cells are answered with NaN. *)
Definition nan_in_mask (L : Lexicon) (vals : list string) : bool :=
  existsb (is_na L) vals && negb (na_is_false L).

(** *** Lines of unquoted fields *)

Fixpoint no_line_end (l : string) : bool :=
  match l with
  | EmptyString => true
  | String c l' =>
    negb (Ascii.eqb c LF) && negb (Ascii.eqb c CR) && no_line_end l'
  end.

(** A line the reader takes as one record of unquoted fields: it holds no
    line end, and none of its fields begins with a quote character.  A
    quote at the head of a field opens a stretch that may run over tabs,
    comment marks and line ends; anywhere else, and after a comment mark,
    it is a character like any other.  [at_start] tells whether the next
    character is the first of a field. *)
Fixpoint unquoted_from (at_start : bool) (l : string) : bool :=
  match l with
  | EmptyString => true
  | String c l' =>
    negb (Ascii.eqb c LF) && negb (Ascii.eqb c CR) &&
    negb (at_start && Ascii.eqb c QUOTE) &&
    (if Ascii.eqb c HASH then no_line_end l'
     else unquoted_from (Ascii.eqb c TAB) l')
  end.

Definition unquoted_line (l : string) : bool := unquoted_from true l.

End Vocabulary.
Import Vocabulary.

(* ================================================================== *)
(** * Properties                                                       *)
(* ================================================================== *)

Unset Implicit Arguments.

(** ** Lists, masks and frames *)

Lemma select_nil_r : forall A (mask : list bool), select mask (@nil A) = [].
Proof. intros A [|b m]; reflexivity. Qed.

Lemma select_length : forall A (mask : list bool) (l : list A),
  List.length mask = List.length l ->
  List.length (select mask l) = count_true mask.
Proof.
  intros A mask; induction mask as [|b m IH]; intros [|x l] H;
    simpl in *; try discriminate; auto.
  injection H as H. unfold count_true in *. destruct b; simpl; auto.
Qed.

Lemma whole_labels_length : forall cells ls,
  whole_labels cells = Some ls -> List.length ls = List.length cells.
Proof.
  induction cells as [|c cells IH]; intros ls H; cbn [whole_labels] in H.
  - now injection H as <-.
  - destruct (whole_number c) as [n|]; [|discriminate].
    destruct (whole_labels cells) as [ls'|]; [|discriminate].
    injection H as <-. cbn [List.length]. f_equal. now apply IH.
Qed.

Lemma build_frame_index_length : forall header body,
  List.length (index (build_frame header body)) = List.length body.
Proof.
  intros header body. unfold build_frame; cbn [index].
  destruct (leading_cols header body =? 0);
    [now rewrite length_map, length_seq|].
  destruct (if leading_cols header body =? 1
            then whole_labels (map (hd "") body) else None) as [ls|] eqn:E;
    [|apply length_map].
  destruct (leading_cols header body =? 1); [|discriminate].
  rewrite (whole_labels_length _ _ E). apply length_map.
Qed.

Lemma build_frame_rectangular : forall header body,
  rectangular (build_frame header body).
Proof.
  intros header body. unfold rectangular. split.
  - unfold build_frame; cbn [data columns].
    now rewrite length_map, length_seq.
  - rewrite build_frame_index_length.
    apply Forall_forall. intros col Hin.
    unfold build_frame in Hin; cbn [data] in Hin.
    apply in_map_iff in Hin.
    destruct Hin as [j [<- _]]. apply length_map.
Qed.

Lemma read_csv_rectangular : forall payload df,
  read_csv payload = Returns df -> rectangular df.
Proof.
  intros payload df. unfold read_csv.
  destruct (decode_utf8 payload) as [text|]; simpl; [|discriminate].
  destruct (tokenize text) as [[|header body]|]; simpl; try discriminate.
  intros H; injection H as <-. apply build_frame_rectangular.
Qed.

Lemma find_column_lt : forall col names j,
  find_column col names = Some j -> j < List.length names.
Proof.
  intros col names; induction names as [|n ns IH]; intros j; simpl.
  - discriminate.
  - destruct (String.eqb n col).
    + intros H; injection H as <-. lia.
    + destruct (find_column col ns) as [k|]; simpl; [|discriminate].
      intros H; injection H as <-. specialize (IH k eq_refl). lia.
Qed.

Lemma has_column_getitem : forall col df,
  has_column col df = true -> exists s, getitem df col = Returns s.
Proof.
  intros col df. unfold has_column, getitem.
  destruct (find_column col (columns df)); [eauto | discriminate].
Qed.

Lemma getitem_shape : forall df col s,
  rectangular df -> getitem df col = Returns s ->
  s_name s = col /\ s_index s = index df /\
  List.length (s_values s) = List.length (index df).
Proof.
  intros df col s [Hn Hall] H. unfold getitem in H.
  destruct (find_column col (columns df)) as [j|] eqn:Hj; [|discriminate].
  injection H as <-. simpl. repeat split.
  apply find_column_lt in Hj. rewrite <- Hn in Hj.
  rewrite Forall_forall in Hall. apply Hall. now apply nth_In.
Qed.

Lemma getitem_mask_rows : forall keep df col s,
  getitem df col = Returns s ->
  getitem (mask_rows keep df) col =
  Returns (mkSeries col (select keep (index df)) (select keep (s_values s))).
Proof.
  intros keep df col s H. unfold getitem in *. simpl.
  destruct (find_column col (columns df)) as [j|]; [|discriminate].
  injection H as <-. simpl. f_equal. f_equal.
  rewrite <- (select_nil_r string keep) at 1. apply map_nth.
Qed.

Lemma has_column_mask_rows : forall keep df col,
  has_column col (mask_rows keep df) = has_column col df.
Proof. reflexivity. Qed.

Lemma invert_length : forall mask keep,
  invert mask = Returns keep -> List.length keep = List.length mask.
Proof.
  induction mask as [|[b|] m IH]; simpl; intros keep H.
  - now injection H as <-.
  - destruct (invert m) as [rest|]; simpl in H; [|discriminate].
    injection H as <-. simpl. f_equal. now apply IH.
  - discriminate.
Qed.

Lemma str_startswith_length : forall L p s mask,
  str_startswith L p s = Returns mask ->
  List.length mask = List.length (s_values s).
Proof.
  intros L p s mask. unfold str_startswith.
  destruct (infer_dtype L (s_values s)); try discriminate.
  intros H; injection H as <-. apply length_map.
Qed.

(** ** The monad *)

Section MonadFacts.
Variable event : Type.
Variables A B : Type.

Lemma bind_lift_returns : forall (a : A) (k : A -> M event B),
  bind (lift (Returns a)) k = k a.
Proof. intros a k. unfold bind, lift. now destruct (k a). Qed.

Lemma bind_lift_raises : forall (e : exn) (k : A -> M event B),
  bind (lift (Raises e)) k = (Raises e, []).
Proof. reflexivity. Qed.

Lemma bind_emit : forall (ev : event) (k : unit -> M event B),
  bind (emit ev) k = (fst (k tt), ev :: snd (k tt)).
Proof. intros ev k. unfold bind, emit. now destruct (k tt). Qed.

Lemma bind_ret : forall (a : A) (k : A -> M event B),
  bind (ret a) k = k a.
Proof. intros a k. unfold bind, ret. now destruct (k a). Qed.
End MonadFacts.

(** ** [process_file]: shape of what it returns *)

Lemma extract_returns : forall L fid sid fn df r t,
  extract L fid sid fn df = (Returns r, t) ->
  (r = none_result /\ t = [Print (SkippingMissingColumns fid)] /\
   forallb (fun col => has_column col df) required_columns = false /\
   has_column "gene_id" df = true) \/
  (t = [Print (ProcessedFile fn sid)] /\
   exists keep, extracted L sid df keep r).
Proof.
  intros L fid sid fn df r t. unfold extract.
  destruct (getitem df "gene_id") as [g|] eqn:Hg;
    [rewrite bind_lift_returns | rewrite bind_lift_raises; discriminate].
  destruct (str_startswith L "N_" g) as [starts|] eqn:Hs;
    [rewrite bind_lift_returns | rewrite bind_lift_raises; discriminate].
  destruct (invert starts) as [keep|] eqn:Hk;
    [rewrite bind_lift_returns | rewrite bind_lift_raises; discriminate].
  assert (Hgc : has_column "gene_id" df = true).
  { unfold has_column. unfold getitem in Hg.
    destruct (find_column "gene_id" (columns df)); [reflexivity|discriminate]. }
  destruct (forallb (fun col => has_column col (mask_rows keep df))
                    required_columns) eqn:Hall; simpl negb; cbv iota.
  - intros H. right.
    assert (Hall' := Hall). simpl in Hall'.
    rewrite !has_column_mask_rows in Hall'.
    repeat (apply andb_prop in Hall'; destruct Hall' as [? Hall']).
    destruct (has_column_getitem "gene_name" df) as [n Hn]; [assumption|].
    destruct (has_column_getitem "tpm_unstranded" df) as [tc Htc]; [assumption|].
    destruct (has_column_getitem "fpkm_unstranded" df) as [fc Hfc]; [assumption|].
    destruct (has_column_getitem "fpkm_uq_unstranded" df) as [uc Huc]; [assumption|].
    rewrite (getitem_mask_rows keep _ _ _ Hg) in H.
    rewrite (getitem_mask_rows keep _ _ _ Hn) in H.
    rewrite (getitem_mask_rows keep _ _ _ Htc) in H.
    rewrite (getitem_mask_rows keep _ _ _ Hfc) in H.
    rewrite (getitem_mask_rows keep _ _ _ Huc) in H.
    cbn in H. injection H as <- <-. split; [reflexivity|].
    exists keep, g, n, tc, fc, uc, starts. repeat split; assumption.
  - intros H. cbn in H. injection H as <- <-. left.
    repeat split; assumption.
Qed.

Lemma extracted_lengths : forall L sid df keep r,
  rectangular df -> extracted L sid df keep r ->
  exists tpm fpkm uq ids names,
    r = mkResult (Some tpm) (Some fpkm) (Some uq) (Some ids) (Some names) /\
    s_name tpm = sid /\ s_name fpkm = sid /\ s_name uq = sid /\
    s_index fpkm = s_index tpm /\ s_index uq = s_index tpm /\
    List.length (s_index tpm) = List.length ids /\
    List.length names = List.length ids /\
    List.length (s_values tpm) = List.length ids /\
    List.length (s_values fpkm) = List.length ids /\
    List.length (s_values uq) = List.length ids.
Proof.
  intros L sid df keep r Hrect
    (g & n & tc & fc & uc & starts & Hg & Hn & Htc & Hfc & Huc & Hs & Hk & ->).
  do 5 eexists. split; [reflexivity|]. simpl.
  assert (Hlen : List.length keep = List.length (index df)).
  { rewrite (invert_length _ _ Hk), (str_startswith_length _ _ _ _ Hs).
    now apply (getitem_shape _ _ _ Hrect Hg). }
  destruct (getitem_shape _ _ _ Hrect Hg) as (_ & _ & Lg).
  destruct (getitem_shape _ _ _ Hrect Hn) as (_ & _ & Ln).
  destruct (getitem_shape _ _ _ Hrect Htc) as (_ & _ & Lt).
  destruct (getitem_shape _ _ _ Hrect Hfc) as (_ & _ & Lf).
  destruct (getitem_shape _ _ _ Hrect Huc) as (_ & _ & Lu).
  repeat split; rewrite !select_length; congruence.
Qed.

Lemma process_file_body_eq : forall env fid sid fn ep,
  process_file_body env fid sid fn ep =
  match fetch env (data_url ep fid) with
  | Returns content =>
      (fst (parse_payload env fid sid fn content),
       Get (data_url ep fid) :: snd (parse_payload env fid sid fn content))
  | Raises e => (Raises e, [Get (data_url ep fid)])
  end.
Proof.
  intros. unfold process_file_body.
  rewrite bind_emit.
  destruct (fetch env (data_url ep fid)) as [content|e].
  - now rewrite bind_lift_returns.
  - now rewrite bind_lift_raises.
Qed.

Lemma parse_payload_returns : forall env fid sid fn content r t,
  parse_payload env fid sid fn content = (Returns r, t) ->
  exists raw df,
    frame_decode env content = Returns raw /\
    read_csv raw = Returns df /\
    extract (lexicon env) fid sid fn df = (Returns r, t).
Proof.
  intros env fid sid fn content r t. unfold parse_payload.
  destruct (frame_decode env content) as [raw|] eqn:Hd; simpl cbind;
    [|rewrite bind_lift_raises; discriminate].
  destruct (read_csv raw) as [df|] eqn:Hr;
    [rewrite bind_lift_returns | rewrite bind_lift_raises; discriminate].
  intros H. now exists raw, df.
Qed.

Lemma process_file_split : forall env fid sid fn ep,
  (exists r t,
     process_file_body env fid sid fn ep = (Returns r, t) /\
     process_file env fid sid fn ep = (Returns r, t)) \/
  (exists e t,
     process_file_body env fid sid fn ep = (Raises e, t) /\
     process_file env fid sid fn ep =
       (Returns none_result, t ++ [Print (ErrorProcessing fid e)])).
Proof.
  intros. unfold process_file, try_except.
  destruct (process_file_body env fid sid fn ep) as [[r|e] t].
  - left. now exists r, t.
  - right. now exists e, t.
Qed.

Section TraceFacts.
Variables A B : Type.

Lemma bind_fst : forall (m : M event A) (k : A -> M event B),
  fst (bind m k) =
  match fst m with
  | Returns a => fst (k a)
  | Raises e => Raises e
  end.
Proof. intros [[a|e] t] k; simpl; [now destruct (k a)|reflexivity]. Qed.

Lemma bind_snd : forall (m : M event A) (k : A -> M event B),
  snd (bind m k) =
  snd m ++ match fst m with
           | Returns a => snd (k a)
           | Raises _ => []
           end.
Proof.
  intros [[a|e] t] k; simpl; [now destruct (k a)|now rewrite app_nil_r].
Qed.
End TraceFacts.

Lemma process_file_total : forall env fid sid fn ep,
  exists r, fst (process_file env fid sid fn ep) = Returns r.
Proof.
  intros. destruct (process_file_split env fid sid fn ep)
    as [(r & t & _ & H) | (e & t & _ & H)]; rewrite H; simpl; eauto.
Qed.

Lemma process_file_shape : forall env fid sid fn ep r t,
  process_file env fid sid fn ep = (Returns r, t) ->
  r = none_result \/
  exists df keep, rectangular df /\ extracted (lexicon env) sid df keep r.
Proof.
  intros env fid sid fn ep r t H.
  destruct (process_file_split env fid sid fn ep)
    as [(r' & t' & Hb & Hp) | (e & t' & Hb & Hp)];
    rewrite Hp in H; injection H as <- <-; [|now left].
  rewrite process_file_body_eq in Hb.
  destruct (fetch env (data_url ep fid)) as [content|]; [|discriminate].
  destruct (parse_payload env fid sid fn content) as [c tp] eqn:Hpp.
  simpl in Hb. injection Hb as -> _.
  apply parse_payload_returns in Hpp.
  destruct Hpp as (raw & df & _ & Hr & Hx).
  apply extract_returns in Hx.
  destruct Hx as [(-> & _) | (_ & keep & Hx)]; [now left|].
  right. exists df, keep. split; [|assumption].
  eapply read_csv_rectangular; eassumption.
Qed.

(** ** Row positions of a mask *)

Lemma positions_from_ge : forall mask i j,
  In j (positions_from i mask) -> i <= j.
Proof.
  induction mask as [|b m IH]; simpl; intros i j H; [contradiction|].
  destruct b; [destruct H as [<- | H]|]; try lia;
    apply IH in H; lia.
Qed.

Lemma positions_from_sorted : forall mask i,
  StronglySorted lt (positions_from i mask).
Proof.
  induction mask as [|b m IH]; simpl; intros i; [constructor|].
  destruct b; [|apply IH].
  constructor; [apply IH|].
  apply Forall_forall. intros j Hj. apply positions_from_ge in Hj. lia.
Qed.

Lemma select_take_rows : forall A (d : A) mask l i,
  List.length mask = List.length l ->
  select mask l = map (fun j => nth (j - i) l d) (positions_from i mask).
Proof.
  intros A d mask; induction mask as [|b m IH]; intros [|x l] i H;
    try discriminate; auto.
  injection H as H.
  assert (Hext : map (fun j => nth (j - S i) l d) (positions_from (S i) m)
               = map (fun j => nth (j - i) (x :: l) d) (positions_from (S i) m)).
  { apply map_ext_in. intros j Hj. apply positions_from_ge in Hj.
    replace (j - i) with (S (j - S i)) by lia. reflexivity. }
  destruct b; cbn [select positions_from map].
  - rewrite Nat.sub_diag. cbn [nth]. f_equal.
    rewrite (IH l (S i) H). exact Hext.
  - rewrite (IH l (S i) H). exact Hext.
Qed.

Lemma select_positions : forall A (d : A) mask l,
  List.length mask = List.length l ->
  select mask l = take_rows d (positions_from 0 mask) l.
Proof.
  intros A d mask l H. rewrite (select_take_rows A d mask l 0 H).
  unfold take_rows. apply map_ext. intros j. now rewrite Nat.sub_0_r.
Qed.

(** ** C1: a missing [gene_id] column is not reported as a schema error *)

Lemma extract_without_gene_id : forall L fid sid fn df,
  has_column "gene_id" df = false ->
  extract L fid sid fn df = (Raises (KeyError "gene_id"), []).
Proof.
  intros L fid sid fn df H. unfold extract, getitem.
  unfold has_column in H.
  destruct (find_column "gene_id" (columns df)); [discriminate|].
  apply bind_lift_raises.
Qed.

(** C1 (the code departs from the claim).  A table that lacks [gene_id]
    never reaches the column check of lines 31-34: the row filter of line
    29 raises [KeyError] first, and the sample is reported through the
    catch-all handler ("Error processing file"), whereas a table that
    lacks [fpkm_uq_unstranded] is reported as "Missing required columns".
    Both return the all-[None] tuple. *)
Theorem C1_missing_gene_id_takes_the_exception_path :
  process_file (serve table_without_gene_id) "f1" "S1" "f1.tsv" DATA_ENDPOINT =
    (Returns none_result,
     [Get (data_url DATA_ENDPOINT "f1");
      Print (ErrorProcessing "f1" (KeyError "gene_id"))]) /\
  process_file (serve table_without_fpkm_uq) "f1" "S1" "f1.tsv" DATA_ENDPOINT =
    (Returns none_result,
     [Get (data_url DATA_ENDPOINT "f1");
      Print (SkippingMissingColumns "f1")]).
Proof. split; vm_compute; reflexivity. Qed.

(** ** C4: the frame decoder *)

Lemma magic_firstn : forall content,
  starts_with_magic (firstn 4 content) = starts_with_magic content.
Proof.
  intros [|a [|b [|c [|d r]]]]; reflexivity.
Qed.

Lemma frame_decode_eq : forall env content,
  frame_decode env content =
  if starts_with_magic content then gunzip env content else Returns content.
Proof. intros. unfold frame_decode. now rewrite magic_firstn. Qed.

Lemma magic_inv : forall payload,
  starts_with_magic payload = true -> exists r, payload = x1f :: x8b :: r.
Proof.
  intros [|a [|b r]] H; try discriminate.
  - destruct a; discriminate.
  - destruct a; try discriminate; destruct b; try discriminate. now exists r.
Qed.

(** A payload that begins with the identification bytes is not text: its
    second byte cannot start a UTF-8 sequence. *)
Lemma read_csv_rejects_magic : forall payload,
  starts_with_magic payload = true ->
  read_csv payload = Raises UnicodeDecodeError.
Proof.
  intros payload H. destruct (magic_inv _ H) as [r ->].
  unfold read_csv, decode_utf8.
  replace (utf8_valid (x1f :: x8b :: r)) with false; [reflexivity|].
  destruct r as [|b1 [|b2 [|b3 r]]]; reflexivity.
Qed.

(** Processing the compressed form of a payload is reading the payload
    itself as a table. *)
Lemma parse_payload_gzip : forall gzip env fid sid fn payload,
  GzipCodec gzip (gunzip env) ->
  parse_payload env fid sid fn (gzip payload) =
  bind (lift (read_csv payload)) (extract (lexicon env) fid sid fn).
Proof.
  intros gzip env fid sid fn payload [Hm Hr]. unfold parse_payload.
  now rewrite frame_decode_eq, Hm, Hr.
Qed.

Lemma parse_payload_plain : forall env fid sid fn payload,
  starts_with_magic payload = false ->
  parse_payload env fid sid fn payload =
  bind (lift (read_csv payload)) (extract (lexicon env) fid sid fn).
Proof.
  intros env fid sid fn payload H. unfold parse_payload.
  now rewrite frame_decode_eq, H.
Qed.

Lemma process_file_fetched : forall env fid sid fn ep content,
  fetch env (data_url ep fid) = Returns content ->
  process_file env fid sid fn ep =
  try_except
    (fst (parse_payload env fid sid fn content),
     Get (data_url ep fid) :: snd (parse_payload env fid sid fn content))
    (on_exception fid).
Proof.
  intros env fid sid fn ep content H. unfold process_file.
  now rewrite process_file_body_eq, H.
Qed.

(** A payload that is itself a compressed table: given plain it is
    decompressed and parsed, given compressed it is decompressed once and
    then refused by the reader. *)
Lemma compressed_payload_differs : forall gzip env fid sid fn table r t,
  GzipCodec gzip (gunzip env) ->
  starts_with_magic table = false ->
  parse_payload env fid sid fn table = (Returns r, t) ->
  parse_payload env fid sid fn (gzip table) = (Returns r, t) /\
  parse_payload env fid sid fn (gzip (gzip table))
    = (Raises UnicodeDecodeError, []).
Proof.
  intros gzip env fid sid fn tbl r t Hc Hplain Hp. split.
  - rewrite (parse_payload_gzip gzip env fid sid fn tbl Hc).
    now rewrite <- (parse_payload_plain env fid sid fn tbl Hplain).
  - rewrite (parse_payload_gzip gzip env fid sid fn (gzip tbl) Hc).
    rewrite read_csv_rejects_magic; [reflexivity|]. apply Hc.
Qed.

Lemma frame_codec : GzipCodec frame_gzip frame_gunzip.
Proof. split; reflexivity. Qed.

(** C4 as stated fails.  The payload [P] is the compressed form of a valid
    table.  Served as it is, [P] is decompressed and parsed; served
    compressed once more, one layer is removed and the reader refuses the
    rest: the two outcomes differ. *)
Lemma C4_counterexample :
  ~ (forall gzip env fid sid fn payload,
       GzipCodec gzip (gunzip env) ->
       fst (parse_payload env fid sid fn (gzip payload)) =
       fst (parse_payload env fid sid fn payload)).
Proof.
  intros claim.
  specialize (claim frame_gzip (serve []) "f1" "S1" "f1.tsv"
                    (frame_gzip small_table) frame_codec).
  vm_compute in claim. discriminate.
Qed.

(** C4 (amended).  For every payload that does not itself begin with the
    bytes 1F 8B, the compressed form and the plain form are processed to
    the same result, output included; and the decoder decompresses
    exactly the payloads that begin with 1F 8B, handing every other
    payload on unchanged. *)
Theorem C4_gzip_transparent : forall gzip env fid sid fn payload,
  GzipCodec gzip (gunzip env) ->
  starts_with_magic payload = false ->
  parse_payload env fid sid fn (gzip payload) =
  parse_payload env fid sid fn payload /\
  (forall env' ep,
     gunzip env' = gunzip env -> lexicon env' = lexicon env ->
     fetch env (data_url ep fid) = Returns (gzip payload) ->
     fetch env' (data_url ep fid) = Returns payload ->
     process_file env fid sid fn ep = process_file env' fid sid fn ep) /\
  (forall content,
     (starts_with_magic content = true ->
      frame_decode env content = gunzip env content) /\
     (starts_with_magic content = false ->
      frame_decode env content = Returns content)).
Proof.
  intros gzip env fid sid fn payload Hc Hplain.
  assert (Heq : parse_payload env fid sid fn (gzip payload) =
                parse_payload env fid sid fn payload).
  { rewrite (parse_payload_gzip gzip env fid sid fn payload Hc).
    now rewrite (parse_payload_plain env fid sid fn payload Hplain). }
  split; [exact Heq|]. split.
  - intros env' ep Hg Hl Hf Hf'.
    rewrite (process_file_fetched env fid sid fn ep _ Hf).
    rewrite (process_file_fetched env' fid sid fn ep _ Hf').
    rewrite Heq. unfold parse_payload.
    rewrite !frame_decode_eq, Hg, Hl. reflexivity.
  - intros content. rewrite frame_decode_eq.
    split; intros ->; reflexivity.
Qed.

Lemma C4_gzip_transparent_witness :
  parse_payload (serve []) "f1" "S1" "f1.tsv" (frame_gzip small_table) =
  parse_payload (serve []) "f1" "S1" "f1.tsv" small_table.
Proof.
  apply (C4_gzip_transparent frame_gzip (serve []) "f1" "S1" "f1.tsv"
           small_table frame_codec).
  reflexivity.
Defined.

(** ** Counting under rearrangement *)

Lemma filter_permutation_length : forall A (f : A -> bool) l1 l2,
  Permutation l1 l2 ->
  List.length (filter f l1) = List.length (filter f l2).
Proof.
  intros A f l1 l2 H; induction H; simpl;
    repeat match goal with |- context [if f ?x then _ else _] =>
             destruct (f x) end; simpl; congruence.
Qed.

(** ** Group membership *)

Lemma str_app_assoc : forall a b c : string,
  String.append (String.append a b) c = String.append a (String.append b c).
Proof. induction a as [|x a IH]; intros; simpl; [|rewrite IH]; reflexivity. Qed.

Lemma str_app_nil_r : forall a : string, String.append a "" = a.
Proof. induction a as [|x a IH]; simpl; [|rewrite IH]; reflexivity. Qed.

Lemma startswith_iff : forall p s,
  startswith p s = true <-> exists post, s = String.append p post.
Proof.
  unfold startswith. induction p as [|x p IH]; intros s.
  - split; [intros _; now exists s|]. intros _. now destruct s.
  - destruct s as [|y s]; simpl.
    + split; [discriminate | intros [post H]; discriminate].
    + destruct (Ascii.ascii_dec x y) as [->|Hne].
      * rewrite IH. split; intros [post H]; exists post; congruence.
      * split; [discriminate | intros [post H]; congruence].
Qed.

Lemma contains_iff : forall p s,
  contains p s = true <->
  exists pre post, s = String.append pre (String.append p post).
Proof.
  intros p s; induction s as [|y s IH].
  - cbn [contains]. rewrite orb_false_r, startswith_iff. split.
    + intros [post H]. now exists "", post.
    + intros [pre [post H]]. destruct pre; [now exists post|discriminate].
  - cbn [contains]. rewrite orb_true_iff, startswith_iff, IH. split.
    + intros [[post H] | [pre [post H]]].
      * now exists "", post.
      * exists (String y pre), post. simpl. now rewrite H.
    + intros [[|z pre] [post H]].
      * left. now exists post.
      * right. simpl in H. injection H as _ H. now exists pre, post.
Qed.

Lemma lower_app : forall a b,
  lower (String.append a b) = String.append (lower a) (lower b).
Proof. induction a as [|x a IH]; intros; simpl; [|rewrite IH]; reflexivity. Qed.

Lemma lower_app_inv : forall a b s,
  lower s = String.append a b ->
  exists s1 s2, s = String.append s1 s2 /\ lower s1 = a /\ lower s2 = b.
Proof.
  induction a as [|x a IH]; intros b s H.
  - now exists "", s.
  - destruct s as [|y s]; [discriminate|]. simpl in H.
    injection H as Hx H. destruct (IH _ _ H) as (s1 & s2 & -> & <- & <-).
    exists (String y s1), s2. simpl. now rewrite Hx.
Qed.

(** The script's test (lower-case the field, then search) is containment
    up to case. *)
Lemma in_group_iff : forall word row,
  in_group word row = true <->
  contains_ignoring_case word (sample_type row).
Proof.
  intros word row. unfold in_group, contains_ignoring_case.
  rewrite contains_iff. split.
  - intros (pre & post & H).
    apply lower_app_inv in H. destruct H as (s1 & s2 & -> & <- & H).
    apply lower_app_inv in H. destruct H as (m & s3 & -> & <- & <-).
    now exists s1, m, s3.
  - intros (pre & mid & post & -> & <-).
    exists (lower pre), (lower post). now rewrite !lower_app.
Qed.

Lemma filter_none : forall A (f : A -> bool) l,
  (forall x, In x l -> f x = false) -> filter f l = [].
Proof.
  intros A f l; induction l as [|x l IH]; intros H; simpl; [reflexivity|].
  rewrite (H x (or_introl eq_refl)). apply IH. intros y Hy. apply H. now right.
Qed.

(** ** The collecting loop and the matrices *)

Lemma parsed_well_formed : forall r, parsed r -> well_formed r.
Proof.
  intros r (env & fid & sid & fn & ep & t & H).
  destruct (process_file_shape _ _ _ _ _ _ _ H)
    as [-> | (df & keep & Hrect & Hx)]; [now left|].
  destruct (extracted_lengths _ _ _ _ _ Hrect Hx)
    as (tpm & fpkm & uq & ids & names & -> & N1 & N2 & N3 & I1 & I2 & L1 & L2 & _).
  right. exists tpm, fpkm, uq, ids, names. repeat split; congruence.
Qed.

Lemma collect_step_failure : forall a r,
  r_tpm r = None -> collect_step a r = a.
Proof. intros a r H. unfold collect_step. now rewrite H. Qed.

Lemma collect_step_success : forall a r s,
  r_tpm r = Some s ->
  tpm_data (collect_step a r) = tpm_data a ++ [s] /\
  fpkm_data (collect_step a r) = fpkm_data a ++ [r_fpkm r] /\
  fpkm_uq_data (collect_step a r) = fpkm_uq_data a ++ [r_fpkm_uq r].
Proof. intros a r s H. unfold collect_step. rewrite H. now repeat split. Qed.

Lemma fold_collect_successes : forall results a,
  fold_left collect_step results a =
  fold_left collect_step (filter is_success results) a.
Proof.
  induction results as [|r rs IH]; intros a; simpl; [reflexivity|].
  unfold is_success at 1. destruct (r_tpm r) eqn:Hr; simpl.
  - apply IH.
  - rewrite collect_step_failure by assumption. apply IH.
Qed.

Lemma fold_collect_data : forall results a,
  tpm_data (fold_left collect_step results a)
    = tpm_data a ++ present (map r_tpm results) /\
  fpkm_data (fold_left collect_step results a)
    = fpkm_data a ++ map r_fpkm (filter is_success results) /\
  fpkm_uq_data (fold_left collect_step results a)
    = fpkm_uq_data a ++ map r_fpkm_uq (filter is_success results).
Proof.
  induction results as [|r rs IH]; intros a; simpl.
  - now rewrite !app_nil_r.
  - destruct (r_tpm r) as [s|] eqn:Hr.
    + assert (Hs : is_success r = true) by (unfold is_success; now rewrite Hr).
      destruct (IH (collect_step a r)) as (H1 & H2 & H3).
      destruct (collect_step_success a r s Hr) as (E1 & E2 & E3).
      rewrite H1, H2, H3, E1, E2, E3, Hs. simpl.
      now rewrite <- !app_assoc.
    + assert (Hs : is_success r = false) by (unfold is_success; now rewrite Hr).
      rewrite Hs, collect_step_failure by assumption. apply IH.
Qed.

Lemma present_success_names : forall results,
  Forall well_formed results ->
  map s_name (present (map r_fpkm (filter is_success results)))
    = success_labels results /\
  map s_name (present (map r_fpkm_uq (filter is_success results)))
    = success_labels results /\
  List.length (success_labels results)
    = List.length (filter is_success results).
Proof.
  unfold success_labels, present.
  induction 1 as [|r rs Hr _ IH]; simpl; [now repeat split|].
  destruct IH as (IH1 & IH2 & IH3).
  destruct Hr as [-> | (tpm & fpkm & uq & ids & names & -> & N1 & N2 & _)];
    simpl; [now repeat split|].
  rewrite IH1, IH2, IH3, N1, N2. now repeat split.
Qed.

Lemma concat_labels : forall objs m,
  concat objs = Returns m ->
  column_labels m = map s_name (present objs).
Proof.
  intros objs m. unfold concat, column_labels. fold (present objs).
  destruct (present objs) as [|s0 ss] eqn:Hp; [discriminate|].
  match goal with |- context [if ?c then _ else _] => destruct c end.
  - intros H; injection H as <-. simpl. f_equal. rewrite map_map. reflexivity.
  - match goal with |- context [if ?c then _ else _] => destruct c end;
      [discriminate|].
    intros H; injection H as <-. simpl. f_equal. rewrite map_map. reflexivity.
Qed.

Lemma insert0_labels : forall name value m m',
  insert0 name value m = Returns m' ->
  column_labels m' = name :: column_labels m.
Proof.
  intros name value m m'. unfold insert0, column_labels.
  destruct (existsb _ (fr_columns m)); [discriminate|].
  destruct value as [vs|].
  - destruct (_ =? _); [|discriminate]. intros H; now injection H as <-.
  - intros H; now injection H as <-.
Qed.

Lemma present_map_some : forall A (l : list A), present (map (@Some A) l) = l.
Proof. induction l as [|x l IH]; simpl; [|f_equal]; auto. Qed.

Lemma aggregate_data : forall results,
  tpm_data (aggregate results) = present (map r_tpm results) /\
  fpkm_data (aggregate results) = map r_fpkm (filter is_success results) /\
  fpkm_uq_data (aggregate results) = map r_fpkm_uq (filter is_success results).
Proof. intros. unfold aggregate. apply (fold_collect_data results fresh). Qed.

Ltac peel H :=
  match type of H with
  | cbind ?c _ = _ =>
    let m := fresh "m" in
    let E := fresh "E" in
    destruct c as [m|] eqn:E; simpl cbind in H; [|discriminate H]
  end.

(** What [build_matrices] returns when it returns matrices: each is the
    side-by-side arrangement of its accumulator with the two axis columns
    put in front. *)
Lemma build_matrices_some : forall a t f u,
  build_matrices a = Returns (Some (t, f, u)) ->
  exists t0 f0 u0 t1 f1 u1,
    concat (map (@Some Series) (tpm_data a)) = Returns t0 /\
    concat (fpkm_data a) = Returns f0 /\
    concat (fpkm_uq_data a) = Returns u0 /\
    insert0 "gene_name" (new_gene_names a) t0 = Returns t1 /\
    insert0 "gene_id" (new_gene_ids a) t1 = Returns t /\
    insert0 "gene_name" (new_gene_names a) f0 = Returns f1 /\
    insert0 "gene_id" (new_gene_ids a) f1 = Returns f /\
    insert0 "gene_name" (new_gene_names a) u0 = Returns u1 /\
    insert0 "gene_id" (new_gene_ids a) u1 = Returns u.
Proof.
  intros a t f u H. unfold build_matrices in H.
  destruct (tpm_data a) as [|s0 ss] eqn:Ht; [discriminate|].
  rewrite <- Ht in H.
  peel H. peel H. peel H. peel H. peel H. peel H. peel H. peel H. peel H.
  injection H as <- <- <-.
  rewrite <- Ht.
  do 6 eexists. repeat split; eassumption.
Qed.

(** The sample columns of finished matrices, for any stream of results of
    [process_file]. *)
Lemma matrices_share_sample_columns : forall results t f u,
  Forall parsed results ->
  build_matrices (aggregate results) = Returns (Some (t, f, u)) ->
  column_labels t = "gene_id" :: "gene_name" :: success_labels results /\
  column_labels f = "gene_id" :: "gene_name" :: success_labels results /\
  column_labels u = "gene_id" :: "gene_name" :: success_labels results /\
  sample_columns t = success_labels results /\
  sample_columns f = sample_columns t /\
  sample_columns u = sample_columns t /\
  List.length (sample_columns t) = List.length (filter is_success results) /\
  (forall a r, r_tpm r = None -> collect_step a r = a) /\
  (forall a r s,
     r_tpm r = Some s ->
     tpm_data (collect_step a r) = tpm_data a ++ [s] /\
     fpkm_data (collect_step a r) = fpkm_data a ++ [r_fpkm r] /\
     fpkm_uq_data (collect_step a r) = fpkm_uq_data a ++ [r_fpkm_uq r]).
Proof.
  intros results t f u Hall H.
  assert (Hwf : Forall well_formed results).
  { eapply Forall_impl; [|exact Hall]. apply parsed_well_formed. }
  destruct (build_matrices_some _ _ _ _ H)
    as (t0 & f0 & u0 & t1 & f1 & u1 & Ct & Cf & Cu & T1 & T2 & F1 & F2 & U1 & U2).
  destruct (aggregate_data results) as (Dt & Df & Du).
  destruct (present_success_names results Hwf) as (Nf & Nu & Nl).
  assert (Lt : column_labels t = "gene_id" :: "gene_name" :: success_labels results).
  { rewrite (insert0_labels _ _ _ _ T2), (insert0_labels _ _ _ _ T1),
      (concat_labels _ _ Ct), present_map_some, Dt. reflexivity. }
  assert (Lf : column_labels f = "gene_id" :: "gene_name" :: success_labels results).
  { rewrite (insert0_labels _ _ _ _ F2), (insert0_labels _ _ _ _ F1),
      (concat_labels _ _ Cf), Df, Nf. reflexivity. }
  assert (Lu : column_labels u = "gene_id" :: "gene_name" :: success_labels results).
  { rewrite (insert0_labels _ _ _ _ U2), (insert0_labels _ _ _ _ U1),
      (concat_labels _ _ Cu), Du, Nu. reflexivity. }
  unfold sample_columns. rewrite Lt, Lf, Lu. simpl skipn.
  repeat (split; [assumption || reflexivity|]).
  split; [apply collect_step_failure | apply collect_step_success].
Qed.

Lemma small_result_parsed : forall sid, parsed (small_result sid).
Proof.
  intros sid. unfold parsed, small_result.
  exists (serve small_table), "f1", sid, "f1.tsv", DATA_ENDPOINT.
  destruct (process_file_split (serve small_table) "f1" sid "f1.tsv"
              DATA_ENDPOINT) as [(r & t & _ & H) | (e & t & _ & H)];
    eexists; rewrite H; reflexivity.
Qed.

Lemma none_result_parsed : parsed none_result.
Proof.
  exists unreachable, "f1", "S1", "f1.tsv", DATA_ENDPOINT.
  eexists. reflexivity.
Qed.



(** ** C9: the three matrices carry the same sample columns *)

Lemma process_file_success_name : forall env fid sid fn ep r t tpm,
  process_file env fid sid fn ep = (Returns r, t) ->
  r_tpm r = Some tpm -> s_name tpm = sid.
Proof.
  intros env fid sid fn ep r t tpm H Ht.
  destruct (process_file_shape _ _ _ _ _ _ _ H)
    as [-> | (df & keep & Hrect & Hx)]; [discriminate|].
  destruct (extracted_lengths _ _ _ _ _ Hrect Hx)
    as (tpm' & fpkm & uq & ids & names & -> & N1 & _).
  simpl in Ht. now injection Ht as <-.
Qed.

Lemma result_of_parsed : forall env row, parsed (result_of (submit env row)).
Proof.
  intros env row. unfold parsed, result_of, submit.
  exists env, (file_id row), (sample_barcode row), (file_name row), DATA_ENDPOINT.
  destruct (process_file_split env (file_id row) (sample_barcode row)
              (file_name row) DATA_ENDPOINT)
    as [(r & t & _ & H) | (e & t & _ & H)];
    eexists; rewrite H; reflexivity.
Qed.

(** The loop of lines 128-136 ends with the accumulators of its rows'
    results, taken in completion order. *)
Lemma collect_aggregates : forall env done a,
  fst (collect env done a) =
  Returns (fold_left collect_step (results_of env done) a).
Proof.
  intros env done; induction done as [|row rest IH]; intros a;
    [reflexivity|].
  cbn [collect results_of map fold_left].
  destruct (process_file_total env (file_id row) (sample_barcode row)
              (file_name row) DATA_ENDPOINT) as [r Hr].
  rewrite bind_fst. unfold result_of, submit. rewrite Hr. apply IH.
Qed.

Lemma succeeded_result_of : forall o : M event Result,
  succeeded o = is_success (result_of o).
Proof. intros [[r|e] t]; reflexivity. Qed.

Lemma result_of_name : forall env row tpm,
  r_tpm (result_of (submit env row)) = Some tpm ->
  s_name tpm = sample_barcode row.
Proof.
  intros env row tpm. unfold result_of, submit.
  destruct (process_file_split env (file_id row) (sample_barcode row)
              (file_name row) DATA_ENDPOINT)
    as [(r & t & _ & H) | (e & t & _ & H)]; rewrite H; cbn [fst].
  - intros Ht. eapply process_file_success_name; eassumption.
  - discriminate.
Qed.

Lemma success_labels_of_rows : forall env done,
  success_labels (results_of env done) =
  map sample_barcode (filter (fun row => succeeded (submit env row)) done) /\
  List.length (filter is_success (results_of env done)) =
  List.length (filter (fun row => succeeded (submit env row)) done).
Proof.
  intros env done. unfold success_labels, results_of, present.
  induction done as [|row rest [IH1 IH2]]; [now split|].
  cbn [map flat_map filter]. rewrite succeeded_result_of.
  pose proof (result_of_name env row) as Hn.
  unfold is_success.
  destruct (r_tpm (result_of (submit env row))) as [tpm|].
  - cbn [app map List.length]. rewrite (Hn tpm eq_refl).
    now rewrite <- IH1, <- IH2.
  - now split.
Qed.

(** C9.  Whatever the endpoint serves and in whatever order the rows of
    a group complete: when the group's run reaches finished matrices, the
    three matrices have the same sample columns in the same order, namely
    the sample ids of the rows whose call succeeded, in completion order,
    after the leading [gene_id] and [gene_name] columns; their number is
    the number of successes.  The loop keeps a result exactly when its
    first component is present, and then extends the three accumulators
    together by that result's three series. *)
Theorem C9_matrices_share_sample_columns : forall env done a t f u,
  fst (collect env done fresh) = Returns a ->
  build_matrices a = Returns (Some (t, f, u)) ->
  let successes := filter (fun row => succeeded (submit env row)) done in
  column_labels t = "gene_id" :: "gene_name" :: map sample_barcode successes /\
  sample_columns t = map sample_barcode successes /\
  sample_columns f = sample_columns t /\
  sample_columns u = sample_columns t /\
  List.length (sample_columns t) = List.length successes /\
  (forall a r, r_tpm r = None -> collect_step a r = a) /\
  (forall a r s,
     r_tpm r = Some s ->
     tpm_data (collect_step a r) = tpm_data a ++ [s] /\
     fpkm_data (collect_step a r) = fpkm_data a ++ [r_fpkm r] /\
     fpkm_uq_data (collect_step a r) = fpkm_uq_data a ++ [r_fpkm_uq r]).
Proof.
  intros env done a t f u Ha Hb successes.
  rewrite collect_aggregates in Ha. injection Ha as <-.
  fold (aggregate (results_of env done)) in Hb.
  assert (Hall : Forall parsed (results_of env done)).
  { unfold results_of. apply Forall_forall. intros r Hin.
    apply in_map_iff in Hin. destruct Hin as (row & <- & _).
    apply result_of_parsed. }
  destruct (matrices_share_sample_columns _ _ _ _ Hall Hb)
    as (Lt & _ & _ & St & Sf & Su & Ln & Hfail & Hsucc).
  destruct (success_labels_of_rows env done) as (E1 & E2).
  fold successes in E1, E2.
  rewrite <- E1, <- E2.
  repeat (split; [assumption|]). exact Hsucc.
Qed.

Lemma C9_matrices_share_sample_columns_witness :
  exists t f u,
    build_matrices
      (aggregate (results_of mixed_files (rev mixed_site)))
      = Returns (Some (t, f, u)) /\
    sample_columns t = ["S2"; "S1"] /\
    sample_columns f = sample_columns t /\
    sample_columns u = sample_columns t.
Proof.
  eexists _, _, _. split; [vm_compute; reflexivity|].
  pose proof (C9_matrices_share_sample_columns mixed_files (rev mixed_site)
                _ _ _ _ (collect_aggregates _ _ _)
                ltac:(vm_compute; reflexivity)) as H.
  cbv zeta in H. destruct H as (_ & Ht & Hf & Hu & _).
  split; [rewrite Ht; vm_compute; reflexivity|].
  split; assumption.
Defined.

(** ** The worker pool *)

Section ExecutorFacts.
Variables T R E : Type.
Variable call : T -> M E R.
Variable max_workers : nat.

Lemma advance_spec : forall i ws ws' evs dn,
  Executor.advance call i ws = (ws', evs, dn) ->
  Permutation (map (@Executor.job T E) ws)
              (map fst dn ++ map (@Executor.job T E) ws') /\
  Permutation (flat_map (@Executor.todo T E) ws)
              (evs ++ flat_map (@Executor.todo T E) ws') /\
  Forall (fun f => snd f = fst (call (fst f))) dn.
Proof.
  induction i as [|i IH]; intros [|w ws] ws' evs dn H; cbn [Executor.advance] in H.
  - injection H as <- <- <-. repeat split; constructor.
  - destruct (Executor.todo w) as [|ev rest] eqn:Ht; injection H as <- <- <-.
    + cbn [map flat_map app fst Executor.settle]. rewrite Ht.
      split; [apply Permutation_refl|]. split; [apply Permutation_refl|].
      constructor; [reflexivity | constructor].
    + cbn [map flat_map app Executor.job Executor.todo]. rewrite Ht.
      split; [apply Permutation_refl|]. split; [apply Permutation_refl|].
      constructor.
  - injection H as <- <- <-. repeat split; constructor.
  - destruct (Executor.advance call i ws) as [[ws1 evs1] dn1] eqn:Ha.
    injection H as <- <- <-.
    destruct (IH _ _ _ _ Ha) as (P1 & P2 & F).
    cbn [map flat_map]. split; [|split; [|exact F]].
    + apply Permutation_cons_app. exact P1.
    + rewrite P2. apply Permutation_app_swap_app.
Qed.

Lemma step_jobs : forall m (p : Executor.pool T R E),
  Permutation (Executor.jobs (Executor.step call max_workers m p))
              (Executor.jobs p).
Proof.
  intros [|i] p; unfold Executor.step.
  - unfold Executor.start_next.
    destruct (Executor.queued p) as [|t q] eqn:Hq; [apply Permutation_refl|].
    destruct (List.length (Executor.running p) <? max_workers);
      [|apply Permutation_refl].
    unfold Executor.jobs.
    cbn [Executor.queued Executor.running Executor.finished]. rewrite Hq.
    apply Permutation_app_head.
    rewrite map_app. cbn [map Executor.job].
    rewrite <- app_assoc. apply Permutation_refl.
  - destruct (Executor.advance call i (Executor.running p))
      as [[ws evs] dn] eqn:Ha.
    destruct (advance_spec _ _ _ _ _ Ha) as (P1 & _ & _).
    unfold Executor.jobs.
    cbn [Executor.queued Executor.running Executor.finished].
    rewrite map_app, <- app_assoc. apply Permutation_app_head.
    rewrite app_assoc. apply Permutation_app_tail.
    apply Permutation_sym. exact P1.
Qed.

Lemma step_agenda : forall m (p : Executor.pool T R E),
  Permutation (Executor.agenda call (Executor.step call max_workers m p))
              (Executor.agenda call p).
Proof.
  intros [|i] p; unfold Executor.step.
  - unfold Executor.start_next.
    destruct (Executor.queued p) as [|t q] eqn:Hq; [apply Permutation_refl|].
    destruct (List.length (Executor.running p) <? max_workers);
      [|apply Permutation_refl].
    unfold Executor.agenda.
    cbn [Executor.queued Executor.running Executor.log]. rewrite Hq.
    apply Permutation_app_head.
    rewrite flat_map_app. cbn [flat_map Executor.todo].
    rewrite app_nil_r, <- app_assoc. apply Permutation_refl.
  - destruct (Executor.advance call i (Executor.running p))
      as [[ws evs] dn] eqn:Ha.
    destruct (advance_spec _ _ _ _ _ Ha) as (_ & P2 & _).
    unfold Executor.agenda.
    cbn [Executor.queued Executor.running Executor.log].
    rewrite <- app_assoc. apply Permutation_app_head.
    rewrite app_assoc. apply Permutation_app_tail.
    apply Permutation_sym. exact P2.
Qed.

Lemma step_settled : forall m (p : Executor.pool T R E),
  Forall (fun f => snd f = fst (call (fst f))) (Executor.finished p) ->
  Forall (fun f => snd f = fst (call (fst f)))
         (Executor.finished (Executor.step call max_workers m p)).
Proof.
  intros [|i] p H; unfold Executor.step.
  - unfold Executor.start_next.
    destruct (Executor.queued p) as [|t q]; [exact H|].
    destruct (List.length (Executor.running p) <? max_workers); exact H.
  - destruct (Executor.advance call i (Executor.running p))
      as [[ws evs] dn] eqn:Ha.
    destruct (advance_spec _ _ _ _ _ Ha) as (_ & _ & F).
    cbn [Executor.finished]. apply Forall_app. now split.
Qed.

Lemma run_moves_invariant : forall ms (p : Executor.pool T R E),
  Forall (fun f => snd f = fst (call (fst f))) (Executor.finished p) ->
  Permutation (Executor.jobs (Executor.run_moves call max_workers ms p))
              (Executor.jobs p) /\
  Permutation (Executor.agenda call (Executor.run_moves call max_workers ms p))
              (Executor.agenda call p) /\
  Forall (fun f => snd f = fst (call (fst f)))
         (Executor.finished (Executor.run_moves call max_workers ms p)).
Proof.
  unfold Executor.run_moves.
  induction ms as [|m ms IH]; intros p H; cbn [fold_left].
  - repeat split; [apply Permutation_refl | apply Permutation_refl | exact H].
  - destruct (IH (Executor.step call max_workers m p) (step_settled m p H))
      as (P1 & P2 & F).
    split; [|split; [|exact F]].
    + rewrite P1. apply step_jobs.
    + rewrite P2. apply step_agenda.
Qed.

Lemma drain_spec : forall p : Executor.pool T R E,
  Forall (fun f => snd f = fst (call (fst f))) (Executor.finished p) ->
  Executor.queued (Executor.drain call p) = [] /\
  Executor.running (Executor.drain call p) = [] /\
  map fst (Executor.finished (Executor.drain call p)) = Executor.jobs p /\
  Executor.log (Executor.drain call p) = Executor.agenda call p /\
  Forall (fun f => snd f = fst (call (fst f)))
         (Executor.finished (Executor.drain call p)).
Proof.
  intros p H. unfold Executor.drain, Executor.jobs, Executor.agenda.
  cbn [Executor.queued Executor.running Executor.finished Executor.log].
  split; [reflexivity|]. split; [reflexivity|]. split; [|split; [reflexivity|]].
  - rewrite !map_app, !map_map. cbn [Executor.settle fst].
    now rewrite map_id.
  - apply Forall_app. split; [exact H|]. apply Forall_app. split.
    + apply Forall_forall. intros f Hf. apply in_map_iff in Hf.
      destruct Hf as (w & <- & _). reflexivity.
    + apply Forall_forall. intros f Hf. apply in_map_iff in Hf.
      destruct Hf as (t & <- & _). reflexivity.
Qed.

Lemma settled_map : forall fs : list (T * completion R),
  Forall (fun f => snd f = fst (call (fst f))) fs ->
  fs = map (Executor.settle call) (map fst fs).
Proof.
  induction fs as [|[t c] fs IH]; intros F; [reflexivity|].
  apply Forall_cons_iff in F. destruct F as [Hc Hrest].
  cbn [fst snd] in Hc. cbn [map fst].
  rewrite <- IH by assumption.
  unfold Executor.settle. now rewrite Hc.
Qed.

(** Whatever the scheduler does, the pool ends with every call done: no
    call is left queued or running, the futures are those of the
    submitted calls, each holding the outcome of its call, and the events
    are those of the calls. *)
Lemma run_spec : forall ms (tasks : list T),
  Executor.queued (Executor.run call max_workers ms tasks) = [] /\
  Executor.running (Executor.run call max_workers ms tasks) = [] /\
  Permutation (Executor.finished (Executor.run call max_workers ms tasks))
              (map (Executor.settle call) tasks) /\
  Permutation (Executor.log (Executor.run call max_workers ms tasks))
              (flat_map (fun t => snd (call t)) tasks).
Proof.
  intros ms tasks. unfold Executor.run.
  assert (H0 : Forall (fun f : T * completion R => snd f = fst (call (fst f)))
                 (Executor.finished (Executor.submit_all R E tasks)))
    by constructor.
  destruct (run_moves_invariant ms _ H0) as (P1 & P2 & F).
  destruct (drain_spec _ F) as (Hq & Hr & Hj & Hl & F').
  split; [exact Hq|]. split; [exact Hr|]. split.
  - rewrite (settled_map _ F'). apply Permutation_map. rewrite Hj, P1.
    unfold Executor.jobs, Executor.submit_all. reflexivity.
  - rewrite Hl, P2. unfold Executor.agenda, Executor.submit_all.
    reflexivity.
Qed.
End ExecutorFacts.

Lemma remove_nth_permutation : forall A (fs : list A) k d,
  k < List.length fs ->
  Permutation (nth k fs d :: firstn k fs ++ skipn (S k) fs) fs.
Proof.
  intros A fs; induction fs as [|x fs IH]; intros k d Hk;
    [simpl in Hk; lia|].
  destruct k as [|k]; [apply Permutation_refl|].
  cbn [nth firstn skipn app]. simpl in Hk.
  rewrite perm_swap. apply perm_skip. apply IH. lia.
Qed.

(** [as_completed] hands over every future exactly once. *)
Lemma yield_from_permutation : forall A n picks (fs : list A),
  n = List.length fs ->
  Permutation (Executor.yield_from n picks fs) fs.
Proof.
  intros A n; induction n as [|n IH]; intros picks fs Hn.
  - destruct fs; [constructor | discriminate].
  - destruct fs as [|f0 fs']; [discriminate|].
    cbn [Executor.yield_from].
    remember (f0 :: fs') as fs eqn:Hfs.
    remember (hd 0 picks mod List.length fs) as k eqn:Ek.
    assert (Hk : k < List.length fs).
    { subst k. apply Nat.mod_upper_bound. rewrite <- Hn. discriminate. }
    pose proof (remove_nth_permutation A fs k f0 Hk) as P.
    eapply Permutation_trans; [|exact P].
    apply perm_skip. apply IH.
    apply Permutation_length in P. cbn [List.length] in P. lia.
Qed.

Lemma as_completed_permutation : forall A picks (fs : list A),
  Permutation (Executor.as_completed picks fs) fs.
Proof. intros. now apply yield_from_permutation. Qed.

(** ** C3: every call's result reaches the collecting loop once *)

Lemma handed_over_permutation : forall env w tm group,
  Permutation (handed_over env w tm group)
              (map (fun row => (row, fst (submit env row))) group).
Proof.
  intros env w tm group. unfold handed_over, pool_of.
  eapply Permutation_trans; [apply as_completed_permutation|].
  apply (run_spec _ _ _ (submit env) w (moves tm) group).
Qed.

Lemma handed_over_settled : forall env w tm group,
  handed_over env w tm group =
  map (fun row => (row, fst (submit env row))) (yield_order env w tm group).
Proof.
  intros env w tm group. unfold yield_order.
  apply (settled_map _ _ _ (submit env)).
  apply Forall_forall. intros f Hf.
  apply (Permutation_in _ (handed_over_permutation env w tm group)) in Hf.
  apply in_map_iff in Hf. destruct Hf as (row & <- & _). reflexivity.
Qed.

Lemma yield_order_permutation : forall env w tm group,
  Permutation (yield_order env w tm group) group.
Proof.
  intros env w tm group. unfold yield_order.
  eapply Permutation_trans;
    [apply Permutation_map, handed_over_permutation|].
  rewrite map_map. cbn [fst]. rewrite map_id. apply Permutation_refl.
Qed.

(** The loop over futures that hold the outcomes of their calls. *)
Lemma collect_results_settled : forall env done a,
  collect_results (map (fun row => (row, fst (submit env row))) done) a =
  Returns (fold_left collect_step (results_of env done) a).
Proof.
  intros env done; induction done as [|row rest IH]; intros a;
    [reflexivity|].
  destruct (process_file_total env (file_id row) (sample_barcode row)
              (file_name row) DATA_ENDPOINT) as [r Hr].
  change (fst (submit env row) = Returns r) in Hr.
  change (results_of env (row :: rest))
    with (result_of (submit env row) :: results_of env rest).
  cbn [map collect_results fold_left]. unfold result_of. rewrite Hr.
  apply IH.
Qed.

Lemma thread_pool_executor_positive : forall w,
  0 < w -> thread_pool_executor w = Returns tt.
Proof.
  intros w Hw. unfold thread_pool_executor.
  destruct (Nat.eqb_spec w 0); [lia | reflexivity].
Qed.

(** Lines 120-136 with a pool of positive size. *)
Lemma download_group_eq : forall env w tm group,
  0 < w ->
  download_group env w tm group =
  (Returns (aggregate (results_of env (yield_order env w tm group))),
   Executor.log (pool_of env w tm group)).
Proof.
  intros env w tm group Hw. unfold download_group.
  rewrite (thread_pool_executor_positive w Hw), bind_lift_returns.
  fold (pool_of env w tm group). fold (handed_over env w tm group).
  now rewrite handed_over_settled, collect_results_settled.
Qed.

Lemma future_succeeded_settled : forall env row,
  future_succeeded (row, fst (submit env row)) = succeeded (submit env row).
Proof. reflexivity. Qed.

Lemma filter_settled : forall env (f : bool -> bool) rows,
  List.length (filter (fun x => f (future_succeeded x))
                 (map (fun row => (row, fst (submit env row))) rows)) =
  List.length (filter (fun row => f (succeeded (submit env row))) rows).
Proof.
  intros env f rows; induction rows as [|row rows IH]; [reflexivity|].
  cbn [map filter]. rewrite future_succeeded_settled.
  destruct (f (succeeded (submit env row))); cbn [List.length]; now rewrite IH.
Qed.

Lemma present_length : forall results,
  List.length (present (map r_tpm results)) =
  List.length (filter is_success results).
Proof.
  unfold present. induction results as [|r rs IH]; [reflexivity|].
  cbn [map flat_map filter]. unfold is_success at 1.
  destruct (r_tpm r); cbn [app List.length]; now rewrite IH.
Qed.

(** C3.  A batch of [N] records, [K] of whose calls fail, goes through a
    pool of any positive size, under any interleaving of the workers and
    any order of handing over.  When the block of lines 120-136 is left no
    call is queued or running; the loop of line 128 has received one
    future for each record, each holding the outcome of that record's
    call: [N] in all, [N - K] of them successes and [K] failures; the
    loop has run through all of them without an exception; and each of the
    three accumulators has grown by exactly [N - K] series, those of the
    successful records in the order their futures were handed over. *)
Theorem C3_pool_yields_every_result :
  forall env max_workers tm (batch : list SampleRecord) N K,
  0 < max_workers ->
  N = List.length batch ->
  K = List.length (filter (fun row => negb (succeeded (submit env row))) batch) ->
  Executor.queued (pool_of env max_workers tm batch) = [] /\
  Executor.running (pool_of env max_workers tm batch) = [] /\
  Permutation (handed_over env max_workers tm batch)
              (map (fun row => (row, fst (submit env row))) batch) /\
  List.length (handed_over env max_workers tm batch) = N /\
  List.length (filter future_succeeded (handed_over env max_workers tm batch))
    = N - K /\
  List.length (filter (fun f => negb (future_succeeded f))
                 (handed_over env max_workers tm batch)) = K /\
  exists a,
    download_group env max_workers tm batch
      = (Returns a, Executor.log (pool_of env max_workers tm batch)) /\
    collect_results (handed_over env max_workers tm batch) fresh = Returns a /\
    List.length (tpm_data a) = N - K /\
    List.length (fpkm_data a) = N - K /\
    List.length (fpkm_uq_data a) = N - K /\
    map s_name (tpm_data a) =
      map sample_barcode
        (filter (fun row => succeeded (submit env row))
                (yield_order env max_workers tm batch)).
Proof.
  intros env w tm batch N K Hw -> ->.
  pose proof (handed_over_permutation env w tm batch) as HP.
  pose proof (yield_order_permutation env w tm batch) as HY.
  pose proof (filter_length (fun row => succeeded (submit env row)) batch)
    as Hsplit.
  assert (Hsucc : List.length (filter (fun row => succeeded (submit env row))
                                 (yield_order env w tm batch))
                  = List.length batch
                    - List.length (filter (fun row => negb (succeeded (submit env row)))
                                     batch)).
  { rewrite (filter_permutation_length _ _ _ _ HY). lia. }
  destruct (run_spec _ _ _ (submit env) w (moves tm) batch) as (Hq & Hr & _ & _).
  split; [exact Hq|]. split; [exact Hr|]. split; [exact HP|].
  split; [rewrite (Permutation_length HP); apply length_map|].
  split.
  { rewrite (filter_permutation_length _ _ _ _ HP).
    rewrite (filter_settled env (fun b => b)). lia. }
  split.
  { rewrite (filter_permutation_length _ _ _ _ HP).
    apply (filter_settled env negb). }
  exists (aggregate (results_of env (yield_order env w tm batch))).
  split; [now apply download_group_eq|].
  split; [now rewrite handed_over_settled, collect_results_settled|].
  destruct (fold_collect_data (results_of env (yield_order env w tm batch)) fresh)
    as (Dt & Df & Du).
  destruct (success_labels_of_rows env (yield_order env w tm batch))
    as (Hnames & Hcount).
  unfold aggregate. rewrite Dt, Df, Du. cbn [fresh tpm_data fpkm_data fpkm_uq_data app].
  rewrite !length_map, present_length, Hcount, Hsucc.
  repeat (split; [reflexivity|]).
  exact Hnames.
Qed.

Lemma C3_pool_yields_every_result_witness :
  List.length (handed_over mixed_files 25 overlapping batch_of_three) = 3 /\
  List.length (filter future_succeeded
                 (handed_over mixed_files 25 overlapping batch_of_three)) = 2.
Proof.
  destruct (C3_pool_yields_every_result mixed_files 25 overlapping
              batch_of_three 3 1 ltac:(lia) eq_refl
              ltac:(vm_compute; reflexivity))
    as (_ & _ & _ & HN & HS & _).
  split; [exact HN | exact HS].
Defined.

(** ** C6: no success, one success *)

Lemma label_eqb_refl : forall l, label_eqb l l = true.
Proof.
  intros [i|k]; simpl; [apply Nat.eqb_refl|].
  destruct (list_eq_dec string_dec k k); congruence.
Qed.

Lemma index_eqb_refl : forall ix, index_eqb ix ix = true.
Proof.
  induction ix as [|l ix IH]; simpl; [reflexivity|].
  now rewrite label_eqb_refl, IH.
Qed.

Lemma concat_single : forall s,
  concat [Some s] =
  Returns (mkFrame (s_index s) [(s_name s, map (@Some string) (s_values s))]).
Proof.
  intros s. unfold concat; simpl. now rewrite index_eqb_refl.
Qed.

Lemma aggregate_no_success : forall results,
  filter is_success results = [] -> aggregate results = fresh.
Proof.
  intros results H. unfold aggregate.
  now rewrite fold_collect_successes, H.
Qed.

Lemma aggregate_one_success : forall results s,
  filter is_success results = [s] -> aggregate results = collect_step fresh s.
Proof.
  intros results s H. unfold aggregate.
  now rewrite fold_collect_successes, H.
Qed.

(** Putting the two axis columns in front of a one-column matrix. *)
Lemma insert_gene_name : forall idx nm col names,
  nm <> "gene_name" ->
  List.length names = List.length idx ->
  insert0 "gene_name" (Some names) (mkFrame idx [(nm, col)]) =
  Returns (mkFrame idx [("gene_name", map (@Some string) names); (nm, col)]).
Proof.
  intros idx nm col names H L. unfold insert0. simpl.
  apply String.eqb_neq in H. apply Nat.eqb_eq in L. now rewrite H, L.
Qed.

Lemma insert_gene_id : forall idx nm col c1 ids,
  nm <> "gene_id" ->
  List.length ids = List.length idx ->
  insert0 "gene_id" (Some ids) (mkFrame idx [("gene_name", c1); (nm, col)]) =
  Returns (mkFrame idx [("gene_id", map (@Some string) ids);
                        ("gene_name", c1); (nm, col)]).
Proof.
  intros idx nm col c1 ids H L. unfold insert0. simpl.
  apply String.eqb_neq in H. apply Nat.eqb_eq in L. now rewrite H, L.
Qed.

(** C6 as stated fails for a sample whose id is the name of an axis
    column: the only success of the stream is a sample called [gene_id];
    putting the [gene_id] column in front of its matrix is refused, and
    no matrices result. *)
Lemma C6_counterexample :
  parsed (small_result "gene_id") /\
  filter is_success [none_result; small_result "gene_id"]
    = [small_result "gene_id"] /\
  build_matrices (aggregate [none_result; small_result "gene_id"])
    = Raises (ValueError "cannot insert column, already exists").
Proof.
  split; [apply small_result_parsed|]. split; vm_compute; reflexivity.
Qed.

(** C6 (amended).  Over results of [process_file]: with no success the
    group ends without matrices; with exactly one success whose sample id
    is neither [gene_id] nor [gene_name], the three matrices are that
    sample's row labels with the columns [gene_id], [gene_name] and the
    sample's own column, the axis columns being the sample's gene ids and
    gene names. *)
Theorem C6_empty_and_single_success : forall results,
  Forall parsed results ->
  (filter is_success results = [] ->
   build_matrices (aggregate results) = Returns None) /\
  (forall s,
     filter is_success results = [s] ->
     exists tpm fpkm uq ids names,
       s = mkResult (Some tpm) (Some fpkm) (Some uq) (Some ids) (Some names) /\
       (s_name tpm <> "gene_id" -> s_name tpm <> "gene_name" ->
        let matrix := fun v : Series =>
          mkFrame (s_index tpm)
            [("gene_id", map (@Some string) ids);
             ("gene_name", map (@Some string) names);
             (s_name tpm, map (@Some string) (s_values v))] in
        build_matrices (aggregate results)
          = Returns (Some (matrix tpm, matrix fpkm, matrix uq)))).
Proof.
  intros results Hall. split.
  - intros H. now rewrite (aggregate_no_success results H).
  - intros s H.
    assert (Hin : In s (filter is_success results)) by (rewrite H; now left).
    apply filter_In in Hin. destruct Hin as [Hin Hs].
    rewrite Forall_forall in Hall.
    destruct (parsed_well_formed s (Hall s Hin))
      as [-> | (tpm & fpkm & uq & ids & names & -> & N1 & N2 & I1 & I2 & L1 & L2)];
      [discriminate|].
    exists tpm, fpkm, uq, ids, names. split; [reflexivity|].
    intros G1 G2 matrix. rewrite (aggregate_one_success results _ H).
    unfold build_matrices, collect_step, fresh. simpl.
    rewrite !concat_single. simpl cbind. rewrite N1, N2, I1, I2.
    assert (L3 : List.length ids = List.length (s_index tpm)) by congruence.
    assert (L4 : List.length names = List.length (s_index tpm)) by congruence.
    rewrite !(insert_gene_name _ _ _ _ G2 L4). simpl cbind.
    rewrite !(insert_gene_id _ _ _ _ _ G1 L3). reflexivity.
Qed.

Lemma C6_empty_and_single_success_witness :
  build_matrices (aggregate [none_result; none_result]) = Returns None /\
  exists tpm fpkm uq ids names,
    small_result "S1"
      = mkResult (Some tpm) (Some fpkm) (Some uq) (Some ids) (Some names) /\
    build_matrices (aggregate [none_result; small_result "S1"])
      = Returns (Some
          (mkFrame (s_index tpm)
             [("gene_id", map (@Some string) ids);
              ("gene_name", map (@Some string) names);
              ("S1", map (@Some string) (s_values tpm))],
           mkFrame (s_index tpm)
             [("gene_id", map (@Some string) ids);
              ("gene_name", map (@Some string) names);
              ("S1", map (@Some string) (s_values fpkm))],
           mkFrame (s_index tpm)
             [("gene_id", map (@Some string) ids);
              ("gene_name", map (@Some string) names);
              ("S1", map (@Some string) (s_values uq))])).
Proof.
  split.
  - apply (proj1 (C6_empty_and_single_success [none_result; none_result]
                    (Forall_cons _ none_result_parsed
                       (Forall_cons _ none_result_parsed (Forall_nil _))))).
    reflexivity.
  - destruct (proj2 (C6_empty_and_single_success
                       [none_result; small_result "S1"]
                       (Forall_cons _ none_result_parsed
                          (Forall_cons _ (small_result_parsed "S1")
                             (Forall_nil _))))
                    (small_result "S1") ltac:(vm_compute; reflexivity))
      as (tpm & fpkm & uq & ids & names & Hs & Hm).
    exists tpm, fpkm, uq, ids, names. split; [exact Hs|].
    assert (Hn : s_name tpm = "S1").
    { vm_compute in Hs. now injection Hs as <- _ _ _ _. }
    assert (H1 : s_name tpm <> "gene_id") by (rewrite Hn; discriminate).
    assert (H2 : s_name tpm <> "gene_name") by (rewrite Hn; discriminate).
    pose proof (Hm H1 H2) as Hm'. cbv zeta in Hm'.
    rewrite Hn in Hm'. exact Hm'.
Defined.

(** ** C10: a record of both groups *)


Lemma fetches_app : forall url t1 t2,
  fetches url (t1 ++ t2) = fetches url t1 + fetches url t2.
Proof. intros. unfold fetches. now rewrite filter_app, length_app. Qed.

(** After the request, [process_file] only prints. *)
Lemma extract_fetches : forall url L fid sid fn df,
  fetches url (snd (extract L fid sid fn df)) = 0.
Proof.
  intros url L fid sid fn df.
  destruct (extract L fid sid fn df) as [[r|e] t] eqn:H.
  - apply extract_returns in H.
    destruct H as [(_ & -> & _) | (-> & _)]; reflexivity.
  - revert H. unfold extract.
    destruct (getitem df "gene_id") as [g|] eqn:Hg;
      [rewrite bind_lift_returns
      | rewrite bind_lift_raises; intros H; now injection H as _ <-].
    destruct (str_startswith L "N_" g) as [starts|];
      [rewrite bind_lift_returns
      | rewrite bind_lift_raises; intros H; now injection H as _ <-].
    destruct (invert starts) as [keep|];
      [rewrite bind_lift_returns
      | rewrite bind_lift_raises; intros H; now injection H as _ <-].
    destruct (forallb (fun col => has_column col (mask_rows keep df))
                      required_columns) eqn:Hall; simpl negb; cbv iota.
    + simpl in Hall. rewrite !has_column_mask_rows in Hall.
      repeat (apply andb_prop in Hall; destruct Hall as [? Hall]).
      destruct (has_column_getitem "gene_name" df) as [n Hn]; [assumption|].
      destruct (has_column_getitem "tpm_unstranded" df) as [tc Htc]; [assumption|].
      destruct (has_column_getitem "fpkm_unstranded" df) as [fc Hfc]; [assumption|].
      destruct (has_column_getitem "fpkm_uq_unstranded" df) as [uc Huc]; [assumption|].
      rewrite (getitem_mask_rows keep _ _ _ Hg).
      rewrite (getitem_mask_rows keep _ _ _ Hn).
      rewrite (getitem_mask_rows keep _ _ _ Htc).
      rewrite (getitem_mask_rows keep _ _ _ Hfc).
      rewrite (getitem_mask_rows keep _ _ _ Huc).
      cbn. discriminate.
    + cbn. discriminate.
Qed.

Lemma parse_payload_fetches : forall url env fid sid fn content,
  fetches url (snd (parse_payload env fid sid fn content)) = 0.
Proof.
  intros. unfold parse_payload. rewrite bind_snd. simpl.
  destruct (cbind _ _); [apply extract_fetches | reflexivity].
Qed.

Lemma process_file_fetches : forall url env fid sid fn ep,
  fetches url (snd (process_file env fid sid fn ep)) =
  if String.eqb (data_url ep fid) url then 1 else 0.
Proof.
  intros url env fid sid fn ep. unfold process_file, try_except.
  rewrite process_file_body_eq.
  destruct (fetch env (data_url ep fid)) as [content|e].
  - pose proof (parse_payload_fetches url env fid sid fn content) as Hp.
    destruct (parse_payload env fid sid fn content) as [[r|e] t]; simpl in *.
    + unfold fetches in *. simpl.
      destruct (String.eqb (data_url ep fid) url); simpl; lia.
    + change (Get (data_url ep fid) :: t ++ [Print (ErrorProcessing fid e)])
        with ([Get (data_url ep fid)] ++ t ++ [Print (ErrorProcessing fid e)]).
      rewrite !fetches_app, Hp. unfold fetches; simpl.
      destruct (String.eqb (data_url ep fid) url); reflexivity.
  - unfold fetches; simpl.
    destruct (String.eqb (data_url ep fid) url); reflexivity.
Qed.


(** The collecting loop runs through all its rows and requests each row's
    file once. *)
Lemma collect_total : forall env done a,
  (exists a', fst (collect env done a) = Returns a') /\
  forall url, fetches url (snd (collect env done a)) = requests url done.
Proof.
  intros env done; induction done as [|row rest IH]; intros a.
  - split; [now exists a | reflexivity].
  - cbn [collect]. unfold submit.
    destruct (process_file_total env (file_id row) (sample_barcode row)
                (file_name row) DATA_ENDPOINT) as [r Hr].
    split.
    + rewrite bind_fst, Hr. apply IH.
    + intros url. rewrite bind_snd, Hr, fetches_app, process_file_fetches.
      rewrite (proj2 (IH (collect_step a r)) url).
      unfold requests, row_url. cbn [filter].
      destruct (String.eqb (data_url DATA_ENDPOINT (file_id row)) url);
        reflexivity.
Qed.

Lemma requests_permutation : forall url g1 g2,
  Permutation g1 g2 -> requests url g1 = requests url g2.
Proof. intros. unfold requests. now apply filter_permutation_length. Qed.

(** ** C2: failures are contained in the sample's own call *)

(** C2.  Whatever the endpoint, the decompressor and the reader do,
    [process_file] returns: it never completes by raising.  When any stage
    of its body raises (the download, the frame decoding, the table
    reader, or the extraction), the call returns the all-[None] tuple and
    its output ends with the diagnostic for that exception.  Hence the
    loop that collects a batch's results runs through the whole batch. *)
Theorem C2_failures_contained : forall env fid sid fn ep,
  (exists r t, process_file env fid sid fn ep = (Returns r, t)) /\
  (forall e t, process_file env fid sid fn ep <> (Raises e, t)) /\
  (forall e t,
     process_file_body env fid sid fn ep = (Raises e, t) ->
     process_file env fid sid fn ep =
       (Returns none_result, t ++ [Print (ErrorProcessing fid e)])) /\
  (forall e,
     fetch env (data_url ep fid) = Raises e ->
     process_file env fid sid fn ep =
       (Returns none_result,
        [Get (data_url ep fid); Print (ErrorProcessing fid e)])) /\
  (forall content e,
     fetch env (data_url ep fid) = Returns content ->
     frame_decode env content = Raises e ->
     process_file env fid sid fn ep =
       (Returns none_result,
        [Get (data_url ep fid); Print (ErrorProcessing fid e)])) /\
  (forall content raw e,
     fetch env (data_url ep fid) = Returns content ->
     frame_decode env content = Returns raw ->
     read_csv raw = Raises e ->
     process_file env fid sid fn ep =
       (Returns none_result,
        [Get (data_url ep fid); Print (ErrorProcessing fid e)])) /\
  (forall content raw df e t,
     fetch env (data_url ep fid) = Returns content ->
     frame_decode env content = Returns raw ->
     read_csv raw = Returns df ->
     extract (lexicon env) fid sid fn df = (Raises e, t) ->
     process_file env fid sid fn ep =
       (Returns none_result,
        Get (data_url ep fid) :: t ++ [Print (ErrorProcessing fid e)])) /\
  (forall done a, exists a', fst (collect env done a) = Returns a').
Proof.
  intros env fid sid fn ep.
  assert (Hret : exists r t, process_file env fid sid fn ep = (Returns r, t)).
  { destruct (process_file_split env fid sid fn ep)
      as [(r & t & _ & H) | (e & t & _ & H)]; rewrite H; eauto. }
  assert (Hraise : forall e t,
     process_file_body env fid sid fn ep = (Raises e, t) ->
     process_file env fid sid fn ep =
       (Returns none_result, t ++ [Print (ErrorProcessing fid e)])).
  { intros e t Hb. unfold process_file, try_except. now rewrite Hb. }
  split; [exact Hret|]. split.
  { intros e t'. destruct Hret as (r & t & ->). discriminate. }
  split; [exact Hraise|].
  split; [|split; [|split; [|split]]].
  - intros e Hf. apply (Hraise e [Get (data_url ep fid)]).
    rewrite process_file_body_eq. now rewrite Hf.
  - intros content e Hf Hd. apply (Hraise e [Get (data_url ep fid)]).
    rewrite process_file_body_eq, Hf. unfold parse_payload. now rewrite Hd.
  - intros content raw e Hf Hd Hr. apply (Hraise e [Get (data_url ep fid)]).
    rewrite process_file_body_eq, Hf. unfold parse_payload.
    now rewrite Hd; simpl cbind; rewrite Hr.
  - intros content raw df e t Hf Hd Hr Hx.
    apply (Hraise e (Get (data_url ep fid) :: t)).
    rewrite process_file_body_eq, Hf. unfold parse_payload.
    rewrite Hd; simpl cbind; rewrite Hr, bind_lift_returns, Hx. reflexivity.
  - intros done a. apply collect_total.
Qed.

Lemma C2_failures_contained_witness :
  process_file unreachable "f1" "S1" "f1.tsv" DATA_ENDPOINT =
  (Returns none_result,
   [Get (data_url DATA_ENDPOINT "f1");
    Print (ErrorProcessing "f1" (RequestException "Read timed out"))]).
Proof.
  apply (proj1 (proj2 (proj2 (proj2
           (C2_failures_contained unreachable "f1" "S1" "f1.tsv" DATA_ENDPOINT))))).
  reflexivity.
Defined.

Lemma run_group_fetches : forall env order site label group url,
  Permutation (order group) group ->
  fetches url (snd (run_group env order site label group)) = requests url group.
Proof.
  intros env order site label group url Hperm.
  destruct group as [|row rest] eqn:Hg; [reflexivity|]. rewrite <- Hg in *.
  assert (Hrun : run_group env order site label group =
    bind (emit (Print (Downloading label)))
      (fun _ => bind (collect env (order group) fresh)
         (fun a => bind (lift (build_matrices a))
            (fun built =>
               match built with
               | None => emit (Print (NoValidData label))
               | Some (tpm_matrix, fpkm_matrix, fpkm_uq_matrix) =>
                 bind (emit (ToCsv (csv_path (output_dir site) label "tpm") tpm_matrix))
                   (fun _ => bind (emit (ToCsv (csv_path (output_dir site) label "fpkm") fpkm_matrix))
                      (fun _ => bind (emit (ToCsv (csv_path (output_dir site) label "fpkm_uq") fpkm_uq_matrix))
                         (fun _ => emit (Print (SavedCsvs label)))))
               end)))).
  { rewrite Hg. reflexivity. }
  rewrite Hrun. rewrite bind_emit. cbn [snd].
  change (fetches url (Print (Downloading label) :: ?t)) with (fetches url t).
  rewrite bind_snd, fetches_app.
  destruct (collect_total env (order group) fresh) as [[a Ha] Hf].
  rewrite Ha, Hf, (requests_permutation url _ _ Hperm).
  rewrite bind_snd. simpl.
  destruct (build_matrices a) as [[[[t f] u]|]|];
    unfold fetches; simpl; lia.
Qed.

Lemma run_site_fetches : forall env order site sample_df url,
  sample_df <> [] ->
  (forall rows, Permutation (order rows) rows) ->
  fetches url (snd (run_site env order site sample_df)) =
  requests url (tumor_sample_df sample_df) +
  match fst (run_group env order site "tumor" (tumor_sample_df sample_df)) with
  | Returns _ => requests url (normal_sample_df sample_df)
  | Raises _ => 0
  end.
Proof.
  intros env order site sample_df url Hne Hperm.
  unfold run_site. destruct sample_df as [|row rest] eqn:Hs; [contradiction|].
  rewrite <- Hs. rewrite !bind_emit. cbn [snd].
  change (fetches url (MakeDirs ?d :: Print ?a :: Print ?b :: ?t))
    with (fetches url t).
  rewrite bind_snd, fetches_app, run_group_fetches by apply Hperm.
  destruct (fst (run_group env order site "tumor" (tumor_sample_df sample_df)));
    [now rewrite run_group_fetches by apply Hperm | reflexivity].
Qed.

Lemma requests_positive : forall row group,
  In row group -> 1 <= requests (row_url row) group.
Proof.
  intros row group Hin. unfold requests.
  assert (H : In row (filter (fun r => String.eqb (row_url r) (row_url row)) group)).
  { apply filter_In. split; [assumption | apply String.eqb_refl]. }
  destruct (filter _ group); [contradiction | simpl; lia].
Qed.

(** C10 as stated fails when the tumor group's matrices cannot be
    assembled: the tumor group holds a one-gene sample and the two-gene
    sample that is also typed normal; the axis taken from the first does
    not fit the matrix, the run ends there, and the second sample's file
    has been requested once only. *)
Lemma C10_counterexample :
  ~ (forall env order site sample_df row,
       (forall rows, Permutation (order rows) rows) ->
       In row sample_df ->
       contains_ignoring_case "tumor" (sample_type row) ->
       contains_ignoring_case "normal" (sample_type row) ->
       2 <= fetches (row_url row) (snd (run_site env order site sample_df))).
Proof.
  intros claim.
  specialize (claim mixed_files in_order "Lung" mixed_site
                (mkSample "S2" "Tumor Adjacent Normal" "TCGA-X" "f2" "f2.tsv")).
  assert (H : 2 <= 1); [|lia].
  apply claim.
  - intros rows. apply Permutation_refl.
  - right; left; reflexivity.
  - exists "", "Tumor", " Adjacent Normal". split; reflexivity.
  - exists "Tumor Adjacent ", "Normal", "". split; reflexivity.
Qed.

(** C10 (amended).  A record whose sample type contains both "tumor" and
    "normal" up to case is in both groups, and each group's run requests
    its file once for each of its rows that point at it, so at least once
    per group; when the tumor group's run ends without an exception the
    site's run has requested the file for the rows of both groups, at
    least twice. *)
Theorem C10_record_in_both_groups : forall env order site sample_df row,
  (forall rows, Permutation (order rows) rows) ->
  In row sample_df ->
  contains_ignoring_case "tumor" (sample_type row) ->
  contains_ignoring_case "normal" (sample_type row) ->
  let tumor := tumor_sample_df sample_df in
  let normal := normal_sample_df sample_df in
  In row tumor /\ In row normal /\
  fetches (row_url row) (snd (run_group env order site "tumor" tumor))
    = requests (row_url row) tumor /\
  fetches (row_url row) (snd (run_group env order site "normal" normal))
    = requests (row_url row) normal /\
  1 <= requests (row_url row) tumor /\
  1 <= requests (row_url row) normal /\
  (forall u,
     fst (run_group env order site "tumor" tumor) = Returns u ->
     fetches (row_url row) (snd (run_site env order site sample_df))
       = requests (row_url row) tumor + requests (row_url row) normal /\
     2 <= fetches (row_url row) (snd (run_site env order site sample_df))).
Proof.
  intros env order site sample_df row Hperm Hin Ht Hn tumor normal.
  assert (Hit : In row tumor).
  { apply filter_In. split; [assumption | now apply in_group_iff]. }
  assert (Hinn : In row normal).
  { apply filter_In. split; [assumption | now apply in_group_iff]. }
  pose proof (requests_positive row tumor Hit) as Pt.
  pose proof (requests_positive row normal Hinn) as Pn.
  repeat (split; [assumption || (apply run_group_fetches; apply Hperm)|]).
  intros u Hu.
  assert (Hne : sample_df <> []) by (intros ->; contradiction).
  rewrite (run_site_fetches env order site sample_df _ Hne Hperm).
  fold tumor normal. rewrite Hu. split; [reflexivity | lia].
Qed.

Lemma C10_record_in_both_groups_witness :
  2 <= fetches
         (row_url (mkSample "S2" "Tumor Adjacent Normal" "TCGA-X" "f2" "f2.tsv"))
         (snd (run_site (serve small_table) in_order "Lung"
                 [mkSample "S2" "Tumor Adjacent Normal" "TCGA-X" "f2" "f2.tsv"])).
Proof.
  pose proof (C10_record_in_both_groups (serve small_table) in_order "Lung"
       [mkSample "S2" "Tumor Adjacent Normal" "TCGA-X" "f2" "f2.tsv"]
       (mkSample "S2" "Tumor Adjacent Normal" "TCGA-X" "f2" "f2.tsv")
       (fun rows => Permutation_refl rows)
       (or_introl eq_refl)
       (ex_intro _ "" (ex_intro _ "Tumor" (ex_intro _ " Adjacent Normal"
          (conj eq_refl eq_refl))))
       (ex_intro _ "Tumor Adjacent " (ex_intro _ "Normal" (ex_intro _ ""
          (conj eq_refl eq_refl))))) as H.
  cbv zeta in H. destruct H as (_ & _ & _ & _ & _ & _ & H).
  apply (H tt). vm_compute. reflexivity.
Defined.

(** ** C7: the table reader, line by line *)

Lemma plain_line_cons : forall c l,
  plain_line (String c l) = true ->
  Ascii.eqb c LF = false /\ Ascii.eqb c CR = false /\
  Ascii.eqb c QUOTE = false /\ plain_line l = true.
Proof.
  intros c l H. cbn [plain_line] in H.
  repeat (apply andb_prop in H; destruct H as [H ?]).
  repeat split; try assumption; now apply negb_true_iff.
Qed.

Lemma cbind_assoc : forall A B C (c : completion A)
  (f : A -> completion B) (g : B -> completion C),
  cbind (cbind c f) g = cbind c (fun a => cbind (f a) g).
Proof. intros A B C [a|e] f g; reflexivity. Qed.

Section FieldSteps.
Variables (st : pstate) (w : string) (fs : list string)
          (done : list (list string)).
Hypothesis in_a_field : st = IN_FIELD \/ st = START_FIELD.

Lemma step_field_lf :
  step LF (mkTok st w fs done "") =
  (done' <~ close_line done (fs ++ [w]);; Returns (at_line_start done')).
Proof. destruct in_a_field as [-> | ->]; reflexivity. Qed.

Lemma step_field_tab :
  step TAB (mkTok st w fs done "") =
  Returns (mkTok START_FIELD "" (fs ++ [w]) done "").
Proof. destruct in_a_field as [-> | ->]; reflexivity. Qed.

Lemma step_field_hash :
  step HASH (mkTok st w fs done "") =
  Returns (mkTok EAT_COMMENT "" (fs ++ [w]) done "").
Proof. destruct in_a_field as [-> | ->]; reflexivity. Qed.

Lemma step_field_char : forall c,
  Ascii.eqb c LF = false -> Ascii.eqb c CR = false ->
  Ascii.eqb c QUOTE = false -> Ascii.eqb c TAB = false ->
  Ascii.eqb c HASH = false ->
  step c (mkTok st w fs done "") =
  Returns (mkTok IN_FIELD (snoc w c) fs done "").
Proof.
  intros c H1 H2 H3 H4 H5.
  destruct in_a_field as [-> | ->];
    unfold step, start_field, in_field; cbn [state];
    rewrite ?H3, H1, H2, H4, H5; reflexivity.
Qed.
End FieldSteps.

(** Inside a comment: everything up to the line end is skipped, then the
    line is closed with the fields seen before the mark. *)
Lemma feed_comment : forall l rest fs done,
  plain_line l = true ->
  feed (String.append l (String LF rest)) (mkTok EAT_COMMENT "" fs done "") =
  (done' <~ close_line done fs;; feed rest (at_line_start done')).
Proof.
  induction l as [|c l IH]; intros rest fs done Hp.
  - cbn [String.append feed]. unfold step; cbn [state].
    change (Ascii.eqb LF LF) with true. cbv iota. unfold end_line; cbn.
    now rewrite cbind_assoc.
  - apply plain_line_cons in Hp. destruct Hp as (H1 & H2 & _ & Hp).
    cbn [String.append feed]. unfold step; cbn [state].
    rewrite H1, H2. simpl cbind. now apply IH.
Qed.

(** A line that began with [#] leaves no trace. *)
Lemma feed_line_comment : forall l rest done,
  plain_line l = true ->
  feed (String.append l (String LF rest))
       (mkTok EAT_LINE_COMMENT "" [] done "") =
  feed rest (at_line_start done).
Proof.
  induction l as [|c l IH]; intros rest done Hp.
  - reflexivity.
  - apply plain_line_cons in Hp. destruct Hp as (H1 & H2 & _ & Hp).
    cbn [String.append feed]. unfold step; cbn [state].
    rewrite H1, H2. simpl cbind. now apply IH.
Qed.

(** Reading the fields of a line. *)
Lemma feed_fields : forall l rest st w fs done,
  plain_line l = true ->
  st = IN_FIELD \/ st = START_FIELD ->
  feed (String.append l (String LF rest)) (mkTok st w fs done "") =
  (done' <~ close_line done (fs ++ split_tabs_from w (cut_comment l));;
   feed rest (at_line_start done')).
Proof.
  induction l as [|c l IH]; intros rest st w fs done Hp Hst.
  - cbn [String.append feed]. rewrite (step_field_lf st w fs done Hst).
    now rewrite cbind_assoc.
  - apply plain_line_cons in Hp. destruct Hp as (H1 & H2 & H3 & Hp).
    cbn [String.append feed cut_comment].
    destruct (Ascii.eqb c HASH) eqn:Hh.
    + apply Ascii.eqb_eq in Hh. subst c.
      rewrite (step_field_hash st w fs done Hst). simpl cbind.
      now rewrite feed_comment.
    + cbn [split_tabs_from]. destruct (Ascii.eqb c TAB) eqn:Ht.
      * apply Ascii.eqb_eq in Ht. subst c.
        rewrite (step_field_tab st w fs done Hst). simpl cbind.
        rewrite IH by (auto). now rewrite <- app_assoc.
      * rewrite (step_field_char st w fs done Hst c H1 H2 H3 Ht Hh).
        simpl cbind. now rewrite IH by auto.
Qed.

(** A line that began with spaces: blank if nothing else follows,
    otherwise read as fields, the spaces included. *)
Lemma feed_whitespace : forall l rest b done,
  plain_line l = true ->
  feed (String.append l (String LF rest))
       (mkTok WHITESPACE_LINE "" [] done b) =
  if all_spaces l then feed rest (at_line_start done)
  else (done' <~ close_line done (split_tabs_from b (cut_comment l));;
        feed rest (at_line_start done')).
Proof.
  induction l as [|c l IH]; intros rest b done Hp.
  - reflexivity.
  - pose proof Hp as Hp0.
    apply plain_line_cons in Hp. destruct Hp as (H1 & H2 & H3 & Hp).
    cbn [all_spaces]. destruct (Ascii.eqb c SPACE) eqn:Hs.
    + apply Ascii.eqb_eq in Hs. subst c. cbn [andb].
      cbn [String.append feed]. unfold step, whitespace_line; cbn [state].
      change (Ascii.eqb SPACE LF) with false.
      change (Ascii.eqb SPACE CR) with false.
      change (Ascii.eqb SPACE SPACE) with true. cbv iota. simpl cbind.
      cbn [word fields lines blanks]. rewrite IH by assumption.
      reflexivity.
    + cbn [andb].
      transitivity (feed (String.append (String c l) (String LF rest))
                         (mkTok IN_FIELD b [] done ""));
        [|now rewrite feed_fields by auto].
      cbn [String.append feed]. f_equal.
      unfold step, whitespace_line; cbn [state]. rewrite H1, H2, Hs.
      reflexivity.
Qed.

Lemma feed_line : forall l rest done,
  plain_line l = true ->
  feed (String.append l (String LF rest)) (at_line_start done) =
  if ignored l then feed rest (at_line_start done)
  else (done' <~ close_line done (split_tabs (cut_comment l));;
        feed rest (at_line_start done')).
Proof.
  intros [|c l] rest done Hp.
  - reflexivity.
  - pose proof Hp as Hp0.
    apply plain_line_cons in Hp. destruct Hp as (H1 & H2 & H3 & Hp).
    unfold ignored, startswith. cbn [String.prefix all_spaces].
    destruct (Ascii.eqb c HASH) eqn:Hh.
    + apply Ascii.eqb_eq in Hh. subst c.
      change (if Ascii.ascii_dec "#" HASH then String.prefix "" l else false)
        with (String.prefix "" l).
      replace (String.prefix "" l) with true by (now destruct l).
      cbn [orb]. cbn [String.append feed].
      change (step HASH (at_line_start done))
        with (Returns (mkTok EAT_LINE_COMMENT "" [] done "")).
      simpl cbind. now apply feed_line_comment.
    + destruct (Ascii.ascii_dec "#" c) as [E|_];
        [subst c; discriminate|]. cbn [orb].
      destruct (Ascii.eqb c SPACE) eqn:Hs.
      * apply Ascii.eqb_eq in Hs. subst c. cbn [andb].
        cbn [String.append feed].
        change (step SPACE (at_line_start done))
          with (Returns (mkTok WHITESPACE_LINE "" [] done (String SPACE ""))).
        simpl cbind. rewrite feed_whitespace by assumption.
        reflexivity.
      * cbn [andb].
        transitivity (feed (String.append (String c l) (String LF rest))
                           (mkTok START_FIELD "" [] done ""));
          [|now rewrite feed_fields by auto].
        cbn [String.append feed]. f_equal.
        unfold step, at_line_start, start_record, start_field, in_field;
          cbn [state]. rewrite H1, H2, Hh, Hs, H3. reflexivity.
Qed.

Lemma feed_lines : forall ls done,
  Forall (fun l => plain_line l = true) ls ->
  feed (unlines ls) (at_line_start done) =
  (rows <~ close_all done (rows_as_read ls);; Returns (at_line_start rows)).
Proof.
  induction ls as [|l ls IH]; intros done Hall; [reflexivity|].
  inversion Hall as [|? ? Hl Hls]; subst.
  cbn [unlines]. rewrite feed_line by assumption.
  unfold rows_as_read. cbn [filter].
  destruct (ignored l); cbn [negb map close_all].
  - now apply IH.
  - rewrite cbind_assoc.
    destruct (close_line done (split_tabs (cut_comment l))) as [done'|e];
      simpl cbind; [now apply IH | reflexivity].
Qed.

Lemma strip_bom_unlines : forall ls,
  strip_bom (unlines ls) = unlines (strip_bom_first ls).
Proof.
  intros [|l ls]; [reflexivity|].
  destruct l as [|a [|b [|c l]]]; cbn [unlines strip_bom_first String.append].
  - destruct (unlines ls) as [|x [|y u]]; reflexivity.
  - destruct (unlines ls) as [|x u]; [reflexivity|].
    cbn. destruct (nat_of_ascii a =? 239); reflexivity.
  - cbn.
    destruct (nat_of_ascii a =? 239); [|reflexivity].
    destruct (nat_of_ascii b =? 187); reflexivity.
  - cbn [strip_bom].
    destruct ((nat_of_ascii a =? 239) && (nat_of_ascii b =? 187)
              && (nat_of_ascii c =? 191)); reflexivity.
Qed.

Lemma plain_strip_bom_first : forall ls,
  Forall (fun l => plain_line l = true) ls ->
  Forall (fun l => plain_line l = true) (strip_bom_first ls).
Proof.
  intros [|l ls] H; [constructor|].
  inversion H as [|? ? Hl Hls]; subst. constructor; [|assumption].
  destruct l as [|a [|b [|c l]]]; try assumption.
  cbn [strip_bom].
  destruct ((nat_of_ascii a =? 239) && (nat_of_ascii b =? 187)
            && (nat_of_ascii c =? 191)); [|assumption].
  apply plain_line_cons in Hl. destruct Hl as (_ & _ & _ & Hl).
  apply plain_line_cons in Hl. destruct Hl as (_ & _ & _ & Hl).
  apply plain_line_cons in Hl. now destruct Hl as (_ & _ & _ & Hl).
Qed.

Lemma tokenize_lines : forall ls,
  Forall (fun l => plain_line l = true) ls ->
  tokenize (unlines ls) = close_all [] (rows_as_read (strip_bom_first ls)).
Proof.
  intros ls Hall. unfold tokenize.
  rewrite strip_bom_unlines.
  change init with (at_line_start []).
  rewrite feed_lines by (now apply plain_strip_bom_first).
  destruct (close_all [] (rows_as_read (strip_bom_first ls))); reflexivity.
Qed.

(** The width check changes a row only by appending empty fields, and
    never reorders. *)
Lemma close_all_rows : forall rows done out,
  close_all done rows = Returns out ->
  exists out',
    out = done ++ out' /\
    Forall2 (fun raw row => exists k, row = raw ++ repeat "" k) rows out'.
Proof.
  induction rows as [|r rows IH]; intros done out H; cbn [close_all] in H.
  - injection H as <-. exists []. split; [now rewrite app_nil_r | constructor].
  - unfold close_line in H at 1.
    destruct ((2 <=? List.length done) &&
              (List.length (last done []) <? List.length r));
      [discriminate|]. cbn [cbind] in H.
    apply IH in H. destruct H as (out' & -> & Hf).
    eexists (_ :: out'). split; [now rewrite <- app_assoc|].
    constructor; [|assumption].
    destruct (1 <=? List.length done).
    + unfold pad_to. eexists. reflexivity.
    + exists 0. simpl. now rewrite app_nil_r.
Qed.

(** *** Lines with any of the three endings *)

Lemma no_line_end_cons : forall c l,
  no_line_end (String c l) = true ->
  Ascii.eqb c LF = false /\ Ascii.eqb c CR = false /\ no_line_end l = true.
Proof.
  intros c l H. cbn [no_line_end] in H.
  repeat (apply andb_prop in H; destruct H as [H ?]).
  repeat split; try assumption; now apply negb_true_iff.
Qed.

Lemma unquoted_cons : forall b c l,
  unquoted_from b (String c l) = true ->
  Ascii.eqb c LF = false /\ Ascii.eqb c CR = false /\
  (b = true -> Ascii.eqb c QUOTE = false) /\
  (if Ascii.eqb c HASH then no_line_end l = true
   else unquoted_from (Ascii.eqb c TAB) l = true).
Proof.
  intros b c l H. cbn [unquoted_from] in H.
  repeat (apply andb_prop in H; destruct H as [H ?]).
  apply negb_true_iff in H. split; [exact H|].
  split; [now apply negb_true_iff|]. split.
  - intros ->. cbn [andb] in *. now apply negb_true_iff.
  - destruct (Ascii.eqb c HASH); assumption.
Qed.

(** Inside a field a quote is a character like any other. *)
Lemma step_in_field_char : forall c w fs done,
  Ascii.eqb c LF = false -> Ascii.eqb c CR = false ->
  Ascii.eqb c TAB = false -> Ascii.eqb c HASH = false ->
  step c (mkTok IN_FIELD w fs done "") =
  Returns (mkTok IN_FIELD (snoc w c) fs done "").
Proof.
  intros c w fs done H1 H2 H4 H5.
  unfold step, in_field; cbn [state]. rewrite H1, H2, H4, H5. reflexivity.
Qed.

Lemma feed_app : forall a b p,
  feed (String.append a b) p = (p' <~ feed a p;; feed b p').
Proof.
  induction a as [|c a IH]; intros b p; [reflexivity|].
  cbn [String.append feed]. rewrite cbind_assoc.
  destruct (step c p) as [p'|e]; simpl cbind; [apply IH | reflexivity].
Qed.

(** Inside a comment nothing is read. *)
Lemma body_comment : forall l fs done,
  no_line_end l = true ->
  feed l (mkTok EAT_COMMENT "" fs done "") =
  Returns (mkTok EAT_COMMENT "" fs done "").
Proof.
  induction l as [|c l IH]; intros fs done Hp; [reflexivity|].
  apply no_line_end_cons in Hp. destruct Hp as (H1 & H2 & Hp).
  cbn [feed]. unfold step; cbn [state]. rewrite H1, H2. simpl cbind.
  now apply IH.
Qed.

Lemma closed_comment : forall fs done,
  line_closed (mkTok EAT_COMMENT "" fs done "") done (Some fs).
Proof.
  intros fs done. unfold line_closed, close_row.
  split; [|split].
  - unfold step; cbn [state]. change (Ascii.eqb LF LF) with true. cbv iota.
    unfold end_line; cbn [lines fields]. reflexivity.
  - unfold step at 1; cbn [state].
    change (Ascii.eqb CR LF) with false. change (Ascii.eqb CR CR) with true.
    cbv iota. simpl cbind. unfold step, set_state; cbn [state].
    change (Ascii.eqb LF LF) with true. cbv iota.
    unfold end_line; cbn [lines fields]. reflexivity.
  - unfold handle_eof; cbn [state]. unfold end_line; cbn [lines fields].
    rewrite cbind_assoc.
    destruct (close_line done fs); reflexivity.
Qed.

Lemma body_line_comment : forall l done,
  no_line_end l = true ->
  feed l (mkTok EAT_LINE_COMMENT "" [] done "") =
  Returns (mkTok EAT_LINE_COMMENT "" [] done "").
Proof.
  induction l as [|c l IH]; intros done Hp; [reflexivity|].
  apply no_line_end_cons in Hp. destruct Hp as (H1 & H2 & Hp).
  cbn [feed]. unfold step; cbn [state]. rewrite H1, H2. simpl cbind.
  now apply IH.
Qed.

Lemma closed_line_comment : forall done,
  line_closed (mkTok EAT_LINE_COMMENT "" [] done "") done None.
Proof. intros done. repeat split. Qed.

Lemma closed_field : forall st w fs done,
  st = IN_FIELD \/ st = START_FIELD ->
  line_closed (mkTok st w fs done "") done (Some (fs ++ [w])).
Proof.
  intros st w fs done Hst. unfold line_closed, close_row.
  split; [|split].
  - apply step_field_lf. exact Hst.
  - destruct Hst as [-> | ->]; unfold step at 1; cbn [state];
      unfold start_field, in_field;
      change (Ascii.eqb CR QUOTE) with false;
      change (Ascii.eqb CR LF) with false;
      change (Ascii.eqb CR CR) with true; cbv iota; simpl cbind;
      unfold step, set_state, end_field; cbn [state word fields lines blanks];
      change (Ascii.eqb LF LF) with true; cbv iota;
      unfold end_line; cbn [lines fields]; reflexivity.
  - destruct Hst as [-> | ->]; unfold handle_eof; cbn [state];
      unfold end_line, end_field; cbn [lines fields word];
      rewrite cbind_assoc;
      destruct (close_line done (fs ++ [w])); reflexivity.
Qed.

(** Reading the fields of a line. *)
Lemma body_fields : forall l b st w fs done,
  unquoted_from b l = true ->
  (b = false /\ st = IN_FIELD) \/ (b = true /\ st = START_FIELD) ->
  exists p,
    feed l (mkTok st w fs done "") = Returns p /\
    line_closed p done (Some (fs ++ split_tabs_from w (cut_comment l))).
Proof.
  induction l as [|c l IH]; intros b st w fs done Hp Hst.
  - eexists. split; [reflexivity|]. cbn [cut_comment split_tabs_from].
    apply closed_field. destruct Hst as [[_ ->] | [_ ->]]; auto.
  - assert (Hst' : st = IN_FIELD \/ st = START_FIELD)
      by (destruct Hst as [[_ ->] | [_ ->]]; auto).
    apply unquoted_cons in Hp. destruct Hp as (H1 & H2 & H3 & Hp).
    cbn [feed cut_comment].
    destruct (Ascii.eqb c HASH) eqn:Hh.
    + apply Ascii.eqb_eq in Hh. subst c.
      rewrite (step_field_hash st w fs done Hst'). simpl cbind.
      rewrite body_comment by assumption.
      eexists. split; [reflexivity|]. cbn [split_tabs_from].
      apply closed_comment.
    + cbn [split_tabs_from]. destruct (Ascii.eqb c TAB) eqn:Ht.
      * apply Ascii.eqb_eq in Ht. subst c.
        rewrite (step_field_tab st w fs done Hst'). simpl cbind.
        destruct (IH true START_FIELD "" (fs ++ [w]) done Hp
                    (or_intror (conj eq_refl eq_refl)))
          as (p & Hf & Hc).
        exists p. split; [exact Hf|]. now rewrite <- app_assoc in Hc.
      * assert (Hstep : step c (mkTok st w fs done "") =
                        Returns (mkTok IN_FIELD (snoc w c) fs done "")).
        { destruct Hst as [[_ ->] | [Hb ->]].
          - now apply step_in_field_char.
          - apply (step_field_char START_FIELD w fs done
                     (or_intror eq_refl) c H1 H2 (H3 Hb) Ht Hh). }
        rewrite Hstep. simpl cbind.
        apply (IH false IN_FIELD); [exact Hp | left; now split].
Qed.

Lemma closed_whitespace : forall b done,
  line_closed (mkTok WHITESPACE_LINE "" [] done b) done None.
Proof. intros b done. repeat split. Qed.

Lemma body_whitespace : forall l b done,
  unquoted_from false l = true ->
  exists p,
    feed l (mkTok WHITESPACE_LINE "" [] done b) = Returns p /\
    line_closed p done
      (if all_spaces l then None
       else Some (split_tabs_from b (cut_comment l))).
Proof.
  induction l as [|c l IH]; intros b done Hp.
  - eexists. split; [reflexivity|]. apply closed_whitespace.
  - pose proof Hp as Hp0.
    apply unquoted_cons in Hp. destruct Hp as (H1 & H2 & _ & Hp).
    cbn [all_spaces]. destruct (Ascii.eqb c SPACE) eqn:Hs.
    + apply Ascii.eqb_eq in Hs. subst c. cbn [andb].
      change (Ascii.eqb SPACE HASH) with false in Hp.
      change (Ascii.eqb SPACE TAB) with false in Hp.
      cbn [feed]. unfold step, whitespace_line; cbn [state].
      change (Ascii.eqb SPACE LF) with false.
      change (Ascii.eqb SPACE CR) with false.
      change (Ascii.eqb SPACE SPACE) with true. cbv iota. simpl cbind.
      cbn [word fields lines blanks].
      destruct (IH (snoc b SPACE) done Hp) as (p & Hf & Hc).
      exists p. split; [exact Hf|].
      destruct (all_spaces l); exact Hc.
    + cbn [andb].
      destruct (body_fields (String c l) false IN_FIELD b [] done Hp0
                  (or_introl (conj eq_refl eq_refl))) as (p & Hf & Hc).
      exists p. split; [|exact Hc].
      rewrite <- Hf. cbn [feed]. f_equal.
      unfold step, whitespace_line; cbn [state]. rewrite H1, H2, Hs.
      reflexivity.
Qed.

Lemma closed_start : forall done, line_closed (at_line_start done) done None.
Proof. intros done. repeat split. Qed.

(** A whole line body, read from the start of a line. *)
Lemma body_line : forall l done,
  unquoted_line l = true ->
  exists p,
    feed l (at_line_start done) = Returns p /\
    line_closed p done (row_of_line l).
Proof.
  intros [|c l] done Hp.
  - eexists. split; [reflexivity|]. apply closed_start.
  - pose proof Hp as Hp0. unfold unquoted_line in Hp.
    apply unquoted_cons in Hp. destruct Hp as (H1 & H2 & H3 & Hp).
    specialize (H3 eq_refl).
    unfold row_of_line, ignored, startswith. cbn [String.prefix all_spaces].
    destruct (Ascii.eqb c HASH) eqn:Hh.
    + apply Ascii.eqb_eq in Hh. subst c.
      change (if Ascii.ascii_dec "#" HASH then String.prefix "" l else false)
        with (String.prefix "" l).
      replace (String.prefix "" l) with true by (now destruct l).
      cbn [orb]. cbn [feed].
      change (step HASH (at_line_start done))
        with (Returns (mkTok EAT_LINE_COMMENT "" [] done "")).
      simpl cbind. rewrite body_line_comment by assumption.
      eexists. split; [reflexivity|]. apply closed_line_comment.
    + destruct (Ascii.ascii_dec "#" c) as [E|_];
        [subst c; discriminate|]. cbn [orb].
      destruct (Ascii.eqb c SPACE) eqn:Hs.
      * apply Ascii.eqb_eq in Hs. subst c. cbn [andb].
        change (Ascii.eqb SPACE TAB) with false in Hp.
        cbn [feed].
        change (step SPACE (at_line_start done))
          with (Returns (mkTok WHITESPACE_LINE "" [] done (String SPACE ""))).
        simpl cbind.
        destruct (body_whitespace l (String SPACE "") done Hp) as (p & Hf & Hc).
        exists p. split; [exact Hf|].
        destruct (all_spaces l); exact Hc.
      * cbn [andb].
        destruct (body_fields (String c l) true START_FIELD "" [] done Hp0
                    (or_intror (conj eq_refl eq_refl))) as (p & Hf & Hc).
        exists p. split; [|exact Hc].
        rewrite <- Hf. cbn [feed]. f_equal.
        unfold step, at_line_start, start_record, start_field, in_field;
          cbn [state]. rewrite H1, H2, Hh, Hs, H3. reflexivity.
Qed.

Lemma rows_as_read_cons : forall l ls,
  rows_as_read (l :: ls) =
  match row_of_line l with
  | None => rows_as_read ls
  | Some r => r :: rows_as_read ls
  end.
Proof.
  intros l ls. unfold rows_as_read, row_of_line. cbn [filter].
  destruct (ignored l); reflexivity.
Qed.

Lemma close_all_cons : forall done l ls,
  close_all done (rows_as_read (l :: ls)) =
  (d <~ close_row done (row_of_line l);; close_all d (rows_as_read ls)).
Proof.
  intros done l ls. rewrite rows_as_read_cons.
  destruct (row_of_line l); reflexivity.
Qed.

(** A stream of lines, whatever their endings, gives the rows of its
    lines one after the other. *)
Lemma feed_stream : forall ls done,
  Forall (fun l => unquoted_line l = true) (map fst ls) ->
  well_ended ls = true ->
  (p <~ feed (stream_of ls) (at_line_start done);;
   p' <~ handle_eof p;; Returns (lines p'))
  = close_all done (rows_as_read (map fst ls)).
Proof.
  induction ls as [|[l e] ls IH]; intros done Hall Hw; [reflexivity|].
  cbn [map fst] in Hall. apply Forall_cons_iff in Hall.
  destruct Hall as [Hl Hls].
  cbn [stream_of map fst]. rewrite close_all_cons.
  rewrite feed_app.
  destruct (body_line l done Hl) as (p & Hf & HLF & HCR & HEOF).
  rewrite Hf. simpl cbind.
  assert (Hrest : well_ended ls = true \/ (e = EndOfFile /\ ls = [])).
  { cbn [well_ended] in Hw. destruct ls as [|x ls']; [|left].
    - destruct e; [left; reflexivity | left; reflexivity | right; now split].
    - apply andb_prop in Hw. now destruct Hw. }
  assert (He : e <> EndOfFile \/ ls = []).
  { cbn [well_ended] in Hw. destruct ls as [|x ls']; [now right|left].
    destruct e; [discriminate | discriminate | simpl in Hw; discriminate Hw]. }
  destruct e.
  - cbn [end_text String.append feed]. rewrite cbind_assoc, HLF, cbind_assoc.
    destruct (close_row done (row_of_line l)) as [d|err]; simpl cbind;
      [|reflexivity].
    destruct Hrest as [Hw'|[Hx _]]; [|discriminate]. now apply IH.
  - assert (Hcr : forall A (k : tokenizer -> completion A),
              (p1 <~ step CR p;; p2 <~ step LF p1;; k p2) =
              (d <~ close_row done (row_of_line l);; k (at_line_start d))).
    { intros A k.
      transitivity (p2 <~ (p1 <~ step CR p;; step LF p1);; k p2);
        [now rewrite cbind_assoc|].
      rewrite HCR, cbind_assoc.
      destruct (close_row done (row_of_line l)); reflexivity. }
    cbn [end_text String.append feed].
    rewrite (Hcr _ (fun p2 => feed (stream_of ls) p2)), cbind_assoc.
    destruct (close_row done (row_of_line l)) as [d|err]; simpl cbind;
      [|reflexivity].
    destruct Hrest as [Hw'|[Hx _]]; [|discriminate]. now apply IH.
  - destruct He as [He|Hnil]; [contradiction|]. subst ls.
    cbn [end_text stream_of String.append map rows_as_read].
    cbn [feed]. simpl cbind. rewrite HEOF.
    unfold rows_as_read. cbn [filter map close_all].
    destruct (close_row done (row_of_line l)); reflexivity.
Qed.

Lemma strip_bom_stream : forall l e ls,
  well_ended ((l, e) :: ls) = true ->
  strip_bom (stream_of ((l, e) :: ls)) = stream_of ((strip_bom l, e) :: ls).
Proof.
  intros l e ls Hw.
  assert (He : e <> EndOfFile \/ ls = []).
  { cbn [well_ended] in Hw. destruct ls as [|x ls']; [now right|left].
    destruct e; [discriminate | discriminate | simpl in Hw; discriminate Hw]. }
  destruct l as [|a [|b [|c l]]]; cbn [stream_of String.append].
  - destruct e; cbn [end_text String.append strip_bom].
    + destruct (stream_of ls) as [|x [|y u]]; reflexivity.
    + destruct (stream_of ls) as [|x u]; reflexivity.
    + destruct He as [He|Hnil]; [contradiction|]. subst ls. reflexivity.
  - destruct e; cbn [end_text String.append].
    + cbn [strip_bom].
      destruct (stream_of ls) as [|x u]; [reflexivity|].
      change (nat_of_ascii LF =? 187) with false.
      now rewrite andb_false_r.
    + cbn [strip_bom]. change (nat_of_ascii CR =? 187) with false.
      now rewrite andb_false_r.
    + destruct He as [He|Hnil]; [contradiction|]. subst ls. reflexivity.
  - destruct e; cbn [end_text String.append].
    + cbn [strip_bom]. change (nat_of_ascii LF =? 191) with false.
      now rewrite andb_false_r.
    + cbn [strip_bom]. change (nat_of_ascii CR =? 191) with false.
      now rewrite andb_false_r.
    + destruct He as [He|Hnil]; [contradiction|]. subst ls. reflexivity.
  - cbn [strip_bom].
    destruct ((nat_of_ascii a =? 239) && (nat_of_ascii b =? 187)
              && (nat_of_ascii c =? 191)); reflexivity.
Qed.

(** The tokenizer on a stream of lines. *)
Lemma tokenize_stream : forall ls,
  Forall (fun l => unquoted_line l = true) (strip_bom_first (map fst ls)) ->
  well_ended ls = true ->
  tokenize (stream_of ls)
  = close_all [] (rows_as_read (strip_bom_first (map fst ls))).
Proof.
  intros [|[l e] ls] Hall Hw; [reflexivity|].
  unfold tokenize. rewrite strip_bom_stream by assumption.
  change init with (at_line_start []).
  apply (feed_stream ((strip_bom l, e) :: ls) []); assumption.
Qed.

Lemma read_csv_stream : forall ls payload,
  Forall (fun l => unquoted_line l = true) (strip_bom_first (map fst ls)) ->
  well_ended ls = true ->
  utf8_valid payload = true ->
  string_of_list_byte payload = stream_of ls ->
  read_csv payload =
  frame_of_rows (close_all [] (rows_as_read (strip_bom_first (map fst ls)))).
Proof.
  intros ls payload Hall Hw Hu Ht. unfold read_csv, decode_utf8.
  rewrite Hu. simpl cbind. rewrite Ht, tokenize_stream by assumption.
  reflexivity.
Qed.

(** A column of the table holds the fields of its position, one per data
    row and in the order of the rows. *)
Lemma getitem_build_frame : forall header body col j,
  find_column col header = Some j ->
  getitem (build_frame header body) col =
  Returns (mkSeries col (index (build_frame header body))
                    (column_cells header body j)).
Proof.
  intros header body col j Hj. unfold getitem.
  change (columns (build_frame header body)) with header. rewrite Hj.
  f_equal. f_equal. unfold build_frame; cbn [data].
  pose proof (find_column_lt _ _ _ Hj) as Hlt.
  rewrite (nth_indep _ []
             ((fun j => map (fun r => nth (leading_cols header body + j) r "")
                            body) 0))
    by (now rewrite length_map, length_seq).
  rewrite (map_nth (fun j => map (fun r => nth (leading_cols header body + j) r "")
                                 body)).
  rewrite seq_nth by assumption. reflexivity.
Qed.

Lemma frame_of_rows_returns : forall rows df,
  frame_of_rows rows = Returns df ->
  exists header body,
    rows = Returns (header :: body) /\ df = build_frame header body.
Proof.
  intros [[|h b]|e] df H; try discriminate.
  injection H as <-. now exists h, b.
Qed.

(** C7 as stated fails on a line with a [#] after its beginning: the
    reader drops the rest of that line. *)
Lemma C7_counterexample :
  ~ (forall ls,
       Forall (fun l => plain_line l = true) ls ->
       tokenize (unlines ls) = close_all [] (rows_as_claimed ls)).
Proof.
  intros claim.
  specialize (claim [tsv ["gene_id"; "gene_name"]; tsv ["ENSG1"; "A#1"]]).
  assert (H : Forall (fun l => plain_line l = true)
                [tsv ["gene_id"; "gene_name"]; tsv ["ENSG1"; "A#1"]])
    by (repeat constructor).
  specialize (claim H). vm_compute in claim. discriminate.
Qed.

(* ================================================================== *)
(** * Further properties of the script                                 *)
(* ================================================================== *)

(** ** [process_file]: the decisions of lines 29-43 *)

Lemma select_map_filter : forall A (f : A -> bool) (l : list A),
  select (map f l) l = filter f l.
Proof.
  intros A f l; induction l as [|x l IH]; simpl; [reflexivity|].
  destruct (f x); now rewrite IH.
Qed.

(** [~] after [.str.startswith("N_")]: undefined exactly when a gene id is
    missing and missing cells are answered with NaN. *)
Lemma invert_startswith : forall L vals,
  invert (map (fun v => if is_na L v
                        then (if na_is_false L then Some false else None)
                        else Some (startswith "N_" v)) vals) =
  if nan_in_mask L vals
  then Raises (TypeError "bad operand type for unary ~: 'float'")
  else Returns (map (fun v => negb (startswith "N_" v)) vals).
Proof.
  intros L vals. unfold nan_in_mask.
  induction vals as [|v vals IH]; [reflexivity|].
  cbn [map existsb invert].
  destruct (is_na L v) eqn:Hna; cbn [orb].
  - rewrite (na_spelling L v Hna).
    destruct (na_is_false L); [|reflexivity].
    rewrite andb_false_r in *. cbn [invert]. rewrite IH. reflexivity.
  - cbn [invert]. rewrite IH.
    now destruct (existsb (is_na L) vals && negb (na_is_false L)).
Qed.

Lemma getitem_has_column : forall df col,
  has_column col df = true <-> exists s, getitem df col = Returns s.
Proof.
  intros df col. split; [apply has_column_getitem|].
  intros [s H]. unfold has_column, getitem in *.
  now destruct (find_column col (columns df)).
Qed.

Lemma getitem_missing : forall df col,
  has_column col df = false -> getitem df col = Raises (KeyError col).
Proof.
  intros df col H. unfold has_column, getitem in *.
  now destruct (find_column col (columns df)).
Qed.

(** The row filter, once the gene id column is there. *)
Lemma row_filter_decision : forall L g,
  (starts <~ str_startswith L "N_" g;; invert starts) =
  match infer_dtype L (s_values g) with
  | DtObject =>
    if nan_in_mask L (s_values g)
    then Raises (TypeError "bad operand type for unary ~: 'float'")
    else Returns (map (fun v => negb (startswith "N_" v)) (s_values g))
  | _ => Raises (AttributeError "Can only use .str accessor with string values")
  end.
Proof.
  intros L g. unfold str_startswith.
  destruct (infer_dtype L (s_values g)); simpl cbind; try reflexivity.
  apply invert_startswith.
Qed.

Lemma extract_eq : forall L fid sid fn df,
  extract L fid sid fn df =
  match getitem df "gene_id" with
  | Raises e => (Raises e, [])
  | Returns g =>
    match (starts <~ str_startswith L "N_" g;; invert starts) with
    | Raises e => (Raises e, [])
    | Returns keep =>
      if forallb (fun col => has_column col df) required_columns
      then
        match getitem df "gene_name", getitem df "tpm_unstranded",
              getitem df "fpkm_unstranded", getitem df "fpkm_uq_unstranded" with
        | Returns n, Returns tc, Returns fc, Returns uc =>
          (Returns (mkResult
             (Some (mkSeries sid (select keep (index df)) (select keep (s_values tc))))
             (Some (mkSeries sid (select keep (index df)) (select keep (s_values fc))))
             (Some (mkSeries sid (select keep (index df)) (select keep (s_values uc))))
             (Some (select keep (s_values g)))
             (Some (select keep (s_values n)))),
           [Print (ProcessedFile fn sid)])
        | _, _, _, _ => (Returns none_result, [])
        end
      else (Returns none_result, [Print (SkippingMissingColumns fid)])
    end
  end.
Proof.
  intros L fid sid fn df. unfold extract.
  destruct (getitem df "gene_id") as [g|e] eqn:Hg;
    [rewrite bind_lift_returns | now rewrite bind_lift_raises].
  destruct (str_startswith L "N_" g) as [starts|e];
    [rewrite bind_lift_returns | now rewrite bind_lift_raises].
  simpl cbind.
  destruct (invert starts) as [keep|e];
    [rewrite bind_lift_returns | now rewrite bind_lift_raises].
  change (forallb (fun col => has_column col (mask_rows keep df)) required_columns)
    with (forallb (fun col => has_column col df) required_columns).
  destruct (forallb (fun col => has_column col df) required_columns) eqn:Hall;
    simpl negb; cbv iota; [|reflexivity].
  simpl in Hall.
  repeat (apply andb_prop in Hall; destruct Hall as [? Hall]).
  destruct (has_column_getitem "gene_name" df) as [n Hn]; [assumption|].
  destruct (has_column_getitem "tpm_unstranded" df) as [tc Htc]; [assumption|].
  destruct (has_column_getitem "fpkm_unstranded" df) as [fc Hfc]; [assumption|].
  destruct (has_column_getitem "fpkm_uq_unstranded" df) as [uc Huc]; [assumption|].
  rewrite Hn, Htc, Hfc, Huc.
  rewrite (getitem_mask_rows keep _ _ _ Hg).
  rewrite (getitem_mask_rows keep _ _ _ Hn).
  rewrite (getitem_mask_rows keep _ _ _ Htc).
  rewrite (getitem_mask_rows keep _ _ _ Hfc).
  rewrite (getitem_mask_rows keep _ _ _ Huc).
  reflexivity.
Qed.

(** X1.  "Missing required columns" (lines 32-34) is reported exactly for
    the tables whose [gene_id] column is present and holds strings, none
    of them missing unless the library answers a test on a missing cell
    with [False], and that lack one of the required columns. *)
Theorem missing_columns_reported_exactly : forall L fid sid fn df,
  extract L fid sid fn df
    = (Returns none_result, [Print (SkippingMissingColumns fid)]) <->
  exists g,
    getitem df "gene_id" = Returns g /\
    infer_dtype L (s_values g) = DtObject /\
    (existsb (is_na L) (s_values g) = false \/ na_is_false L = true) /\
    forallb (fun col => has_column col df) required_columns = false.
Proof.
  intros L fid sid fn df. rewrite extract_eq. split.
  - destruct (getitem df "gene_id") as [g|e] eqn:Hg; [|discriminate].
    rewrite row_filter_decision.
    destruct (infer_dtype L (s_values g)) eqn:Hd; try discriminate.
    destruct (nan_in_mask L (s_values g)) eqn:Hna; [discriminate|].
    destruct (forallb (fun col => has_column col df) required_columns) eqn:Hall.
    + destruct (getitem df "gene_name"), (getitem df "tpm_unstranded"),
        (getitem df "fpkm_unstranded"), (getitem df "fpkm_uq_unstranded");
        discriminate.
    + intros _. exists g. split; [reflexivity|]. split; [exact Hd|].
      split; [|reflexivity].
      unfold nan_in_mask in Hna. apply andb_false_iff in Hna.
      destruct Hna as [Hna|Hna]; [now left | right].
      now apply negb_false_iff.
  - intros (g & Hg & Hd & Hna & Hall).
    assert (Hm : nan_in_mask L (s_values g) = false).
    { unfold nan_in_mask. destruct Hna as [-> | ->]; [reflexivity|].
      apply andb_false_r. }
    now rewrite Hg, row_filter_decision, Hd, Hm, Hall.
Qed.

(** X2.  Where other tables go: without [gene_id] the filter of line 29
    raises [KeyError]; with a numeric or boolean [gene_id] column it
    raises [AttributeError]; and with a missing gene id it raises
    [TypeError] where the library answers a test on a missing cell with
    NaN.  None of them reaches the column check, and nothing is printed
    before the exception. *)
Theorem row_filter_failures : forall L fid sid fn df,
  (has_column "gene_id" df = false ->
   extract L fid sid fn df = (Raises (KeyError "gene_id"), [])) /\
  (forall g,
     getitem df "gene_id" = Returns g ->
     infer_dtype L (s_values g) <> DtObject ->
     exists msg,
       extract L fid sid fn df = (Raises (AttributeError msg), [])) /\
  (forall g,
     getitem df "gene_id" = Returns g ->
     infer_dtype L (s_values g) = DtObject ->
     existsb (is_na L) (s_values g) = true ->
     na_is_false L = false ->
     exists msg,
       extract L fid sid fn df = (Raises (TypeError msg), [])).
Proof.
  intros L fid sid fn df. rewrite extract_eq. split; [|split].
  - intros H. now rewrite (getitem_missing df "gene_id" H).
  - intros g -> Hd. rewrite row_filter_decision.
    destruct (infer_dtype L (s_values g)); [contradiction | eexists; reflexivity..].
  - intros g -> Hd Hna Hv. rewrite row_filter_decision, Hd.
    unfold nan_in_mask. rewrite Hna, Hv. eexists. reflexivity.
Qed.

Lemma row_filter_failures_witness :
  exists msg,
    extract pandas_lexicon "f1" "S1" "f1.tsv"
      (build_frame ["gene_id"; "gene_name"] [["7"; "A"]; ["8"; "B"]]) =
    (Raises (AttributeError msg), []).
Proof.
  apply (proj1 (proj2 (row_filter_failures pandas_lexicon "f1" "S1" "f1.tsv"
           (build_frame ["gene_id"; "gene_name"] [["7"; "A"]; ["8"; "B"]])))
         (mkSeries "gene_id" [Pos 0; Pos 1] ["7"; "8"])).
  - reflexivity.
  - vm_compute. discriminate.
Defined.

(** What a successful call went through. *)
Lemma process_file_success : forall env fid sid fn ep r t,
  process_file env fid sid fn ep = (Returns r, t) ->
  is_success r = true ->
  exists content raw df keep,
    fetch env (data_url ep fid) = Returns content /\
    frame_decode env content = Returns raw /\
    read_csv raw = Returns df /\
    extracted (lexicon env) sid df keep r /\
    t = [Get (data_url ep fid); Print (ProcessedFile fn sid)].
Proof.
  intros env fid sid fn ep r t H Hs.
  destruct (process_file_split env fid sid fn ep)
    as [(r' & t' & Hb & Hp) | (e & t' & Hb & Hp)];
    rewrite Hp in H; injection H as <- <-; [|discriminate].
  rewrite process_file_body_eq in Hb.
  destruct (fetch env (data_url ep fid)) as [content|] eqn:Hf; [|discriminate].
  destruct (parse_payload env fid sid fn content) as [c tp] eqn:Hpp.
  simpl in Hb. injection Hb as -> <-.
  apply parse_payload_returns in Hpp.
  destruct Hpp as (raw & df & Hd & Hr & Hx).
  apply extract_returns in Hx.
  destruct Hx as [(-> & _) | (-> & keep & Hx)]; [discriminate|].
  now exists content, raw, df, keep.
Qed.

(** ** C5: the five sequences of a parsed sample *)

Lemma positions_from_in : forall mask i j,
  In j (positions_from i mask) <->
  i <= j /\ j < i + List.length mask /\ nth (j - i) mask false = true.
Proof.
  induction mask as [|b m IH]; intros i j.
  - simpl. split; [contradiction | lia].
  - assert (Hrec : In j (positions_from (S i) m) <->
                   S i <= j /\ j < i + List.length (b :: m) /\
                   nth (j - i) (b :: m) false = true).
    { rewrite IH. simpl List.length. split.
      - intros (H1 & H2 & H3). replace (j - i) with (S (j - S i)) by lia.
        repeat split; [lia | lia | exact H3].
      - intros (H1 & H2 & H3). replace (j - i) with (S (j - S i)) in H3 by lia.
        repeat split; [lia | lia | exact H3]. }
    destruct b; cbn [positions_from].
    + cbn [In]. rewrite Hrec. split.
      * intros [<- | (H1 & H2 & H3)].
        -- rewrite Nat.sub_diag. simpl. repeat split; lia.
        -- repeat split; [lia | exact H2 | exact H3].
      * intros (H1 & H2 & H3).
        destruct (Nat.eq_dec i j) as [->|Hne]; [now left | right].
        repeat split; [lia | exact H2 | exact H3].
    + rewrite Hrec. split.
      * intros (H1 & H2 & H3). repeat split; [lia | exact H2 | exact H3].
      * intros (H1 & H2 & H3).
        destruct (Nat.eq_dec i j) as [->|Hne].
        -- rewrite Nat.sub_diag in H3. discriminate.
        -- repeat split; [lia | exact H2 | exact H3].
Qed.

Lemma filtered_rows_in : forall vals j,
  In j (filtered_rows vals) <->
  j < List.length vals /\ startswith "N_" (nth j vals "") = false.
Proof.
  intros vals j. unfold filtered_rows. rewrite positions_from_in.
  rewrite length_map, Nat.sub_0_r. simpl. split.
  - intros (_ & Hlt & Hn). split; [exact Hlt|].
    rewrite (nth_indep _ false (negb (startswith "N_" ""))) in Hn
      by now rewrite length_map.
    rewrite (map_nth (fun v => negb (startswith "N_" v))) in Hn.
    now apply negb_true_iff.
  - intros (Hlt & Hn). split; [lia|]. split; [exact Hlt|].
    rewrite (nth_indep _ false (negb (startswith "N_" "")))
      by now rewrite length_map.
    rewrite (map_nth (fun v => negb (startswith "N_" v))).
    now apply negb_true_iff.
Qed.

(** C5.  Every successful result of [process_file] comes from the table
    read from the downloaded payload, and its five sequences are the cells
    of one and the same rows of that table: the rows whose gene id does not
    begin with [N_], each of them once and in the table's order.  Gene
    ids, gene names and the three measure series are the columns
    [gene_id], [gene_name], [tpm_unstranded], [fpkm_unstranded] and
    [fpkm_uq_unstranded] taken at those rows, so the entries at one
    position of the five sequences belong to one row; the three series
    carry the labels of those rows and the sample id as their name; and
    all five have one length, the number of rows kept. *)
Theorem C5_sequences_aligned : forall env fid sid fn ep r t tpm,
  process_file env fid sid fn ep = (Returns r, t) ->
  r_tpm r = Some tpm ->
  exists fpkm uq ids names,
    r = mkResult (Some tpm) (Some fpkm) (Some uq) (Some ids) (Some names) /\
    List.length names = List.length ids /\
    List.length (s_values tpm) = List.length ids /\
    List.length (s_values fpkm) = List.length ids /\
    List.length (s_values uq) = List.length ids /\
    exists content raw df g n tc fc uc,
      fetch env (data_url ep fid) = Returns content /\
      frame_decode env content = Returns raw /\
      read_csv raw = Returns df /\
      getitem df "gene_id" = Returns g /\
      getitem df "gene_name" = Returns n /\
      getitem df "tpm_unstranded" = Returns tc /\
      getitem df "fpkm_unstranded" = Returns fc /\
      getitem df "fpkm_uq_unstranded" = Returns uc /\
      List.length (s_values g) = List.length (index df) /\
      List.length (s_values n) = List.length (index df) /\
      List.length (s_values tc) = List.length (index df) /\
      List.length (s_values fc) = List.length (index df) /\
      List.length (s_values uc) = List.length (index df) /\
      StronglySorted lt (filtered_rows (s_values g)) /\
      (forall j,
         In j (filtered_rows (s_values g)) <->
         j < List.length (index df) /\
         startswith "N_" (nth j (s_values g) "") = false) /\
      List.length ids = List.length (filtered_rows (s_values g)) /\
      ids = take_rows "" (filtered_rows (s_values g)) (s_values g) /\
      names = take_rows "" (filtered_rows (s_values g)) (s_values n) /\
      s_values tpm = take_rows "" (filtered_rows (s_values g)) (s_values tc) /\
      s_values fpkm = take_rows "" (filtered_rows (s_values g)) (s_values fc) /\
      s_values uq = take_rows "" (filtered_rows (s_values g)) (s_values uc) /\
      s_index tpm = take_rows (Pos 0) (filtered_rows (s_values g)) (index df) /\
      s_index fpkm = s_index tpm /\ s_index uq = s_index tpm /\
      s_name tpm = sid /\ s_name fpkm = sid /\ s_name uq = sid.
Proof.
  intros env fid sid fn ep r t tpm Hp Htpm.
  assert (Hs : is_success r = true) by (unfold is_success; now rewrite Htpm).
  destruct (process_file_success _ _ _ _ _ _ _ Hp Hs)
    as (content & raw & df & keep & Hf & Hd & Hr & Hx & _).
  pose proof (read_csv_rectangular _ _ Hr) as Hrect.
  destruct (extracted_lengths _ _ _ _ _ Hrect Hx)
    as (tpm' & fpkm & uq & ids & names & -> & _ & _ & _ & _ & _ & _ & L1 & L2 & L3 & L4).
  simpl in Htpm. injection Htpm as ->.
  exists fpkm, uq, ids, names. repeat (split; [assumption || reflexivity|]).
  destruct Hx as (g & n & tc & fc & uc & starts & Hg & Hn & Htc & Hfc & Huc & Hst & Hk & Hres).
  injection Hres as -> -> -> -> ->.
  pose proof (row_filter_decision (lexicon env) g) as Hdec.
  rewrite Hst in Hdec. simpl cbind in Hdec. rewrite Hk in Hdec.
  destruct (infer_dtype (lexicon env) (s_values g)); try discriminate.
  destruct (nan_in_mask (lexicon env) (s_values g)); [discriminate|].
  injection Hdec as ->.
  destruct (getitem_shape _ _ _ Hrect Hg) as (_ & _ & Lg).
  destruct (getitem_shape _ _ _ Hrect Hn) as (_ & _ & Ln).
  destruct (getitem_shape _ _ _ Hrect Htc) as (_ & _ & Lt).
  destruct (getitem_shape _ _ _ Hrect Hfc) as (_ & _ & Lf).
  destruct (getitem_shape _ _ _ Hrect Huc) as (_ & _ & Lu).
  set (mask := map (fun v => negb (startswith "N_" v)) (s_values g)) in *.
  assert (Hlen : List.length mask = List.length (index df)).
  { unfold mask. now rewrite length_map. }
  exists content, raw, df, g, n, tc, fc, uc.
  repeat (split; [assumption|]).
  split; [apply positions_from_sorted|].
  split; [intros j; rewrite filtered_rows_in, Lg; reflexivity|].
  assert (Hsel : forall A (d : A) (l : list A),
            List.length l = List.length (index df) ->
            select mask l = take_rows d (filtered_rows (s_values g)) l).
  { intros A d l Hl. apply select_positions. congruence. }
  split.
  { rewrite (Hsel _ "" _ Lg). unfold take_rows. now rewrite length_map. }
  simpl.
  split; [now apply Hsel|]. split; [now apply Hsel|].
  split; [now apply Hsel|]. split; [now apply Hsel|].
  split; [now apply Hsel|]. split; [now apply Hsel|].
  repeat split; reflexivity.
Qed.

Lemma C5_sequences_aligned_witness :
  exists r t tpm,
    process_file (serve small_table) "f1" "S1" "f1.tsv" DATA_ENDPOINT
      = (Returns r, t) /\
    r_tpm r = Some tpm /\
    exists fpkm uq ids names,
      r = mkResult (Some tpm) (Some fpkm) (Some uq) (Some ids) (Some names) /\
      List.length names = List.length ids /\
      List.length (s_values tpm) = List.length ids.
Proof.
  eexists _, _, _.
  split; [vm_compute; reflexivity|]. split; [reflexivity|].
  destruct (C5_sequences_aligned (serve small_table) "f1" "S1" "f1.tsv"
              DATA_ENDPOINT _ _ _ ltac:(vm_compute; reflexivity) eq_refl)
    as (fpkm & uq & ids & names & Hr & Hn & Ht & _).
  exists fpkm, uq, ids, names. repeat split; assumption.
Defined.

(** ** C7: the table the extractor works on *)

(** The gene ids of a successful call, from the table read. *)
Lemma success_gene_ids : forall env fid sid fn ep r t ids,
  process_file env fid sid fn ep = (Returns r, t) ->
  r_gene_ids r = Some ids ->
  exists content raw df g,
    fetch env (data_url ep fid) = Returns content /\
    frame_decode env content = Returns raw /\
    read_csv raw = Returns df /\
    getitem df "gene_id" = Returns g /\
    ids = filter (fun v => negb (startswith "N_" v)) (s_values g).
Proof.
  intros env fid sid fn ep r t ids H Hids.
  assert (Hs : is_success r = true).
  { destruct (process_file_shape _ _ _ _ _ _ _ H)
      as [-> | (df & keep & _ & (g & n & tc & fc & uc & st & _ & _ & _ & _ & _ & _ & _ & ->))];
      [discriminate | reflexivity]. }
  destruct (process_file_success _ _ _ _ _ _ _ H Hs)
    as (content & raw & df & keep & Hf & Hd & Hr & Hx & _).
  destruct Hx as (g & n & tc & fc & uc & starts & Hg & _ & _ & _ & _ & Hst & Hk & ->).
  simpl in Hids. injection Hids as <-.
  pose proof (row_filter_decision (lexicon env) g) as Hdec.
  rewrite Hst in Hdec. simpl cbind in Hdec. rewrite Hk in Hdec.
  destruct (infer_dtype (lexicon env) (s_values g)); try discriminate.
  destruct (nan_in_mask (lexicon env) (s_values g)); [discriminate|].
  injection Hdec as ->.
  exists content, raw, df, g. repeat (split; [assumption|]).
  now rewrite select_map_filter.
Qed.

(** C7 (amended).  A stream of lines none of whose fields begins with a
    quote character, each ended by a line feed or by a carriage return
    and a line feed, the last one possibly by the end of the stream, is
    read as a tab-delimited table in which the lines beginning with [#]
    and the blank lines are ignored and every other line is kept up to
    its first [#], the rest of the line being dropped (a byte-order mark
    at the very beginning is skipped).  The rows come out in the order of
    their lines, changed at most by empty fields appended to short rows;
    the first of them is the header and the table holds the others in
    that order, each column with the fields of its position row by row;
    and the gene ids a successful call returns are the [gene_id] fields
    of those rows that do not begin with [N_], in the order of the
    lines. *)
Theorem C7_reader_by_lines : forall ls,
  Forall (fun l => unquoted_line l = true) (strip_bom_first (map fst ls)) ->
  well_ended ls = true ->
  tokenize (stream_of ls)
    = close_all [] (rows_as_read (strip_bom_first (map fst ls))) /\
  (forall rows,
     tokenize (stream_of ls) = Returns rows ->
     Forall2 (fun raw row => exists k, row = raw ++ repeat "" k)
             (rows_as_read (strip_bom_first (map fst ls))) rows) /\
  (forall payload,
     utf8_valid payload = true ->
     string_of_list_byte payload = stream_of ls ->
     read_csv payload =
     frame_of_rows
       (close_all [] (rows_as_read (strip_bom_first (map fst ls))))) /\
  (forall header body col j,
     find_column col header = Some j ->
     getitem (build_frame header body) col =
     Returns (mkSeries col (index (build_frame header body))
                       (column_cells header body j))) /\
  (forall env fid sid fn ep content payload r t ids,
     fetch env (data_url ep fid) = Returns content ->
     frame_decode env content = Returns payload ->
     utf8_valid payload = true ->
     string_of_list_byte payload = stream_of ls ->
     process_file env fid sid fn ep = (Returns r, t) ->
     r_gene_ids r = Some ids ->
     exists header body j,
       close_all [] (rows_as_read (strip_bom_first (map fst ls)))
         = Returns (header :: body) /\
       find_column "gene_id" header = Some j /\
       ids = filter (fun v => negb (startswith "N_" v))
                    (column_cells header body j)).
Proof.
  intros ls Hall Hw.
  split; [now apply tokenize_stream|]. split.
  { intros rows H. rewrite tokenize_stream in H by assumption.
    apply close_all_rows in H. destruct H as (out' & -> & Hf). exact Hf. }
  split; [intros payload Hu Ht; now apply read_csv_stream|].
  split; [apply getitem_build_frame|].
  intros env fid sid fn ep content payload r t ids Hf Hd Hu Ht Hp Hids.
  destruct (success_gene_ids _ _ _ _ _ _ _ _ Hp Hids)
    as (content' & raw & df & g & Hf' & Hd' & Hr & Hg & ->).
  rewrite Hf in Hf'. injection Hf' as <-.
  rewrite Hd in Hd'. injection Hd' as <-.
  rewrite (read_csv_stream ls payload Hall Hw Hu Ht) in Hr.
  apply frame_of_rows_returns in Hr.
  destruct Hr as (header & body & Hrows & ->).
  unfold getitem in Hg.
  change (columns (build_frame header body)) with header in Hg.
  destruct (find_column "gene_id" header) as [j|] eqn:Hj; [|discriminate].
  exists header, body, j. split; [exact Hrows|]. split; [exact Hj|].
  pose proof (getitem_build_frame header body "gene_id" j Hj) as Hg'.
  unfold getitem in Hg'.
  change (columns (build_frame header body)) with header in Hg'.
  rewrite Hj in Hg'. rewrite Hg' in Hg. injection Hg as <-. reflexivity.
Qed.

Lemma C7_reader_by_lines_witness :
  tokenize (stream_of [(tsv ["gene_id"; "gene_name"], EndCRLF);
                       ("# note", EndLF);
                       (tsv ["ENSG1"; "A#1"], EndLF);
                       ("", EndCRLF);
                       (tsv ["ENSG2"; snoc "B" QUOTE], EndOfFile)]) =
  Returns [["gene_id"; "gene_name"]; ["ENSG1"; "A"];
           ["ENSG2"; snoc "B" QUOTE]].
Proof.
  rewrite (proj1 (C7_reader_by_lines
                    [(tsv ["gene_id"; "gene_name"], EndCRLF);
                     ("# note", EndLF);
                     (tsv ["ENSG1"; "A#1"], EndLF);
                     ("", EndCRLF);
                     (tsv ["ENSG2"; snoc "B" QUOTE], EndOfFile)]
                    ltac:(repeat constructor) eq_refl)).
  reflexivity.
Defined.

(** X3.  The gene ids of a successful call are the gene ids of the table that
    do not begin with [N_], all of them and in the table's order; none of
    the returned ids begins with [N_]. *)
Theorem gene_ids_are_the_filtered_column : forall env fid sid fn ep r t ids,
  process_file env fid sid fn ep = (Returns r, t) ->
  r_gene_ids r = Some ids ->
  exists content raw df g,
    fetch env (data_url ep fid) = Returns content /\
    frame_decode env content = Returns raw /\
    read_csv raw = Returns df /\
    getitem df "gene_id" = Returns g /\
    ids = filter (fun v => negb (startswith "N_" v)) (s_values g) /\
    Forall (fun v => startswith "N_" v = false) ids.
Proof.
  intros env fid sid fn ep r t ids H Hids.
  assert (Hs : is_success r = true).
  { destruct (process_file_shape _ _ _ _ _ _ _ H)
      as [-> | (df & keep & _ & (g & n & tc & fc & uc & st & _ & _ & _ & _ & _ & _ & _ & ->))];
      [discriminate | reflexivity]. }
  destruct (process_file_success _ _ _ _ _ _ _ H Hs)
    as (content & raw & df & keep & Hf & Hd & Hr & Hx & _).
  destruct Hx as (g & n & tc & fc & uc & starts & Hg & _ & _ & _ & _ & Hst & Hk & ->).
  simpl in Hids. injection Hids as <-.
  pose proof (row_filter_decision (lexicon env) g) as Hdec.
  rewrite Hst in Hdec. simpl cbind in Hdec. rewrite Hk in Hdec.
  destruct (infer_dtype (lexicon env) (s_values g)); try discriminate.
  destruct (nan_in_mask (lexicon env) (s_values g)); [discriminate|].
  injection Hdec as ->.
  exists content, raw, df, g. repeat (split; [assumption|]).
  rewrite select_map_filter. split; [reflexivity|].
  apply Forall_forall. intros v Hv. apply filter_In in Hv.
  now apply negb_true_iff.
Qed.

Lemma gene_ids_are_the_filtered_column_witness :
  exists ids,
    r_gene_ids (small_result "S1") = Some ids /\
    Forall (fun v => startswith "N_" v = false) ids.
Proof.
  eexists. split; [vm_compute; reflexivity|].
  destruct (gene_ids_are_the_filtered_column (serve small_table) "f1" "S1"
              "f1.tsv" DATA_ENDPOINT _ _ _
              ltac:(vm_compute; reflexivity) ltac:(vm_compute; reflexivity))
    as (content & raw & df & g & _ & _ & _ & _ & _ & Hall).
  exact Hall.
Defined.

Lemma missing_columns_reported_exactly_witness :
  extract pandas_lexicon "f1" "S1" "f1.tsv"
    (build_frame ["gene_id"; "gene_name"] [["ENSG1"; "A"]]) =
  (Returns none_result, [Print (SkippingMissingColumns "f1")]).
Proof.
  apply (proj2 (missing_columns_reported_exactly pandas_lexicon "f1" "S1"
                  "f1.tsv" (build_frame ["gene_id"; "gene_name"] [["ENSG1"; "A"]]))).
  exists (mkSeries "gene_id" [Pos 0] ["ENSG1"]).
  split; [reflexivity|]. split; [reflexivity|]. split; [now left | reflexivity].
Defined.

(** ** [process_file]: one request, one line of output *)

Lemma extract_raises : forall L fid sid fn df e t,
  extract L fid sid fn df = (Raises e, t) -> t = [].
Proof.
  intros L fid sid fn df e t. rewrite extract_eq.
  destruct (getitem df "gene_id") as [g|e0];
    [|intros H; now injection H as _ <-].
  destruct (cbind _ _) as [keep|e0]; [|intros H; now injection H as _ <-].
  destruct (forallb _ _); [|discriminate].
  destruct (getitem df "gene_name"), (getitem df "tpm_unstranded"),
    (getitem df "fpkm_unstranded"), (getitem df "fpkm_uq_unstranded");
    discriminate.
Qed.

(** The trace and the result of a call. *)
Lemma process_file_trace : forall env fid sid fn ep,
  exists r d,
    process_file env fid sid fn ep
      = (Returns r, [Get (data_url ep fid); Print d]) /\
    ((is_success r = true /\ d = ProcessedFile fn sid /\
      exists tpm fpkm uq ids names,
        r = mkResult (Some tpm) (Some fpkm) (Some uq) (Some ids) (Some names)) \/
     (r = none_result /\
      (d = SkippingMissingColumns fid \/ exists e, d = ErrorProcessing fid e))).
Proof.
  intros env fid sid fn ep. unfold process_file, try_except.
  rewrite process_file_body_eq.
  destruct (fetch env (data_url ep fid)) as [content|e].
  2:{ exists none_result, (ErrorProcessing fid e). split; [reflexivity|].
      right. split; [reflexivity|]. right. now exists e. }
  unfold parse_payload.
  destruct (cbind (frame_decode env content) (fun raw => read_csv raw))
    as [df|e].
  2:{ rewrite bind_lift_raises. cbn.
      exists none_result, (ErrorProcessing fid e). split; [reflexivity|].
      right. split; [reflexivity|]. right. now exists e. }
  rewrite bind_lift_returns.
  destruct (extract (lexicon env) fid sid fn df) as [[r|e] t] eqn:Hx; cbn.
  - apply extract_returns in Hx.
    destruct Hx as [(-> & -> & _) | (-> & keep & Hx)].
    + exists none_result, (SkippingMissingColumns fid).
      split; [reflexivity|]. right. split; [reflexivity|]. now left.
    + exists r, (ProcessedFile fn sid). split; [reflexivity|]. left.
      destruct Hx as (g & n & tc & fc & uc & st & _ & _ & _ & _ & _ & _ & _ & ->).
      split; [reflexivity|]. split; [reflexivity|].
      do 5 eexists. reflexivity.
  - apply extract_raises in Hx. subst t.
    exists none_result, (ErrorProcessing fid e). split; [reflexivity|].
    right. split; [reflexivity|]. right. now exists e.
Qed.

(** X4.  Every call issues exactly one request, to [data_endpoint/file_id],
    and prints exactly one line; it returns the five values together with
    "Processed file", and the all-[None] tuple with either "Skipping
    file" or "Error processing file". *)
Theorem one_request_one_line : forall env fid sid fn ep,
  exists r d,
    process_file env fid sid fn ep
      = (Returns r, [Get (data_url ep fid); Print d]) /\
    ((is_success r = true /\ d = ProcessedFile fn sid /\
      exists tpm fpkm uq ids names,
        r = mkResult (Some tpm) (Some fpkm) (Some uq) (Some ids) (Some names)) \/
     (r = none_result /\
      (d = SkippingMissingColumns fid \/ exists e, d = ErrorProcessing fid e))).
Proof. exact process_file_trace. Qed.

(** ** [process_file]: nothing to parse, and a header without rows *)

Lemma ignored_strip_bom : forall l, ignored l = true -> strip_bom l = l.
Proof.
  intros [|a [|b [|c l]]] H; try reflexivity.
  cbn [strip_bom]. unfold ignored, startswith in H.
  cbn [String.prefix all_spaces] in H.
  replace (nat_of_ascii a =? 239) with false; [reflexivity|].
  destruct (Ascii.ascii_dec "#" a) as [<-|_]; [reflexivity|].
  cbn [orb] in H. apply andb_prop in H. destruct H as [H _].
  apply Ascii.eqb_eq in H. now subst a.
Qed.

Lemma rows_as_read_ignored : forall ls,
  Forall (fun l => ignored l = true) ls -> rows_as_read ls = [].
Proof.
  intros ls H. unfold rows_as_read.
  rewrite (filter_none _ (fun l => negb (ignored l)) ls); [reflexivity|].
  rewrite Forall_forall in H. intros l Hl. now rewrite (H l Hl).
Qed.

(** X5.  A download with nothing to parse (an empty body, or blank and comment
    lines only) is a failed sample: the reader raises "no columns to
    parse", and the call returns the all-[None] tuple. *)
Theorem nothing_to_parse : forall env fid sid fn ep content raw ls,
  fetch env (data_url ep fid) = Returns content ->
  frame_decode env content = Returns raw ->
  utf8_valid raw = true ->
  string_of_list_byte raw = unlines ls ->
  Forall (fun l => plain_line l = true) ls ->
  Forall (fun l => ignored l = true) ls ->
  process_file env fid sid fn ep =
  (Returns none_result,
   [Get (data_url ep fid); Print (ErrorProcessing fid EmptyDataError)]).
Proof.
  intros env fid sid fn ep content raw ls Hf Hd Hu Ht Hp Hi.
  assert (Hr : read_csv raw = Raises EmptyDataError).
  { unfold read_csv, decode_utf8. rewrite Hu. simpl cbind. rewrite Ht.
    rewrite tokenize_lines by assumption.
    assert (Hs : strip_bom_first ls = ls).
    { destruct ls as [|l ls']; [reflexivity|]. simpl.
      inversion Hi; subst. now rewrite ignored_strip_bom. }
    now rewrite Hs, rows_as_read_ignored. }
  unfold process_file, try_except. rewrite process_file_body_eq, Hf.
  unfold parse_payload. rewrite Hd. simpl cbind. rewrite Hr.
  reflexivity.
Qed.

Lemma nothing_to_parse_witness :
  process_file (serve (list_byte_of_string (unlines ["# gene-model: v36"; ""; "  "])))
               "f1" "S1" "f1.tsv" DATA_ENDPOINT =
  (Returns none_result,
   [Get (data_url DATA_ENDPOINT "f1");
    Print (ErrorProcessing "f1" EmptyDataError)]).
Proof.
  apply (nothing_to_parse
           (serve (list_byte_of_string (unlines ["# gene-model: v36"; ""; "  "])))
           "f1" "S1" "f1.tsv" DATA_ENDPOINT
           (list_byte_of_string (unlines ["# gene-model: v36"; ""; "  "]))
           (list_byte_of_string (unlines ["# gene-model: v36"; ""; "  "]))
           ["# gene-model: v36"; ""; "  "]);
    try reflexivity; repeat constructor.
Defined.

Lemma find_column_in : forall col names,
  In col names -> exists j, find_column col names = Some j.
Proof.
  intros col names; induction names as [|n ns IH]; intros H; [contradiction|].
  simpl. destruct (String.eqb n col) eqn:E; [now exists 0|].
  destruct H as [->|H]; [now rewrite String.eqb_refl in E|].
  destruct (IH H) as [j ->]. now exists (S j).
Qed.

Lemma nth_map_nil : forall A B (l : list A) j,
  nth j (map (fun _ => @nil B) l) [] = [].
Proof.
  intros A B l; induction l as [|x l IH]; intros [|j]; simpl; auto.
Qed.

Lemma getitem_header_only : forall header col,
  In col header ->
  getitem (build_frame header []) col = Returns (mkSeries col [] []).
Proof.
  intros header col H. unfold getitem, build_frame. simpl.
  destruct (find_column_in col header H) as [j ->].
  now rewrite nth_map_nil.
Qed.

(** X6.  A table that has the five columns and not a single data row is a
    success: the call returns five empty sequences under the sample id. *)
Theorem header_only_table_succeeds : forall L fid sid fn header,
  (forall col, In col required_columns -> In col header) ->
  extract L fid sid fn (build_frame header []) =
  (Returns (mkResult (Some (mkSeries sid [] [])) (Some (mkSeries sid [] []))
                     (Some (mkSeries sid [] [])) (Some []) (Some [])),
   [Print (ProcessedFile fn sid)]).
Proof.
  intros L fid sid fn header H.
  assert (Hg : forall col, In col required_columns ->
            getitem (build_frame header []) col = Returns (mkSeries col [] [])).
  { intros col Hc. apply getitem_header_only. now apply H. }
  assert (Hall : forallb (fun col => has_column col (build_frame header []))
                   required_columns = true).
  { apply forallb_forall. intros col Hc. apply getitem_has_column.
    eexists. now apply Hg. }
  rewrite extract_eq, Hall.
  rewrite !Hg by (simpl; tauto).
  reflexivity.
Qed.

Lemma header_only_table_succeeds_witness :
  extract pandas_lexicon "f1" "S1" "f1.tsv" (build_frame header5 []) =
  (Returns (mkResult (Some (mkSeries "S1" [] [])) (Some (mkSeries "S1" [] []))
                     (Some (mkSeries "S1" [] [])) (Some []) (Some [])),
   [Print (ProcessedFile "f1.tsv" "S1")]).
Proof.
  apply (header_only_table_succeeds pandas_lexicon "f1" "S1" "f1.tsv" header5).
  intros col H. exact H.
Defined.

(** ** The gene axis of a group *)

Lemma axis_sticky : forall rs a g,
  new_gene_ids a = Some g ->
  new_gene_ids (fold_left collect_step rs a) = Some g /\
  new_gene_names (fold_left collect_step rs a) = new_gene_names a.
Proof.
  induction rs as [|r rs IH]; intros a g Hg; simpl; [now split|].
  assert (H : new_gene_ids (collect_step a r) = Some g /\
              new_gene_names (collect_step a r) = new_gene_names a).
  { unfold collect_step. destruct (r_tpm r); [|now split].
    simpl. now rewrite Hg. }
  destruct H as [H1 H2]. destruct (IH _ _ H1) as [I1 I2].
  split; congruence.
Qed.

Lemma success_components : forall r,
  well_formed r -> is_success r = true ->
  exists tpm fpkm uq ids names,
    r = mkResult (Some tpm) (Some fpkm) (Some uq) (Some ids) (Some names) /\
    s_name fpkm = s_name tpm /\ s_name uq = s_name tpm /\
    s_index fpkm = s_index tpm /\ s_index uq = s_index tpm /\
    List.length (s_index tpm) = List.length ids /\
    List.length names = List.length ids.
Proof.
  intros r [-> | H] Hs; [discriminate | exact H].
Qed.

(** The axis the loop ends with. *)
Lemma first_success_axis : forall results r0 rest,
  Forall parsed results ->
  filter is_success results = r0 :: rest ->
  new_gene_ids (aggregate results) = r_gene_ids r0 /\
  new_gene_names (aggregate results) = r_gene_names r0 /\
  exists ids names, r_gene_ids r0 = Some ids /\ r_gene_names r0 = Some names.
Proof.
  intros results r0 rest Hall Hf.
  assert (Hin : In r0 (filter is_success results)) by (rewrite Hf; now left).
  apply filter_In in Hin. destruct Hin as [Hin Hs].
  rewrite Forall_forall in Hall.
  destruct (success_components r0 (parsed_well_formed _ (Hall _ Hin)) Hs)
    as (tpm & fpkm & uq & ids & names & -> & _).
  unfold aggregate. rewrite fold_collect_successes, Hf. simpl fold_left.
  destruct (axis_sticky rest
              (collect_step fresh
                 (mkResult (Some tpm) (Some fpkm) (Some uq) (Some ids) (Some names)))
              ids eq_refl) as [H1 H2].
  rewrite H1, H2. simpl. repeat split. now exists ids, names.
Qed.

(** X9.  The gene axis of a group is the one of the first result that
    succeeded; no later result changes it, whatever genes it lists. *)
Theorem axis_is_the_first_success : forall results r0 rest,
  Forall parsed results ->
  filter is_success results = r0 :: rest ->
  new_gene_ids (aggregate results) = r_gene_ids r0 /\
  new_gene_names (aggregate results) = r_gene_names r0 /\
  exists ids names, r_gene_ids r0 = Some ids /\ r_gene_names r0 = Some names.
Proof. exact first_success_axis. Qed.

Lemma axis_is_the_first_success_witness :
  new_gene_ids (aggregate (results_of mixed_files mixed_site))
    = Some ["ENSG1"].
Proof.
  destruct (axis_is_the_first_success (results_of mixed_files mixed_site)
              (result_of (submit mixed_files
                 (mkSample "S1" "Primary Tumor" "TCGA-X" "f1" "f1.tsv")))
              [result_of (submit mixed_files
                 (mkSample "S2" "Tumor Adjacent Normal" "TCGA-X" "f2" "f2.tsv"))])
    as (H & _).
  - unfold results_of. apply Forall_forall. intros r Hin.
    apply in_map_iff in Hin. destruct Hin as (row & <- & _).
    apply result_of_parsed.
  - vm_compute. reflexivity.
  - rewrite H. vm_compute. reflexivity.
Defined.

(** ** Assembling the matrices of aligned samples *)

Lemma present_success_indexes : forall results,
  Forall well_formed results ->
  map s_index (present (map r_fpkm (filter is_success results)))
    = map s_index (present (map r_tpm results)) /\
  map s_index (present (map r_fpkm_uq (filter is_success results)))
    = map s_index (present (map r_tpm results)).
Proof.
  unfold present.
  induction 1 as [|r rs Hr _ [IH1 IH2]]; simpl; [now split|].
  destruct Hr as [-> | (tpm & fpkm & uq & ids & names & -> & _ & _ & I1 & I2 & _)];
    simpl; [now split|].
  now rewrite IH1, IH2, I1, I2.
Qed.

Lemma present_tpm_successes : forall results,
  present (map r_tpm (filter is_success results)) = present (map r_tpm results).
Proof.
  unfold present. induction results as [|r rs IH]; [reflexivity|].
  cbn [filter map flat_map].
  destruct (r_tpm r) as [s|] eqn:E; unfold is_success; rewrite E.
  - cbn [map flat_map]. rewrite E. f_equal. exact IH.
  - exact IH.
Qed.

Lemma concat_aligned : forall objs s0 ss,
  present objs = s0 :: ss ->
  Forall (fun s => s_index s = s_index s0) ss ->
  concat objs =
  Returns (mkFrame (s_index s0)
             (map (fun s => (s_name s, map (@Some string) (s_values s)))
                  (s0 :: ss))).
Proof.
  intros objs s0 ss Hp Hall. unfold concat. fold (present objs). rewrite Hp.
  replace (forallb (fun s => index_eqb (s_index s0) (s_index s)) (s0 :: ss))
    with true; [reflexivity|].
  symmetry. apply forallb_forall. intros s [<- | Hin].
  - apply index_eqb_refl.
  - rewrite Forall_forall in Hall. rewrite (Hall s Hin). apply index_eqb_refl.
Qed.

Lemma insert0_fresh : forall name vs idx cols,
  existsb (fun c => String.eqb (fst c) name) cols = false ->
  List.length vs = List.length idx ->
  insert0 name (Some vs) (mkFrame idx cols) =
  Returns (mkFrame idx ((name, map (@Some string) vs) :: cols)).
Proof.
  intros name vs idx cols He Hl. unfold insert0. simpl. rewrite He.
  apply Nat.eqb_eq in Hl. now rewrite Hl.
Qed.

Lemma names_fresh : forall name (ss : list Series),
  Forall (fun n => n <> name) (map s_name ss) ->
  existsb (fun c => String.eqb (fst c) name)
    (map (fun s => (s_name s, map (@Some string) (s_values s))) ss) = false.
Proof.
  intros name ss H. induction ss as [|s ss IH]; simpl; [reflexivity|].
  inversion H as [|? ? Hn Hrest]; subst.
  apply String.eqb_neq in Hn. rewrite Hn. simpl. now apply IH.
Qed.

(** X10.  Samples whose series carry the same row labels are laid side by side
    under the first success's gene ids and names, one column per success
    in completion order, in each of the three matrices, provided no
    sample is called [gene_id] or [gene_name].  The gene ids of the later
    samples are not looked at. *)
Theorem aligned_samples_assemble : forall results r0 rest t0 ids names,
  Forall parsed results ->
  filter is_success results = r0 :: rest ->
  r_tpm r0 = Some t0 ->
  r_gene_ids r0 = Some ids ->
  r_gene_names r0 = Some names ->
  Forall (fun s => s_index s = s_index t0) (present (map r_tpm results)) ->
  Forall (fun s => s_name s <> "gene_id" /\ s_name s <> "gene_name")
         (present (map r_tpm results)) ->
  build_matrices (aggregate results) =
  Returns (Some
    (matrix_of (s_index t0) ids names (present (map r_tpm results)),
     matrix_of (s_index t0) ids names
       (present (map r_fpkm (filter is_success results))),
     matrix_of (s_index t0) ids names
       (present (map r_fpkm_uq (filter is_success results))))).
Proof.
  intros results r0 rest t0 ids names Hall Hf Ht Hids Hnames Hidx Hnm.
  assert (Hwf : Forall well_formed results).
  { eapply Forall_impl; [|exact Hall]. apply parsed_well_formed. }
  destruct (first_success_axis results r0 rest Hall Hf) as (A1 & A2 & _).
  destruct (aggregate_data results) as (Dt & Df & Du).
  destruct (present_success_names results Hwf) as (Nf & Nu & _).
  destruct (present_success_indexes results Hwf) as (If & Iu).
  assert (Hin : In r0 (filter is_success results)) by (rewrite Hf; now left).
  apply filter_In in Hin. destruct Hin as [Hin Hs].
  rewrite Forall_forall in Hwf.
  destruct (success_components r0 (Hwf _ Hin) Hs)
    as (tpm & fpkm & uq & ids' & names' & -> & N1 & N2 & I1 & I2 & L1 & L2).
  simpl in Ht, Hids, Hnames.
  injection Ht as ->. injection Hids as ->. injection Hnames as ->.
  (* the three lists of series begin with the first success's series *)
  assert (Pt : exists st, present (map r_tpm results) = t0 :: st).
  { rewrite <- present_tpm_successes, Hf. simpl. eauto. }
  destruct Pt as (st & Pt).
  assert (Pf : exists sf, present (map r_fpkm (filter is_success results)) = fpkm :: sf).
  { rewrite Hf. simpl. eauto. }
  assert (Pu : exists su, present (map r_fpkm_uq (filter is_success results)) = uq :: su).
  { rewrite Hf. simpl. eauto. }
  destruct Pf as (sf & Pf). destruct Pu as (su & Pu).
  unfold success_labels in Nf, Nu.
  assert (Ht_idx : Forall (fun i => i = s_index t0) (map s_index (t0 :: st))).
  { rewrite <- Pt. now apply Forall_map. }
  assert (Ht_g : Forall (fun n => n <> "gene_id") (map s_name (t0 :: st))).
  { rewrite <- Pt. apply Forall_map. eapply Forall_impl; [|exact Hnm].
    now intros s [? ?]. }
  assert (Ht_n : Forall (fun n => n <> "gene_name") (map s_name (t0 :: st))).
  { rewrite <- Pt. apply Forall_map. eapply Forall_impl; [|exact Hnm].
    now intros s [? ?]. }
  assert (Li : List.length ids = List.length (s_index t0)) by congruence.
  assert (Ln : List.length names = List.length (s_index t0)) by congruence.
  unfold build_matrices. rewrite Dt, Df, Du, A1, A2. simpl r_gene_ids.
  simpl r_gene_names. rewrite Pt at 1.
  (* the three concatenations *)
  rewrite (concat_aligned (map (@Some Series) (present (map r_tpm results))) t0 st).
  2:{ now rewrite present_map_some. }
  2:{ inversion Ht_idx; subst. now rewrite Forall_map in *. }
  rewrite (concat_aligned _ fpkm sf Pf).
  2:{ assert (H : Forall (fun i => i = s_index t0) (map s_index (fpkm :: sf))).
      { rewrite <- Pf, If, Pt. exact Ht_idx. }
      inversion H; subst. rewrite Forall_map in *.
      eapply Forall_impl; [|eassumption]. intros s Hs'. simpl in Hs'. congruence. }
  rewrite (concat_aligned _ uq su Pu).
  2:{ assert (H : Forall (fun i => i = s_index t0) (map s_index (uq :: su))).
      { rewrite <- Pu, Iu, Pt. exact Ht_idx. }
      inversion H; subst. rewrite Forall_map in *.
      eapply Forall_impl; [|eassumption]. intros s Hs'. simpl in Hs'. congruence. }
  rewrite I1, I2.
  assert (Fg : forall l, map s_name l = map s_name (t0 :: st) ->
             existsb (fun c => String.eqb (fst c) "gene_id")
               (map (fun s => (s_name s, map (@Some string) (s_values s))) l) = false).
  { intros l E. apply names_fresh. now rewrite E. }
  assert (Fn : forall l, map s_name l = map s_name (t0 :: st) ->
             existsb (fun c => String.eqb (fst c) "gene_name")
               (map (fun s => (s_name s, map (@Some string) (s_values s))) l) = false).
  { intros l E. apply names_fresh. now rewrite E. }
  assert (Ef : map s_name (fpkm :: sf) = map s_name (t0 :: st))
    by (now rewrite <- Pf, <- Pt).
  assert (Eu : map s_name (uq :: su) = map s_name (t0 :: st))
    by (now rewrite <- Pu, <- Pt).
  assert (Gid : forall l c1,
    map s_name l = map s_name (t0 :: st) ->
    existsb (fun c => String.eqb (fst c) "gene_id")
      (("gene_name", c1) ::
       map (fun s => (s_name s, map (@Some string) (s_values s))) l) = false).
  { intros l c1 E. cbn [existsb fst].
    change (String.eqb "gene_name" "gene_id") with false.
    cbn [orb]. now apply Fg. }
  cbn [cbind].
  rewrite insert0_fresh by (assumption || now apply Fn). cbn [cbind].
  rewrite insert0_fresh by (assumption || now apply Gid). cbn [cbind].
  rewrite insert0_fresh by (assumption || now apply Fn). cbn [cbind].
  rewrite insert0_fresh by (assumption || now apply Gid). cbn [cbind].
  rewrite insert0_fresh by (assumption || now apply Fn). cbn [cbind].
  rewrite insert0_fresh by (assumption || now apply Gid). cbn [cbind].
  unfold matrix_of. now rewrite Pt, Pf, Pu.
Qed.

Lemma aligned_samples_assemble_witness :
  exists t f u,
    build_matrices
      (aggregate [small_result "S1"; none_result; small_result "S2"])
      = Returns (Some (t, f, u)) /\
    fr_columns t =
      [("gene_id", [Some "ENSG1"]); ("gene_name", [Some "A"]);
       ("S1", [Some "1.0"]); ("S2", [Some "1.0"])].
Proof.
  eexists _, _, _. split.
  - eapply (aligned_samples_assemble
              [small_result "S1"; none_result; small_result "S2"]
              (small_result "S1") [small_result "S2"]).
    + exact (Forall_cons _ (small_result_parsed "S1")
               (Forall_cons _ none_result_parsed
                  (Forall_cons _ (small_result_parsed "S2") (Forall_nil _)))).
    + vm_compute. reflexivity.
    + vm_compute. reflexivity.
    + vm_compute. reflexivity.
    + vm_compute. reflexivity.
    + vm_compute. repeat constructor.
    + vm_compute. repeat constructor; discriminate.
  - vm_compute. reflexivity.
Defined.

(** ** Samples whose rows do not line up *)

Lemma label_eqb_eq : forall a b, label_eqb a b = true <-> a = b.
Proof.
  intros [i|k] [j|k']; simpl; split; intros H; try discriminate.
  - apply Nat.eqb_eq in H. now subst.
  - injection H as ->. apply Nat.eqb_refl.
  - destruct (list_eq_dec string_dec k k'); [now subst | discriminate].
  - injection H as ->. destruct (list_eq_dec string_dec k' k'); congruence.
Qed.

Lemma existsb_label_in : forall x l,
  existsb (label_eqb x) l = true <-> In x l.
Proof.
  intros x l. rewrite existsb_exists. split.
  - intros (y & Hin & He). apply label_eqb_eq in He. now subst.
  - intros Hin. exists x. split; [assumption | now apply label_eqb_eq].
Qed.

Lemma index_eqb_eq : forall a b, index_eqb a b = true -> a = b.
Proof.
  induction a as [|x a IH]; intros [|y b] H; simpl in H; try discriminate;
    [reflexivity|].
  apply andb_prop in H. destruct H as [H1 H2].
  apply label_eqb_eq in H1. subst. f_equal. now apply IH.
Qed.

Lemma no_duplicates : forall ix, has_duplicates ix = false -> NoDup ix.
Proof.
  induction ix as [|x ix IH]; intros H; [constructor|].
  simpl in H. apply orb_false_elim in H. destruct H as [H1 H2].
  constructor; [|now apply IH].
  intros Hin. apply existsb_label_in in Hin. congruence.
Qed.

Lemma union_index_in : forall ix acc x,
  In x (union_index acc ix) <-> In x acc \/ In x ix.
Proof.
  induction ix as [|y ix IH]; intros acc x; simpl; [tauto|].
  destruct (existsb (label_eqb y) acc) eqn:E; rewrite IH.
  - apply existsb_label_in in E. split; [tauto|].
    intros [H | [<- | H]]; tauto.
  - rewrite in_app_iff. simpl. tauto.
Qed.

Lemma union_fold_in : forall idxs acc x,
  In x (fold_left union_index idxs acc) <->
  In x acc \/ exists ix, In ix idxs /\ In x ix.
Proof.
  induction idxs as [|ix idxs IH]; intros acc x; simpl.
  - split; [tauto | intros [H | (ix & [] & _)]; assumption].
  - rewrite IH, union_index_in. split.
    + intros [[H | H] | (ix' & Hin & Hx)]; eauto.
    + intros [H | (ix' & [<- | Hin] & Hx)]; eauto.
Qed.

(** The row labels of a concatenation: the common index, or the union of
    duplicate-free indexes. *)
Lemma concat_index : forall objs m s0 ss,
  concat objs = Returns m ->
  present objs = s0 :: ss ->
  (Forall (fun s => s_index s = s_index s0) (s0 :: ss) /\
   fr_index m = s_index s0) \/
  (Forall (fun s => NoDup (s_index s)) (s0 :: ss) /\
   fr_index m = fold_left union_index (map s_index (s0 :: ss)) []).
Proof.
  intros objs m s0 ss H Hp. unfold concat in H. fold (present objs) in H.
  rewrite Hp in H.
  destruct (forallb (fun s => index_eqb (s_index s0) (s_index s)) (s0 :: ss))
    eqn:Eq.
  - injection H as <-. left. split; [|reflexivity].
    apply Forall_forall. intros s Hs.
    rewrite forallb_forall in Eq. symmetry. now apply index_eqb_eq, Eq.
  - destruct (existsb (fun s => has_duplicates (s_index s)) (s0 :: ss)) eqn:Ed;
      [discriminate|].
    injection H as <-. right. split; [|reflexivity].
    apply Forall_forall. intros s Hs. apply no_duplicates.
    destruct (has_duplicates (s_index s)) eqn:E; [|reflexivity].
    assert (existsb (fun s => has_duplicates (s_index s)) (s0 :: ss) = true)
      by (apply existsb_exists; eauto).
    congruence.
Qed.

Lemma concat_raises : forall objs e,
  concat objs = Raises e -> exists msg, e = ValueError msg.
Proof.
  intros objs e. unfold concat.
  destruct (flat_map _ objs) as [|s0 ss];
    [intros H; injection H as <-; eauto|].
  destruct (forallb _ _); [discriminate|].
  destruct (existsb _ _); [intros H; injection H as <-; eauto | discriminate].
Qed.

Lemma insert0_raises : forall name value m e,
  insert0 name value m = Raises e -> exists msg, e = ValueError msg.
Proof.
  intros name value m e. unfold insert0.
  destruct (existsb _ _); [intros H; injection H as <-; eauto|].
  destruct value as [vs|]; [|discriminate].
  destruct (_ =? _); [discriminate | intros H; injection H as <-; eauto].
Qed.

(** Matrix assembly fails with [ValueError] and nothing else. *)
Lemma build_matrices_raises : forall a e,
  build_matrices a = Raises e -> exists msg, e = ValueError msg.
Proof.
  intros a e. unfold build_matrices.
  destruct (tpm_data a); [discriminate|].
  repeat match goal with
  | |- cbind ?c _ = _ -> _ =>
    let E := fresh "E" in
    destruct c eqn:E; cbn [cbind];
    [| intros H; injection H as <-;
       first [eapply concat_raises; eassumption
             | eapply insert0_raises; eassumption]]
  end.
  discriminate.
Qed.

Lemma insert0_length : forall name vs m m',
  insert0 name (Some vs) m = Returns m' ->
  List.length vs = List.length (fr_index m).
Proof.
  intros name vs m m'. unfold insert0.
  destruct (existsb _ _); [discriminate|].
  destruct (List.length vs =? List.length (fr_index m)) eqn:E; [|discriminate].
  intros _. now apply Nat.eqb_eq.
Qed.

(** X11.  Among samples whose row labels are whole numbers, no two the
    same within a sample (so for every table without surplus leading
    fields, whose labels are the positions of its rows): a successful
    sample with a row that the first success does not have ends the group
    with [ValueError].  The matrices are assembled over the union of the
    rows, which the first success's gene axis does not fit; nothing is
    merged out of line. *)
Theorem extra_rows_abort_the_group : forall results r0 rest t0 s l,
  Forall parsed results ->
  Forall (fun s => positional (s_index s)) (present (map r_tpm results)) ->
  filter is_success results = r0 :: rest ->
  r_tpm r0 = Some t0 ->
  In s (present (map r_tpm results)) ->
  In l (s_index s) -> ~ In l (s_index t0) ->
  exists msg, build_matrices (aggregate results) = Raises (ValueError msg).
Proof.
  intros results r0 rest t0 s l Hall _ Hf Ht Hs Hl Hnl.
  destruct (build_matrices (aggregate results)) as [[[[t f] u]|]|e] eqn:Hb.
  - exfalso.
    destruct (build_matrices_some _ _ _ _ Hb)
      as (m0 & _ & _ & m1 & _ & _ & Ct & _ & _ & T1 & _).
    destruct (first_success_axis results r0 rest Hall Hf)
      as (_ & A2 & ids & names & Hids & Hnames).
    rewrite A2, Hnames in T1. apply insert0_length in T1.
    assert (Hwf : well_formed r0 /\ is_success r0 = true).
    { assert (Hin : In r0 (filter is_success results)) by (rewrite Hf; now left).
      apply filter_In in Hin. destruct Hin as [Hin Hsu].
      rewrite Forall_forall in Hall. split; [|assumption].
      apply parsed_well_formed. now apply Hall. }
    destruct Hwf as [Hwf Hsu].
    destruct (success_components r0 Hwf Hsu)
      as (tpm & fpkm & uq & ids' & names' & -> & _ & _ & _ & _ & L1 & L2).
    simpl in Ht, Hids, Hnames.
    injection Ht as ->. injection Hids as ->. injection Hnames as ->.
    destruct (aggregate_data results) as (Dt & _).
    rewrite Dt in Ct.
    assert (Pt : exists st, present (map r_tpm results) = t0 :: st).
    { rewrite <- present_tpm_successes, Hf. simpl. eauto. }
    destruct Pt as (st & Pt).
    assert (Pp : present (map (@Some Series) (present (map r_tpm results)))
                 = t0 :: st) by (now rewrite present_map_some).
    destruct (concat_index _ _ _ _ Ct Pp) as [[Heq Hix] | [Hnd Hix]].
    + rewrite <- Pt in Heq. rewrite Forall_forall in Heq.
      rewrite (Heq s Hs) in Hl. contradiction.
    + assert (Hincl : incl (l :: s_index t0) (fr_index m0)).
      { intros x Hx. rewrite Hix. apply union_fold_in. right.
        destruct Hx as [<- | Hx].
        - exists (s_index s). split; [|assumption].
          rewrite <- Pt. now apply in_map.
        - exists (s_index t0). split; [now left | assumption]. }
      assert (Hnd0 : NoDup (l :: s_index t0)).
      { constructor; [assumption|]. now inversion Hnd. }
      pose proof (NoDup_incl_length Hnd0 Hincl) as Hlen. simpl in Hlen. lia.
  - exfalso. unfold build_matrices in Hb.
    destruct (aggregate_data results) as (Dt & _).
    assert (Pt : exists st, present (map r_tpm results) = t0 :: st).
    { rewrite <- present_tpm_successes, Hf.
      assert (Hin : In r0 (filter is_success results)) by (rewrite Hf; now left).
      simpl. rewrite Ht. simpl. eauto. }
    destruct Pt as (st & Pt). rewrite Dt, Pt in Hb.
    repeat match type of Hb with
    | cbind ?c _ = _ => destruct c; cbn [cbind] in Hb; [|discriminate Hb]
    end.
    discriminate.
  - destruct (build_matrices_raises _ _ Hb) as [msg ->]. now exists msg.
Qed.

Lemma extra_rows_abort_the_group_witness :
  exists msg,
    build_matrices (aggregate (results_of mixed_files mixed_site))
      = Raises (ValueError msg).
Proof.
  eapply (extra_rows_abort_the_group (results_of mixed_files mixed_site)
            _ _ _ _ (Pos 1)).
  - unfold results_of. apply Forall_forall. intros r Hin.
    apply in_map_iff in Hin. destruct Hin as (row & <- & _).
    apply result_of_parsed.
  - vm_compute.
    repeat (apply Forall_cons || apply Forall_nil);
      (split; [repeat constructor; eexists; reflexivity
              | repeat constructor; simpl; intuition discriminate]).
  - vm_compute. reflexivity.
  - vm_compute. reflexivity.
  - vm_compute. right. left. reflexivity.
  - vm_compute. right. left. reflexivity.
  - vm_compute. intros [H | []]. discriminate.
Defined.

(** ** A group's run: downloads first, then three files or none *)

Lemma written_app : forall t1 t2, written (t1 ++ t2) = written t1 ++ written t2.
Proof. intros. unfold written. apply flat_map_app. Qed.

Lemma requested_app : forall t1 t2,
  requested (t1 ++ t2) = requested t1 ++ requested t2.
Proof. intros. unfold requested. apply flat_map_app. Qed.

Lemma collect_trace : forall env done a,
  written (snd (collect env done a)) = [] /\
  requested (snd (collect env done a)) = map row_url done.
Proof.
  intros env done; induction done as [|row rest IH]; intros a;
    [now split|].
  cbn [collect]. unfold submit.
  destruct (process_file_trace env (file_id row) (sample_barcode row)
              (file_name row) DATA_ENDPOINT) as (r & d & Hp & _).
  rewrite bind_snd, Hp. cbn [fst snd].
  destruct (IH (collect_step a r)) as [W R].
  rewrite written_app, requested_app, W, R. split; reflexivity.
Qed.

(** The run of a non-empty group, spelled out. *)
Lemma run_group_nonempty : forall env order site label group,
  group <> [] ->
  run_group env order site label group =
  let built := build_matrices (aggregate (results_of env (order group))) in
  (match built with
   | Returns _ => Returns tt
   | Raises e => Raises e
   end,
   Print (Downloading label) :: snd (collect env (order group) fresh) ++
   match built with
   | Returns None => [Print (NoValidData label)]
   | Returns (Some (t, f, u)) =>
     [ToCsv (csv_path (output_dir site) label "tpm") t;
      ToCsv (csv_path (output_dir site) label "fpkm") f;
      ToCsv (csv_path (output_dir site) label "fpkm_uq") u;
      Print (SavedCsvs label)]
   | Raises _ => []
   end).
Proof.
  intros env order site label group Hne. unfold run_group.
  destruct group as [|row rest]; [contradiction|].
  set (g := row :: rest).
  pose proof (collect_aggregates env (order g) fresh) as Ha.
  fold (aggregate (results_of env (order g))) in Ha.
  rewrite bind_emit. cbn [fst snd].
  rewrite bind_fst, bind_snd, Ha.
  destruct (build_matrices (aggregate (results_of env (order g))))
    as [[[[t f] u]|]|e]; cbn; now rewrite ?app_nil_r.
Qed.

(** ** A group's run with its worker threads *)

(** The events of the collecting loop are those of its calls, one call
    after the other. *)
Lemma collect_events : forall env done a,
  snd (collect env done a) = calls_in_sequence env done.
Proof.
  intros env done; induction done as [|row rest IH]; intros a;
    [reflexivity|].
  cbn [collect]. unfold calls_in_sequence. cbn [flat_map].
  destruct (process_file_total env (file_id row) (sample_barcode row)
              (file_name row) DATA_ENDPOINT) as [r Hr].
  change (fst (submit env row) = Returns r) in Hr.
  rewrite bind_snd, Hr. f_equal. apply IH.
Qed.

Lemma calls_in_sequence_trace : forall env rows,
  written (calls_in_sequence env rows) = [] /\
  requested (calls_in_sequence env rows) = map row_url rows /\
  forall url, fetches url (calls_in_sequence env rows) = requests url rows.
Proof.
  intros env rows. rewrite <- (collect_events env rows fresh).
  destruct (collect_trace env rows fresh) as [W Rq].
  split; [exact W|]. split; [exact Rq|].
  apply (proj2 (collect_total env rows fresh)).
Qed.

Lemma pool_log_permutation : forall env w tm group,
  Permutation (Executor.log (pool_of env w tm group))
              (calls_in_sequence env group).
Proof.
  intros env w tm group.
  apply (run_spec _ _ _ (submit env) w (moves tm) group).
Qed.

Lemma written_permutation : forall t1 t2,
  Permutation t1 t2 -> Permutation (written t1) (written t2).
Proof. intros t1 t2 H. unfold written. now apply Permutation_flat_map. Qed.

Lemma requested_permutation : forall t1 t2,
  Permutation t1 t2 -> Permutation (requested t1) (requested t2).
Proof. intros t1 t2 H. unfold requested. now apply Permutation_flat_map. Qed.

Lemma pool_log_trace : forall env w tm group,
  written (Executor.log (pool_of env w tm group)) = [] /\
  Permutation (requested (Executor.log (pool_of env w tm group)))
              (map row_url group) /\
  forall url,
    fetches url (Executor.log (pool_of env w tm group)) = requests url group.
Proof.
  intros env w tm group.
  pose proof (pool_log_permutation env w tm group) as HP.
  destruct (calls_in_sequence_trace env group) as (W & Rq & F).
  split; [|split].
  - apply written_permutation in HP. rewrite W in HP.
    now apply Permutation_nil, Permutation_sym.
  - apply requested_permutation in HP. now rewrite Rq in HP.
  - intros url. rewrite <- F. unfold fetches.
    now apply filter_permutation_length.
Qed.

(** Lines 138-167: nothing is requested; the three files are written, in
    the order tpm, fpkm, fpkm_uq, or none is. *)
Lemma save_group_trace : forall site label a,
  requested (snd (save_group site label a)) = [] /\
  (forall url, fetches url (snd (save_group site label a)) = 0) /\
  (written (snd (save_group site label a)) = [] \/
   (fst (save_group site label a) = Returns tt /\
    written (snd (save_group site label a)) =
      [csv_path (output_dir site) label "tpm";
       csv_path (output_dir site) label "fpkm";
       csv_path (output_dir site) label "fpkm_uq"])).
Proof.
  intros site label a. unfold save_group.
  destruct (build_matrices a) as [[[[t f] u]|]|e].
  - rewrite bind_lift_returns. cbn.
    split; [reflexivity|]. split; [reflexivity|]. right. now split.
  - rewrite bind_lift_returns. cbn.
    split; [reflexivity|]. split; [reflexivity|]. now left.
  - rewrite bind_lift_raises. cbn.
    split; [reflexivity|]. split; [reflexivity|]. now left.
Qed.

(** The two views of the run of a group that has rows. *)
Lemma process_group_nonempty : forall env w tm site label group,
  0 < w -> group <> [] ->
  process_group env w tm site label group =
  (fst (save_group site label
          (aggregate (results_of env (yield_order env w tm group)))),
   Print (Downloading label) ::
   Executor.log (pool_of env w tm group) ++
   snd (save_group site label
          (aggregate (results_of env (yield_order env w tm group))))).
Proof.
  intros env w tm site label group Hw Hne. unfold process_group.
  destruct group as [|row rest]; [contradiction|].
  rewrite bind_emit, (download_group_eq env w tm _ Hw).
  cbn [bind fst snd].
  destruct (save_group site label _) as [c t]. reflexivity.
Qed.

Lemma run_group_in_sequence : forall env order site label group,
  group <> [] ->
  run_group env order site label group =
  (fst (save_group site label (aggregate (results_of env (order group)))),
   Print (Downloading label) ::
   calls_in_sequence env (order group) ++
   snd (save_group site label (aggregate (results_of env (order group))))).
Proof.
  intros env order site label group Hne.
  destruct group as [|row rest]; [contradiction|].
  set (g := row :: rest).
  change (run_group env order site label g)
    with (bind (emit (Print (Downloading label)))
            (fun _ => bind (collect env (order g) fresh)
                        (fun a => save_group site label a))).
  rewrite bind_emit.
  pose proof (collect_aggregates env (order g) fresh) as Ha.
  pose proof (collect_events env (order g) fresh) as He.
  destruct (collect env (order g) fresh) as [c t].
  cbn [fst snd] in Ha, He. subst c t.
  fold (aggregate (results_of env (order g))).
  cbn [bind fst snd].
  destruct (save_group site label _) as [c t]. reflexivity.
Qed.

Lemma run_moves_nil : forall env w picks group,
  Executor.log (pool_of env w (mkTiming [] picks) group)
  = calls_in_sequence env group.
Proof. reflexivity. Qed.

(** X12.  A group's run with a pool of positive size, whatever the timing:
    the file of each of its rows is requested once for each row that
    points at it, and all of that before anything is written; the run
    then writes either nothing or the three files of the group, tpm,
    fpkm, fpkm_uq, in that order, and only if it ends without an
    exception.  When every call is run to its end before the next one
    starts, the requests go out in the order the rows were submitted. *)
Theorem group_downloads_then_writes :
  forall env max_workers tm site label group,
  0 < max_workers ->
  (exists pre post,
     snd (process_group env max_workers tm site label group) = pre ++ post /\
     Permutation (requested pre) (map row_url group) /\
     written pre = [] /\
     requested post = [] /\
     (written post = [] \/
      (fst (process_group env max_workers tm site label group) = Returns tt /\
       written post =
         [csv_path (output_dir site) label "tpm";
          csv_path (output_dir site) label "fpkm";
          csv_path (output_dir site) label "fpkm_uq"]))) /\
  (forall picks,
     requested (snd (process_group env max_workers (mkTiming [] picks)
                       site label group))
     = map row_url group).
Proof.
  intros env w tm site label group Hw. split.
  - destruct group as [|row rest] eqn:Hg.
    + exists [], [Print (NoSamplesFound label)].
      split; [reflexivity|]. split; [apply perm_nil|].
      split; [reflexivity|]. split; [reflexivity|]. left; reflexivity.
    + rewrite <- Hg.
      assert (Hne : group <> []) by (rewrite Hg; discriminate).
      rewrite (process_group_nonempty env w tm site label group Hw Hne).
      cbn [fst snd].
      destruct (pool_log_trace env w tm group) as (W & Rq & _).
      destruct (save_group_trace site label
                  (aggregate (results_of env (yield_order env w tm group))))
        as (Sr & _ & Sw).
      exists (Print (Downloading label) :: Executor.log (pool_of env w tm group)).
      eexists. split; [reflexivity|].
      split; [exact Rq|]. split; [exact W|]. split; [exact Sr|]. exact Sw.
  - intros picks. destruct group as [|row rest] eqn:Hg; [reflexivity|].
    rewrite <- Hg.
    assert (Hne : group <> []) by (rewrite Hg; discriminate).
    rewrite (process_group_nonempty env w _ site label group Hw Hne).
    cbn [fst snd].
    change (Print (Downloading label) :: ?t)
      with ([Print (Downloading label)] ++ t).
    rewrite !requested_app, run_moves_nil.
    destruct (calls_in_sequence_trace env group) as (_ & Rq & _).
    destruct (save_group_trace site label
                (aggregate (results_of env
                   (yield_order env w (mkTiming [] picks) group))))
      as (Sr & _).
    rewrite Rq, Sr. cbn. now rewrite app_nil_r.
Qed.

Lemma group_downloads_then_writes_witness :
  requested (snd (process_group mixed_files 25 in_turn "Lung" "tumor"
                    batch_of_three))
  = map row_url batch_of_three.
Proof.
  apply (proj2 (group_downloads_then_writes mixed_files 25 in_turn "Lung"
                  "tumor" batch_of_three ltac:(lia)) []).
Defined.

(** X18.  The run of a group with its worker threads comes to what the
    collecting loop sees of it: the futures are handed over in some
    rearrangement of the group's rows, and with the calls told one after
    the other in that order the run ends the same way and writes the same
    matrices after the same downloads, the events of the downloads being
    the same up to their order. *)
Theorem pool_run_in_sequence : forall env max_workers tm site label group,
  0 < max_workers ->
  Permutation (yield_order env max_workers tm group) group /\
  fst (process_group env max_workers tm site label group)
    = fst (run_group env (yield_order env max_workers tm) site label group) /\
  Permutation (snd (process_group env max_workers tm site label group))
              (snd (run_group env (yield_order env max_workers tm)
                      site label group)) /\
  exists head during recounted tail,
    snd (process_group env max_workers tm site label group)
      = head ++ during ++ tail /\
    snd (run_group env (yield_order env max_workers tm) site label group)
      = head ++ recounted ++ tail /\
    Permutation during recounted /\
    during = Executor.log (pool_of env max_workers tm group) /\
    requested head = [] /\ written head = [] /\
    written during = [] /\ requested tail = [].
Proof.
  intros env w tm site label group Hw.
  pose proof (yield_order_permutation env w tm group) as HY.
  split; [exact HY|].
  destruct group as [|row rest] eqn:Hg.
  - split; [reflexivity|]. split; [apply Permutation_refl|].
    assert (Hlog : Executor.log (pool_of env w tm []) = []).
    { apply Permutation_nil, Permutation_sym.
      apply (pool_log_permutation env w tm []). }
    exists [Print (NoSamplesFound label)], [], [], [].
    split; [reflexivity|]. split; [reflexivity|]. split; [apply perm_nil|].
    split; [now rewrite Hlog|]. repeat split.
  - rewrite <- Hg in *.
    assert (Hne : group <> []) by (rewrite Hg; discriminate).
    rewrite (process_group_nonempty env w tm site label group Hw Hne).
    rewrite (run_group_in_sequence env _ site label group Hne).
    cbn [fst snd].
    assert (HP : Permutation (Executor.log (pool_of env w tm group))
                   (calls_in_sequence env (yield_order env w tm group))).
    { eapply Permutation_trans; [apply pool_log_permutation|].
      unfold calls_in_sequence. apply Permutation_flat_map.
      now apply Permutation_sym. }
    split; [reflexivity|]. split.
    { apply perm_skip. now apply Permutation_app_tail. }
    exists [Print (Downloading label)],
           (Executor.log (pool_of env w tm group)),
           (calls_in_sequence env (yield_order env w tm group)),
           (snd (save_group site label
                   (aggregate (results_of env (yield_order env w tm group))))).
    split; [reflexivity|]. split; [reflexivity|]. split; [exact HP|].
    split; [reflexivity|]. split; [reflexivity|]. split; [reflexivity|].
    split; [apply (pool_log_trace env w tm group)|].
    apply save_group_trace.
Qed.

Lemma pool_run_in_sequence_witness :
  fst (process_group mixed_files 25 overlapping "Lung" "tumor" batch_of_three)
  = fst (run_group mixed_files (yield_order mixed_files 25 overlapping)
           "Lung" "tumor" batch_of_three).
Proof.
  apply (pool_run_in_sequence mixed_files 25 overlapping "Lung" "tumor"
           batch_of_three ltac:(lia)).
Defined.

(** ** C8: the two groups *)

Lemma process_group_fetches : forall env w tm site label group url,
  0 < w ->
  fetches url (snd (process_group env w tm site label group))
  = requests url group.
Proof.
  intros env w tm site label group url Hw.
  destruct group as [|row rest] eqn:Hg; [reflexivity|]. rewrite <- Hg.
  assert (Hne : group <> []) by (rewrite Hg; discriminate).
  rewrite (process_group_nonempty env w tm site label group Hw Hne).
  cbn [snd].
  change (Print (Downloading label) :: ?t)
    with ([Print (Downloading label)] ++ t).
  rewrite !fetches_app.
  rewrite (proj2 (proj2 (pool_log_trace env w tm group)) url).
  rewrite (proj1 (proj2 (save_group_trace site label _)) url).
  unfold fetches at 1. cbn. lia.
Qed.

(** Lines 110-167 for a table that has rows: the tumor group, then, if
    that returned, the normal group. *)
Lemma process_table_nonempty : forall env sched site sample_df,
  sample_df <> [] ->
  process_table env sched site sample_df =
  match fst (process_group env MAX_WORKERS (sched "tumor") site "tumor"
               (tumor_sample_df sample_df)) with
  | Returns _ =>
    (fst (process_group env MAX_WORKERS (sched "normal") site "normal"
            (normal_sample_df sample_df)),
     Print (Found (List.length sample_df)) ::
     snd (process_group env MAX_WORKERS (sched "tumor") site "tumor"
            (tumor_sample_df sample_df)) ++
     snd (process_group env MAX_WORKERS (sched "normal") site "normal"
            (normal_sample_df sample_df)))
  | Raises e =>
    (Raises e,
     Print (Found (List.length sample_df)) ::
     snd (process_group env MAX_WORKERS (sched "tumor") site "tumor"
            (tumor_sample_df sample_df)))
  end.
Proof.
  intros env sched site sample_df Hne. unfold process_table.
  destruct sample_df as [|row rest]; [contradiction|].
  set (df := row :: rest).
  rewrite bind_emit.
  destruct (process_group env MAX_WORKERS (sched "tumor") site "tumor"
              (tumor_sample_df df)) as [[u|e] t]; cbn [bind fst snd].
  - destruct (process_group env MAX_WORKERS (sched "normal") site "normal"
                (normal_sample_df df)) as [c t']. reflexivity.
  - reflexivity.
Qed.

(** C8 as stated fails for the normal group of a site whose tumor
    matrices cannot be assembled: the exception of the tumor group's run
    ends the site's run, and the file of the normal sample is never
    requested. *)
Lemma C8_counterexample :
  ~ (forall env sched site sample_df row,
       In row (normal_sample_df sample_df) ->
       1 <= fetches (row_url row)
              (snd (process_table env sched site sample_df))).
Proof.
  intros claim.
  specialize (claim uneven_files (fun _ => in_turn) "Lung" uneven_site
                (mkSample "S3" "Solid Tissue Normal" "TCGA-X" "f3" "f3.tsv")).
  assert (H : 1 <= 0); [|lia].
  apply claim. left. reflexivity.
Qed.

(** C8 (amended).  A record is in the tumor group exactly when it is in
    the metadata and its sample type contains "tumor" up to case, and in
    the normal group exactly when it contains "normal" up to case; a
    record with neither word is in neither group, and a group's rows are
    not changed by records that belong outside it.  Each group's run
    works on the group's own rows, from accumulators of its own: it
    requests the files of its rows and no other, and its outcome is that
    of assembling the results of its rows.  The groups are processed one
    after the other, tumor first, and the normal group is processed only
    if the tumor group's run ends without an exception; otherwise the
    site's run ends with that exception and the normal group is left
    out. *)
Theorem C8_groups_by_sample_type : forall sample_df,
  (forall row,
     In row (tumor_sample_df sample_df) <->
     In row sample_df /\ contains_ignoring_case "tumor" (sample_type row)) /\
  (forall row,
     In row (normal_sample_df sample_df) <->
     In row sample_df /\ contains_ignoring_case "normal" (sample_type row)) /\
  (forall row,
     ~ contains_ignoring_case "tumor" (sample_type row) ->
     ~ contains_ignoring_case "normal" (sample_type row) ->
     ~ In row (tumor_sample_df sample_df) /\
     ~ In row (normal_sample_df sample_df)) /\
  (forall others,
     (forall row, In row others -> in_group "tumor" row = false) ->
     tumor_sample_df (sample_df ++ others) = tumor_sample_df sample_df) /\
  (forall others,
     (forall row, In row others -> in_group "normal" row = false) ->
     normal_sample_df (sample_df ++ others) = normal_sample_df sample_df) /\
  (forall env max_workers tm site label group,
     0 < max_workers -> group <> [] ->
     process_group env max_workers tm site label group =
     (fst (save_group site label
             (aggregate (results_of env (yield_order env max_workers tm group)))),
      Print (Downloading label) ::
      Executor.log (pool_of env max_workers tm group) ++
      snd (save_group site label
             (aggregate (results_of env (yield_order env max_workers tm group))))) /\
     Permutation (yield_order env max_workers tm group) group /\
     forall url,
       fetches url (snd (process_group env max_workers tm site label group))
       = requests url group) /\
  (forall env sched site,
     sample_df <> [] ->
     (forall e,
        fst (process_group env MAX_WORKERS (sched "tumor") site "tumor"
               (tumor_sample_df sample_df)) = Raises e ->
        process_table env sched site sample_df =
        (Raises e,
         Print (Found (List.length sample_df)) ::
         snd (process_group env MAX_WORKERS (sched "tumor") site "tumor"
                (tumor_sample_df sample_df))) /\
        forall url,
          fetches url (snd (process_table env sched site sample_df))
          = requests url (tumor_sample_df sample_df)) /\
     (forall u,
        fst (process_group env MAX_WORKERS (sched "tumor") site "tumor"
               (tumor_sample_df sample_df)) = Returns u ->
        process_table env sched site sample_df =
        (fst (process_group env MAX_WORKERS (sched "normal") site "normal"
                (normal_sample_df sample_df)),
         Print (Found (List.length sample_df)) ::
         snd (process_group env MAX_WORKERS (sched "tumor") site "tumor"
                (tumor_sample_df sample_df)) ++
         snd (process_group env MAX_WORKERS (sched "normal") site "normal"
                (normal_sample_df sample_df))) /\
        forall url,
          fetches url (snd (process_table env sched site sample_df))
          = requests url (tumor_sample_df sample_df)
            + requests url (normal_sample_df sample_df))).
Proof.
  intros sample_df.
  assert (Hin : forall word row,
            In row (filter (in_group word) sample_df) <->
            In row sample_df /\ contains_ignoring_case word (sample_type row)).
  { intros word row. rewrite filter_In, in_group_iff. reflexivity. }
  assert (Hmax : 0 < MAX_WORKERS) by (unfold MAX_WORKERS; lia).
  split; [apply Hin|]. split; [apply Hin|]. split.
  { intros row Ht Hn. unfold tumor_sample_df, normal_sample_df.
    rewrite !Hin. tauto. }
  split.
  { intros others H. unfold tumor_sample_df.
    rewrite filter_app, (filter_none _ _ others H). apply app_nil_r. }
  split.
  { intros others H. unfold normal_sample_df.
    rewrite filter_app, (filter_none _ _ others H). apply app_nil_r. }
  split.
  { intros env w tm site label group Hw Hne.
    split; [now apply process_group_nonempty|].
    split; [apply yield_order_permutation|].
    intros url. now apply process_group_fetches. }
  intros env sched site Hne.
  pose proof (process_table_nonempty env sched site sample_df Hne) as Ht.
  split.
  - intros e He. rewrite He in Ht. split; [exact Ht|].
    intros url. rewrite Ht. cbn [snd].
    change (Print (Found (List.length sample_df)) :: ?t)
      with ([Print (Found (List.length sample_df))] ++ t).
    rewrite fetches_app, process_group_fetches by exact Hmax.
    reflexivity.
  - intros u Hu. rewrite Hu in Ht. split; [exact Ht|].
    intros url. rewrite Ht. cbn [snd].
    change (Print (Found (List.length sample_df)) :: ?t)
      with ([Print (Found (List.length sample_df))] ++ t).
    rewrite !fetches_app, !process_group_fetches by exact Hmax.
    reflexivity.
Qed.

Lemma C8_groups_by_sample_type_witness :
  In (mkSample "S1" "Primary Tumor" "TCGA-X" "f1" "f1.tsv")
     (tumor_sample_df uneven_site) /\
  fetches (row_url (mkSample "S3" "Solid Tissue Normal" "TCGA-X" "f3" "f3.tsv"))
          (snd (process_table uneven_files (fun _ => in_turn) "Lung" uneven_site))
  = 0.
Proof.
  destruct (C8_groups_by_sample_type uneven_site)
    as (Ht & _ & _ & _ & _ & _ & Hrun).
  split.
  - apply Ht. split; [left; reflexivity|].
    exists "Primary ", "Tumor", "". split; reflexivity.
  - destruct (Hrun uneven_files (fun _ => in_turn) "Lung"
                ltac:(discriminate)) as (Hraise & _).
    destruct (Hraise (ValueError "Length of values does not match length of index")
                ltac:(vm_compute; reflexivity)) as (_ & Hf).
    rewrite Hf. vm_compute. reflexivity.
Defined.

Lemma no_success_aggregate : forall env done,
  Forall (fun row => succeeded (submit env row) = false) done ->
  filter is_success (results_of env done) = [].
Proof.
  intros env done H. unfold results_of.
  induction H as [|row rest Hr _ IH]; [reflexivity|].
  cbn [map filter]. rewrite <- succeeded_result_of, Hr. exact IH.
Qed.

(** X13.  A group none of whose calls succeeds writes nothing and does not stop
    the run: it reports "No valid data" and returns. *)
Theorem group_without_success_writes_nothing :
  forall env order site label group,
  group <> [] ->
  Forall (fun row => succeeded (submit env row) = false) (order group) ->
  fst (run_group env order site label group) = Returns tt /\
  written (snd (run_group env order site label group)) = [] /\
  In (Print (NoValidData label)) (snd (run_group env order site label group)).
Proof.
  intros env order site label group Hne Hnone.
  rewrite (run_group_nonempty env order site label group Hne).
  rewrite (aggregate_no_success _ (no_success_aggregate env _ Hnone)).
  cbv zeta. cbn [fst snd build_matrices tpm_data fresh].
  destruct (collect_trace env (order group) fresh) as [W _].
  split; [reflexivity|]. split.
  - change (Print (Downloading label) :: ?t) with ([Print (Downloading label)] ++ t).
    now rewrite !written_app, W.
  - right. apply in_or_app. right. now left.
Qed.

Lemma group_without_success_writes_nothing_witness :
  written (snd (run_group unreachable in_order "Lung" "tumor" mixed_site)) = [].
Proof.
  apply (group_without_success_writes_nothing unreachable in_order "Lung"
           "tumor" mixed_site).
  - discriminate.
  - repeat constructor.
Defined.

(** ** [get_rna_seq_metadata]: the rows of the table *)

Lemma truthy_inv : forall o,
  Metadata.truthy o = true -> exists s, o = Some s /\ s <> "".
Proof.
  intros [s|] H; [|discriminate]. exists s. split; [reflexivity|].
  simpl in H. apply negb_true_iff in H. now apply String.eqb_neq.
Qed.

Lemma rows_of_sample_in : forall fid fn pid s row,
  In row (Metadata.rows_of_sample fid fn pid s) <->
  exists sid st,
    Metadata.submitter_id s = Some sid /\
    Metadata.sample_type_json s = Some st /\
    sid <> "" /\ st <> "" /\
    row = Metadata.mkMetaRow sid st pid fid fn.
Proof.
  intros fid fn pid s row. unfold Metadata.rows_of_sample. split.
  - destruct (Metadata.truthy (Metadata.submitter_id s)) eqn:E1;
      [|contradiction].
    destruct (Metadata.truthy (Metadata.sample_type_json s)) eqn:E2;
      [|contradiction].
    apply truthy_inv in E1, E2.
    destruct E1 as (sid & E1 & N1). destruct E2 as (st & E2 & N2).
    rewrite E1, E2. simpl. intros [<- | []]. now exists sid, st.
  - intros (sid & st & -> & -> & N1 & N2 & ->). simpl.
    apply String.eqb_neq in N1, N2. rewrite N1, N2. now left.
Qed.

Lemma filter_flat_map : forall A B (f : B -> bool) (g : A -> list B) l,
  filter f (flat_map g l) = flat_map (fun x => filter f (g x)) l.
Proof.
  intros A B f g l; induction l as [|x l IH]; [reflexivity|].
  cbn [flat_map]. now rewrite filter_app, IH.
Qed.

Lemma map_flat_map : forall A B C (f : B -> C) (g : A -> list B) l,
  map f (flat_map g l) = flat_map (fun x => map f (g x)) l.
Proof.
  intros A B C f g l; induction l as [|x l IH]; [reflexivity|].
  cbn [flat_map]. now rewrite map_app, IH.
Qed.

Lemma rows_of_sample_listed : forall h c s,
  Metadata.rows_of_sample (Metadata.hit_file_id h) (Metadata.hit_file_name h)
    (match Metadata.project c with
     | Some p => Metadata.project_id p
     | None => None
     end) s
  = map row_of_listed (filter identified [(h, c, s)]).
Proof.
  intros h c s. unfold Metadata.rows_of_sample, identified.
  cbn [filter snd].
  destruct (Metadata.truthy (Metadata.submitter_id s)
            && Metadata.truthy (Metadata.sample_type_json s)); reflexivity.
Qed.

(** The table, row by row. *)
Lemma sample_data_listed : forall hits,
  Metadata.sample_data hits
  = map row_of_listed (filter identified (listed_samples hits)).
Proof.
  intros hits. unfold Metadata.sample_data, listed_samples.
  rewrite filter_flat_map, map_flat_map.
  apply flat_map_ext. intros h.
  unfold Metadata.rows_of_hit.
  rewrite filter_flat_map, map_flat_map.
  apply flat_map_ext. intros c.
  unfold Metadata.rows_of_case.
  induction (Metadata.get_or [] (Metadata.samples c)) as [|s ss IH];
    [reflexivity|].
  cbn [flat_map map]. rewrite IH, rows_of_sample_listed.
  cbn [filter]. destruct (identified (h, c, s)); reflexivity.
Qed.

(** X14.  The metadata table has exactly one row for each sample of each
    case of each hit that carries both a submitter id and a sample type,
    neither of them empty, and the rows stand in the order of the answer:
    hit by hit, case by case, sample by sample.  A row carries the
    sample's id and type, the case's project id and the hit's file id and
    name; so no row is without a sample id or a sample type, and the table
    has as many rows as the answer has such samples. *)
Theorem metadata_rows_are_the_identified_samples : forall hits,
  Metadata.sample_data hits
    = map row_of_listed (filter identified (listed_samples hits)) /\
  List.length (Metadata.sample_data hits)
    = List.length (filter identified (listed_samples hits)) /\
  (forall row,
     In row (Metadata.sample_data hits) <->
     exists h c s sid st,
       In h hits /\
       In c (Metadata.get_or [] (Metadata.cases h)) /\
       In s (Metadata.get_or [] (Metadata.samples c)) /\
       Metadata.submitter_id s = Some sid /\
       Metadata.sample_type_json s = Some st /\
       sid <> "" /\ st <> "" /\
       row = Metadata.mkMetaRow sid st
               (match Metadata.project c with
                | Some p => Metadata.project_id p
                | None => None
                end)
               (Metadata.hit_file_id h) (Metadata.hit_file_name h)) /\
  (forall row,
     In row (Metadata.sample_data hits) ->
     Metadata.m_sample_barcode row <> "" /\ Metadata.m_sample_type row <> "").
Proof.
  intros hits.
  split; [apply sample_data_listed|].
  split; [now rewrite sample_data_listed, length_map|].
  assert (Hiff : forall row,
     In row (Metadata.sample_data hits) <->
     exists h c s sid st,
       In h hits /\
       In c (Metadata.get_or [] (Metadata.cases h)) /\
       In s (Metadata.get_or [] (Metadata.samples c)) /\
       Metadata.submitter_id s = Some sid /\
       Metadata.sample_type_json s = Some st /\
       sid <> "" /\ st <> "" /\
       row = Metadata.mkMetaRow sid st
               (match Metadata.project c with
                | Some p => Metadata.project_id p
                | None => None
                end)
               (Metadata.hit_file_id h) (Metadata.hit_file_name h)).
  { intros row. unfold Metadata.sample_data, Metadata.rows_of_hit,
      Metadata.rows_of_case.
    rewrite in_flat_map. split.
    - intros (h & Hh & Hr). apply in_flat_map in Hr.
      destruct Hr as (c & Hc & Hr). apply in_flat_map in Hr.
      destruct Hr as (s & Hs & Hr). apply rows_of_sample_in in Hr.
      destruct Hr as (sid & st & E1 & E2 & N1 & N2 & ->).
      now exists h, c, s, sid, st.
    - intros (h & c & s & sid & st & Hh & Hc & Hs & E1 & E2 & N1 & N2 & ->).
      exists h. split; [assumption|]. apply in_flat_map.
      exists c. split; [assumption|]. apply in_flat_map.
      exists s. split; [assumption|]. apply rows_of_sample_in.
      now exists sid, st. }
  split; [exact Hiff|].
  intros row Hin. apply Hiff in Hin.
  destruct Hin as (h & c & s & sid & st & _ & _ & _ & _ & _ & N1 & N2 & ->).
  now split.
Qed.

Lemma metadata_rows_are_the_identified_samples_witness :
  List.length
    (Metadata.sample_data
       [Metadata.mkHitJson (Some "f1") (Some "f1.tsv")
          (Some [Metadata.mkCaseJson
                   (Some (Metadata.mkProjectJson (Some "TCGA-LUAD")))
                   (Some [Metadata.mkSampleJson (Some "TCGA-01") (Some "Primary Tumor");
                          Metadata.mkSampleJson (Some "TCGA-02") None;
                          Metadata.mkSampleJson (Some "") (Some "Solid Tissue Normal")])])])
  = 1.
Proof.
  rewrite (proj1 (proj2 (metadata_rows_are_the_identified_samples
    [Metadata.mkHitJson (Some "f1") (Some "f1.tsv")
       (Some [Metadata.mkCaseJson
                (Some (Metadata.mkProjectJson (Some "TCGA-LUAD")))
                (Some [Metadata.mkSampleJson (Some "TCGA-01") (Some "Primary Tumor");
                       Metadata.mkSampleJson (Some "TCGA-02") None;
                       Metadata.mkSampleJson (Some "") (Some "Solid Tissue Normal")])])]))).
  reflexivity.
Defined.

(** ** The loop over the sites *)

Lemma sites_from_app : forall files env sched before i after,
  Forall (fun run => fst run = Returns tt) (site_runs files env sched i before) ->
  Metadata.sites_from files env sched i (before ++ after) =
  (fst (Metadata.sites_from files env sched (i + List.length before) after),
   flat_map snd (site_runs files env sched i before) ++
   snd (Metadata.sites_from files env sched (i + List.length before) after)).
Proof.
  intros files env sched before; induction before as [|s before IH];
    intros i after Hall.
  - cbn [app List.length site_runs flat_map]. rewrite Nat.add_0_r.
    now destruct (Metadata.sites_from files env sched i after).
  - cbn [site_runs] in Hall. apply Forall_cons_iff in Hall.
    destruct Hall as [Hs Hrest].
    cbn [app Metadata.sites_from site_runs flat_map List.length].
    rewrite (IH (S i) after Hrest).
    replace (i + S (List.length before)) with (S i + List.length before) by lia.
    destruct (Metadata.process_site files env (sched i) s) as [c t].
    cbn [fst] in Hs. subst c. cbn [bind fst snd].
    now rewrite app_assoc.
Qed.

(** A site's run up to its metadata. *)
Lemma process_site_eq : forall files env tm site,
  Metadata.process_site files env tm site =
  match Metadata.post_files files site with
  | Raises e =>
    if is_request_exception e
    then (Returns tt,
          site_opening site ++
          [Print (ApiRequestFailed e); Print (NoMetadata site)])
    else (Raises e, site_opening site)
  | Returns response =>
    match Metadata.resp_data response with
    | None => (Raises (KeyError "data"), site_opening site)
    | Some d =>
      match Metadata.hits d with
      | None => (Raises (KeyError "hits"), site_opening site)
      | Some hs =>
        (fst (process_table env tm site
                (Metadata.as_samples files (Metadata.sample_data hs))),
         site_opening site ++
         snd (process_table env tm site
                (Metadata.as_samples files (Metadata.sample_data hs))))
      end
    end
  end.
Proof.
  intros files env tm site.
  unfold Metadata.process_site, Metadata.get_rna_seq_metadata, site_opening.
  destruct (Metadata.post_files files site) as [response|e].
  - cbn -[output_dir process_table Metadata.as_samples Metadata.sample_data
          Metadata.FILES_ENDPOINT].
    destruct (Metadata.resp_data response) as [d|]; [|reflexivity].
    cbn -[output_dir process_table Metadata.as_samples Metadata.sample_data
          Metadata.FILES_ENDPOINT].
    destruct (Metadata.hits d) as [hs|]; [|reflexivity].
    cbn -[output_dir process_table Metadata.as_samples Metadata.sample_data
          Metadata.FILES_ENDPOINT].
    destruct (process_table env tm site
                (Metadata.as_samples files (Metadata.sample_data hs)))
      as [c t].
    reflexivity.
  - destruct e; reflexivity.
Qed.

(** X16.  The sites are processed one after the other for as long as each
    run returns; the first site whose run raises ends the whole run with
    that exception, and the sites after it are not touched.  A site whose
    metadata request fails with a [RequestException] is reported and
    skipped, and the run goes on; any other exception of the request, and
    an answer without its ["data"] or ["hits"] key, ends the run once the
    site's directory has been made and the request sent. *)
Theorem run_stops_at_first_exception : forall files env sched before,
  Forall (fun run => fst run = Returns tt) (site_runs files env sched 0 before) ->
  Metadata.generate_expression_csvs files env sched before =
    (Returns tt, flat_map snd (site_runs files env sched 0 before)) /\
  (forall site after e,
     fst (Metadata.process_site files env (sched (List.length before)) site)
       = Raises e ->
     Metadata.generate_expression_csvs files env sched (before ++ site :: after) =
       (Raises e,
        flat_map snd (site_runs files env sched 0 before) ++
        snd (Metadata.process_site files env (sched (List.length before)) site))) /\
  (forall tm site e,
     Metadata.post_files files site = Raises e ->
     is_request_exception e = true ->
     Metadata.process_site files env tm site =
       (Returns tt,
        site_opening site ++
        [Print (ApiRequestFailed e); Print (NoMetadata site)])) /\
  (forall tm site e,
     Metadata.post_files files site = Raises e ->
     is_request_exception e = false ->
     Metadata.process_site files env tm site = (Raises e, site_opening site)) /\
  (forall tm site response,
     Metadata.post_files files site = Returns response ->
     Metadata.resp_data response = None ->
     Metadata.process_site files env tm site =
       (Raises (KeyError "data"), site_opening site)) /\
  (forall tm site response d,
     Metadata.post_files files site = Returns response ->
     Metadata.resp_data response = Some d ->
     Metadata.hits d = None ->
     Metadata.process_site files env tm site =
       (Raises (KeyError "hits"), site_opening site)) /\
  (forall tm site response d hs,
     Metadata.post_files files site = Returns response ->
     Metadata.resp_data response = Some d ->
     Metadata.hits d = Some hs ->
     Metadata.process_site files env tm site =
       (fst (process_table env tm site
               (Metadata.as_samples files (Metadata.sample_data hs))),
        site_opening site ++
        snd (process_table env tm site
               (Metadata.as_samples files (Metadata.sample_data hs))))).
Proof.
  intros files env sched before Hall.
  unfold Metadata.generate_expression_csvs.
  split; [|split].
  - rewrite <- (app_nil_r before) at 1.
    rewrite (sites_from_app files env sched before 0 [] Hall).
    cbn [Metadata.sites_from ret fst snd]. now rewrite app_nil_r.
  - intros site after e He.
    rewrite (sites_from_app files env sched before 0 (site :: after) Hall).
    cbn [Nat.add Metadata.sites_from].
    destruct (Metadata.process_site files env (sched (List.length before)) site)
      as [c t].
    cbn [fst] in He. subst c. reflexivity.
  - split; [|split; [|split; [|split]]].
    + intros tm site e Hp He. now rewrite process_site_eq, Hp, He.
    + intros tm site e Hp He. now rewrite process_site_eq, Hp, He.
    + intros tm site response Hp Hd. now rewrite process_site_eq, Hp, Hd.
    + intros tm site response d Hp Hd Hh.
      now rewrite process_site_eq, Hp, Hd, Hh.
    + intros tm site response d hs Hp Hd Hh.
      now rewrite process_site_eq, Hp, Hd, Hh.
Qed.

Lemma run_stops_at_first_exception_witness :
  fst (Metadata.generate_expression_csvs three_sites (serve small_table)
         (fun _ _ => in_turn) ["Lung"; "Skin"; "Liver"])
  = Raises (KeyError "data").
Proof.
  pose proof (proj1 (proj2 (run_stops_at_first_exception three_sites
       (serve small_table) (fun _ _ => in_turn) ["Lung"]
       ltac:(repeat constructor)))
       "Skin" ["Liver"] (KeyError "data") eq_refl) as H.
  cbn [app] in H. now rewrite H.
Defined.

(** ** Rows outside both groups *)

Lemma requests_none : forall url group,
  (forall r, In r group -> row_url r <> url) -> requests url group = 0.
Proof.
  intros url group H. unfold requests.
  rewrite (filter_none _ _ group); [reflexivity|].
  intros r Hr. apply String.eqb_neq. now apply H.
Qed.

(** X17.  The file of a sample whose type names neither group is never
    requested, unless a row of one of the groups points at the same
    file. *)
Theorem ungrouped_rows_are_never_downloaded :
  forall env order site sample_df url,
  (forall rows, Permutation (order rows) rows) ->
  (forall r, In r sample_df -> row_url r = url ->
             in_group "tumor" r = false /\ in_group "normal" r = false) ->
  fetches url (snd (run_site env order site sample_df)) = 0.
Proof.
  intros env order site sample_df url Hperm Hout.
  destruct sample_df as [|row0 rest] eqn:Hs; [reflexivity|].
  rewrite <- Hs in *.
  assert (Hne : sample_df <> []) by (rewrite Hs; discriminate).
  rewrite (run_site_fetches env order site sample_df url Hne Hperm).
  assert (Ht : requests url (tumor_sample_df sample_df) = 0).
  { apply requests_none. intros r Hr Hu. apply filter_In in Hr.
    destruct Hr as [Hin Hg]. destruct (Hout r Hin Hu) as [H1 _]. congruence. }
  assert (Hn : requests url (normal_sample_df sample_df) = 0).
  { apply requests_none. intros r Hr Hu. apply filter_In in Hr.
    destruct Hr as [Hin Hg]. destruct (Hout r Hin Hu) as [_ H2]. congruence. }
  rewrite Ht, Hn. now destruct (fst _).
Qed.

Lemma ungrouped_rows_are_never_downloaded_witness :
  fetches (data_url DATA_ENDPOINT "f9")
    (snd (run_site (serve small_table) in_order "Lung"
            [mkSample "S1" "Primary Tumor" "TCGA-X" "f1" "f1.tsv";
             mkSample "S9" "Metastatic" "TCGA-X" "f9" "f9.tsv"])) = 0.
Proof.
  apply (ungrouped_rows_are_never_downloaded (serve small_table) in_order "Lung"
           [mkSample "S1" "Primary Tumor" "TCGA-X" "f1" "f1.tsv";
            mkSample "S9" "Metastatic" "TCGA-X" "f9" "f9.tsv"]
           (data_url DATA_ENDPOINT "f9")).
  - intros rows. apply Permutation_refl.
  - intros r [<- | [<- | []]] Hu.
    + vm_compute in Hu. discriminate.
    + split; reflexivity.
Defined.
